(** * The state store and coastline topology engine of src/state/AppState.ts

    A shallow embedding of the [AppState] class (the revision of the file
    that carries the replacement splice in [COMMIT_EDIT]), of the types of
    src/types/index.ts it works on, and of the caller-side gate of
    src/annotations/CoastlineMode.ts, followed by the properties of the
    reducer, of the shortest-arc walks and of the undo history.

    Conventions of the embedding.
    - A JavaScript [number] is a [number]: a finite value, or one of the
      values [-0], [NaN], [Infinity] and [-Infinity], which [dispatch]
      accepts like any other and which the JSON round trip of [deepClone]
      does not give back, or the [null] that round trip leaves in their
      place.  The finite values are integers ([Z]); the store only copies
      them.
    - Array indices are [Z], because [findIndex] answers [-1]; [%] is
      [Z.rem], the truncating remainder of JavaScript.
    - An optional field ([startAnchorId?: string]) is an [option]; the
      truthiness test the source applies to it is [truthy].
    - [generateId] reads [Math.random]; the identifier it returns during one
      call of [reduce] is an explicit argument ([fresh]) of the reducer.
    - The two [while] loops of [COMMIT_EDIT] run on fuel; [pathCW_total] and
      [pathCCW_total] show that the fuel the reducer supplies is enough. *)

From Stdlib Require Import ZArith List String Bool Lia.
Import ListNotations.

Local Open Scope string_scope.
Local Open Scope list_scope.
Local Open Scope Z_scope.

(** ** Types (src/types/index.ts) *)

(** The values a field of type [number] holds.  [Num z] is a finite number
    other than [-0].  [Null] is in no [number] by its type, but it is what
    [JSON.parse(JSON.stringify(v))] leaves where [v] holds [NaN] or an
    infinity, so a snapshot that [undo] restores can hold it. *)
Inductive number : Type :=
| Num (z : Z)
| NegZero
| NaN
| Infinity
| NegInfinity
| Null.

Coercion Num : Z >-> number.

(** [JSON.parse(JSON.stringify(v))] on a number: [NaN] and the infinities
    are written as [null], [-0] as [0]. *)
Definition jsonNumber (v : number) : number :=
  match v with
  | Num z => Num z
  | NegZero => Num 0
  | NaN | Infinity | NegInfinity | Null => Null
  end.

Record Point : Type := mkPoint {
  pt_x : number;
  pt_y : number;
  pt_id : string
}.

Record CoastlineData : Type := mkCoastline {
  points : list Point;
  isClosed : bool
}.

Record Settlement : Type := mkSettlement {
  st_id : string;
  st_x : number;
  st_y : number;
  st_name : string;
  st_size : number
}.

Record SettlementData : Type := mkSettlementData {
  sd_settlements : list Settlement
}.

Record Road : Type := mkRoad {
  rd_id : string;
  startSettlementId : string;
  endSettlementId : string;
  safe : bool
}.

Record RoadData : Type := mkRoadData {
  rd_roads : list Road
}.

Inductive TowerType : Type :=
| aquagen | aerogen | petrogen | biogen | thermogen
| photogen | keraunogen | kinegen | piezogen.

Record Tower : Type := mkTower {
  tw_id : string;
  tw_x : number;
  tw_y : number;
  tw_type : TowerType;
  tw_power : number
}.

Record TowerData : Type := mkTowerData {
  td_towers : list Tower
}.

(** [PendingEdit.type]: ['add' | 'replace']. *)
Inductive EditType : Type := EditAdd | EditReplace.

Record PendingEdit : Type := mkPendingEdit {
  pe_type : EditType;
  pe_points : list Point;
  startAnchorId : option string;
  endAnchorId : option string;
  replacedPointIds : option (list string)
}.

Inductive AnnotationMode : Type :=
| mode_coastline
| mode_tower_position
| mode_tower_properties
| mode_settlement_position
| mode_settlement_properties
| mode_road_position
| mode_road_properties.

Inductive CoastlineSubMode : Type := sub_add | sub_remove | sub_move.

Record AppStateData : Type := mkAppStateData {
  currentMode : AnnotationMode;
  coastlineSubMode : CoastlineSubMode;
  coastline : CoastlineData;
  towers : TowerData;
  settlements : SettlementData;
  roads : RoadData;
  pendingEdit : option PendingEdit;
  isBackgroundVisible : bool;
  selectedTowerType : TowerType;
  selectedTowerPower : number;
  selectedSettlementSize : number;
  selectedRoadSafe : bool;
  pendingRoadStartId : option string;
  selectedTowerId : option string;
  selectedSettlementId : option string
}.

(** An action is an [ActionType] together with its payload, at the type the
    reducer casts the payload to.  [OTHER t] is a dispatch whose type [t] is
    none of the cases of the [switch] (the embedding gives [OTHER] no
    meaning at a type the [switch] handles, [UNDO] apart, for which the
    reducer returns the state whatever the payload). *)
Inductive Action : Type :=
| SET_MODE (m : AnnotationMode)
| SET_COASTLINE_SUBMODE (m : CoastlineSubMode)
| SET_BACKGROUND_VISIBLE (b : bool)
| ADD_POINT (x y : number)
| CLOSE_COASTLINE
| SET_PENDING_EDIT (pe : option PendingEdit)
| COMMIT_EDIT
| CANCEL_EDIT
| REMOVE_POINT (pointId : string)
| MOVE_POINT (id : string) (x y : number)
| LOAD_STATE (s : AppStateData)
| UNDO
| ADD_TOWER (x y : number)
| REMOVE_TOWER (towerId : string)
| UPDATE_TOWER (updatedTower : Tower)
| SET_TOWER_TYPE (t : TowerType)
| SET_TOWER_POWER (p : number)
| ADD_SETTLEMENT (x y : number)
| REMOVE_SETTLEMENT (settlementId : string)
| UPDATE_SETTLEMENT (updatedSettlement : Settlement)
| SET_SETTLEMENT_SIZE (n : number)
| ADD_ROAD (startId endId : string)
| REMOVE_ROAD (roadId : string)
| UPDATE_ROAD (updatedRoad : Road)
| SET_ROAD_SAFE (b : bool)
| SET_PENDING_ROAD_START (i : option string)
| SELECT_TOWER (i : option string)
| SELECT_SETTLEMENT (i : option string)
| OTHER (type : string).

Definition actionType (a : Action) : string :=
  match a with
  | SET_MODE _ => "SET_MODE"
  | SET_COASTLINE_SUBMODE _ => "SET_COASTLINE_SUBMODE"
  | SET_BACKGROUND_VISIBLE _ => "SET_BACKGROUND_VISIBLE"
  | ADD_POINT _ _ => "ADD_POINT"
  | CLOSE_COASTLINE => "CLOSE_COASTLINE"
  | SET_PENDING_EDIT _ => "SET_PENDING_EDIT"
  | COMMIT_EDIT => "COMMIT_EDIT"
  | CANCEL_EDIT => "CANCEL_EDIT"
  | REMOVE_POINT _ => "REMOVE_POINT"
  | MOVE_POINT _ _ _ => "MOVE_POINT"
  | LOAD_STATE _ => "LOAD_STATE"
  | UNDO => "UNDO"
  | ADD_TOWER _ _ => "ADD_TOWER"
  | REMOVE_TOWER _ => "REMOVE_TOWER"
  | UPDATE_TOWER _ => "UPDATE_TOWER"
  | SET_TOWER_TYPE _ => "SET_TOWER_TYPE"
  | SET_TOWER_POWER _ => "SET_TOWER_POWER"
  | ADD_SETTLEMENT _ _ => "ADD_SETTLEMENT"
  | REMOVE_SETTLEMENT _ => "REMOVE_SETTLEMENT"
  | UPDATE_SETTLEMENT _ => "UPDATE_SETTLEMENT"
  | SET_SETTLEMENT_SIZE _ => "SET_SETTLEMENT_SIZE"
  | ADD_ROAD _ _ => "ADD_ROAD"
  | REMOVE_ROAD _ => "REMOVE_ROAD"
  | UPDATE_ROAD _ => "UPDATE_ROAD"
  | SET_ROAD_SAFE _ => "SET_ROAD_SAFE"
  | SET_PENDING_ROAD_START _ => "SET_PENDING_ROAD_START"
  | SELECT_TOWER _ => "SELECT_TOWER"
  | SELECT_SETTLEMENT _ => "SELECT_SETTLEMENT"
  | OTHER t => t
  end.

Record StateChangeEvent : Type := mkEvent {
  ev_action : Action;          (* [type] and [payload] *)
  previousState : AppStateData;
  newState : AppStateData
}.

(** ** Object spread: [{ ...state, field: v }] *)

Definition with_currentMode (v : AnnotationMode) (s : AppStateData) :=
  mkAppStateData v (coastlineSubMode s) (coastline s) (towers s)
    (settlements s) (roads s) (pendingEdit s) (isBackgroundVisible s)
    (selectedTowerType s) (selectedTowerPower s) (selectedSettlementSize s)
    (selectedRoadSafe s) (pendingRoadStartId s) (selectedTowerId s)
    (selectedSettlementId s).

Definition with_coastlineSubMode (v : CoastlineSubMode) (s : AppStateData) :=
  mkAppStateData (currentMode s) v (coastline s) (towers s)
    (settlements s) (roads s) (pendingEdit s) (isBackgroundVisible s)
    (selectedTowerType s) (selectedTowerPower s) (selectedSettlementSize s)
    (selectedRoadSafe s) (pendingRoadStartId s) (selectedTowerId s)
    (selectedSettlementId s).

Definition with_coastline (v : CoastlineData) (s : AppStateData) :=
  mkAppStateData (currentMode s) (coastlineSubMode s) v (towers s)
    (settlements s) (roads s) (pendingEdit s) (isBackgroundVisible s)
    (selectedTowerType s) (selectedTowerPower s) (selectedSettlementSize s)
    (selectedRoadSafe s) (pendingRoadStartId s) (selectedTowerId s)
    (selectedSettlementId s).

Definition with_towers (v : TowerData) (s : AppStateData) :=
  mkAppStateData (currentMode s) (coastlineSubMode s) (coastline s) v
    (settlements s) (roads s) (pendingEdit s) (isBackgroundVisible s)
    (selectedTowerType s) (selectedTowerPower s) (selectedSettlementSize s)
    (selectedRoadSafe s) (pendingRoadStartId s) (selectedTowerId s)
    (selectedSettlementId s).

Definition with_settlements (v : SettlementData) (s : AppStateData) :=
  mkAppStateData (currentMode s) (coastlineSubMode s) (coastline s) (towers s)
    v (roads s) (pendingEdit s) (isBackgroundVisible s)
    (selectedTowerType s) (selectedTowerPower s) (selectedSettlementSize s)
    (selectedRoadSafe s) (pendingRoadStartId s) (selectedTowerId s)
    (selectedSettlementId s).

Definition with_roads (v : RoadData) (s : AppStateData) :=
  mkAppStateData (currentMode s) (coastlineSubMode s) (coastline s) (towers s)
    (settlements s) v (pendingEdit s) (isBackgroundVisible s)
    (selectedTowerType s) (selectedTowerPower s) (selectedSettlementSize s)
    (selectedRoadSafe s) (pendingRoadStartId s) (selectedTowerId s)
    (selectedSettlementId s).

Definition with_pendingEdit (v : option PendingEdit) (s : AppStateData) :=
  mkAppStateData (currentMode s) (coastlineSubMode s) (coastline s) (towers s)
    (settlements s) (roads s) v (isBackgroundVisible s)
    (selectedTowerType s) (selectedTowerPower s) (selectedSettlementSize s)
    (selectedRoadSafe s) (pendingRoadStartId s) (selectedTowerId s)
    (selectedSettlementId s).

Definition with_isBackgroundVisible (v : bool) (s : AppStateData) :=
  mkAppStateData (currentMode s) (coastlineSubMode s) (coastline s) (towers s)
    (settlements s) (roads s) (pendingEdit s) v
    (selectedTowerType s) (selectedTowerPower s) (selectedSettlementSize s)
    (selectedRoadSafe s) (pendingRoadStartId s) (selectedTowerId s)
    (selectedSettlementId s).

Definition with_selectedTowerType (v : TowerType) (s : AppStateData) :=
  mkAppStateData (currentMode s) (coastlineSubMode s) (coastline s) (towers s)
    (settlements s) (roads s) (pendingEdit s) (isBackgroundVisible s)
    v (selectedTowerPower s) (selectedSettlementSize s)
    (selectedRoadSafe s) (pendingRoadStartId s) (selectedTowerId s)
    (selectedSettlementId s).

Definition with_selectedTowerPower (v : number) (s : AppStateData) :=
  mkAppStateData (currentMode s) (coastlineSubMode s) (coastline s) (towers s)
    (settlements s) (roads s) (pendingEdit s) (isBackgroundVisible s)
    (selectedTowerType s) v (selectedSettlementSize s)
    (selectedRoadSafe s) (pendingRoadStartId s) (selectedTowerId s)
    (selectedSettlementId s).

Definition with_selectedSettlementSize (v : number) (s : AppStateData) :=
  mkAppStateData (currentMode s) (coastlineSubMode s) (coastline s) (towers s)
    (settlements s) (roads s) (pendingEdit s) (isBackgroundVisible s)
    (selectedTowerType s) (selectedTowerPower s) v
    (selectedRoadSafe s) (pendingRoadStartId s) (selectedTowerId s)
    (selectedSettlementId s).

Definition with_selectedRoadSafe (v : bool) (s : AppStateData) :=
  mkAppStateData (currentMode s) (coastlineSubMode s) (coastline s) (towers s)
    (settlements s) (roads s) (pendingEdit s) (isBackgroundVisible s)
    (selectedTowerType s) (selectedTowerPower s) (selectedSettlementSize s)
    v (pendingRoadStartId s) (selectedTowerId s)
    (selectedSettlementId s).

Definition with_pendingRoadStartId (v : option string) (s : AppStateData) :=
  mkAppStateData (currentMode s) (coastlineSubMode s) (coastline s) (towers s)
    (settlements s) (roads s) (pendingEdit s) (isBackgroundVisible s)
    (selectedTowerType s) (selectedTowerPower s) (selectedSettlementSize s)
    (selectedRoadSafe s) v (selectedTowerId s)
    (selectedSettlementId s).

Definition with_selectedTowerId (v : option string) (s : AppStateData) :=
  mkAppStateData (currentMode s) (coastlineSubMode s) (coastline s) (towers s)
    (settlements s) (roads s) (pendingEdit s) (isBackgroundVisible s)
    (selectedTowerType s) (selectedTowerPower s) (selectedSettlementSize s)
    (selectedRoadSafe s) (pendingRoadStartId s) v
    (selectedSettlementId s).

Definition with_selectedSettlementId (v : option string) (s : AppStateData) :=
  mkAppStateData (currentMode s) (coastlineSubMode s) (coastline s) (towers s)
    (settlements s) (roads s) (pendingEdit s) (isBackgroundVisible s)
    (selectedTowerType s) (selectedTowerPower s) (selectedSettlementSize s)
    (selectedRoadSafe s) (pendingRoadStartId s) (selectedTowerId s)
    v.

(** [{ ...pendingEdit, points: v }] *)
Definition with_pe_points (v : list Point) (pe : PendingEdit) : PendingEdit :=
  mkPendingEdit (pe_type pe) v (startAnchorId pe) (endAnchorId pe)
    (replacedPointIds pe).

(** [{ ...state.coastline, points: v }] and [{ ...state.coastline, isClosed: v }] *)
Definition with_points (v : list Point) (c : CoastlineData) : CoastlineData :=
  mkCoastline v (isClosed c).

Definition with_isClosed (v : bool) (c : CoastlineData) : CoastlineData :=
  mkCoastline (points c) v.

(** ** Helpers of the reducer *)

(** JavaScript truthiness of an optional string: [undefined] and the empty
    string are falsy. *)
Definition truthy (o : option string) : bool :=
  match o with
  | Some s => negb (String.eqb s "")
  | None => false
  end.

(** [Array.prototype.findIndex]: the index of the first element satisfying
    [f], or [-1]. *)
Fixpoint findIndex {A : Type} (f : A -> bool) (l : list A) : Z :=
  match l with
  | [] => -1
  | a :: t =>
      if f a then 0
      else let r := findIndex f t in if (r =? -1)%Z then -1 else r + 1
  end.

(** [while (i !== endIdx) { path.push(i); i = next(i); }], at most [fuel]
    iterations; [None] when the fuel runs out before the loop exits. *)
Fixpoint walk (next : Z -> Z) (fuel : nat) (i endIdx : Z) (path : list Z)
  : option (list Z) :=
  if (i =? endIdx)%Z then Some path
  else match fuel with
       | O => None
       | S fuel' => walk next fuel' (next i) endIdx (path ++ [i])
       end.

(** [i = (i + 1) % n] and [i = (i - 1 + n) % n] *)
Definition stepCW (n i : Z) : Z := Z.rem (i + 1) n.
Definition stepCCW (n i : Z) : Z := Z.rem (i - 1 + n) n.

Definition pathCW (n startIdx endIdx : Z) : option (list Z) :=
  walk (stepCW n) (Z.to_nat n) (stepCW n startIdx) endIdx [].

Definition pathCCW (n startIdx endIdx : Z) : option (list Z) :=
  walk (stepCCW n) (Z.to_nat n) (stepCCW n startIdx) endIdx [].

(** [const useCW = pathCW.length <= pathCCW.length] *)
Definition useCW (cw ccw : list Z) : bool :=
  (List.length cw <=? List.length ccw)%nat.

(** [for (let j = 0; j <= k; j++) newPoints.push(points[j])] pushes the
    first [k + 1] elements, and [for (let j = k; j < n; j++) ...] pushes the
    elements from index [k] on; both run with [0 <= k < n] only. *)
Definition upThrough {A : Type} (k : Z) (l : list A) : list A :=
  firstn (Z.to_nat (k + 1)) l.

Definition fromIndex {A : Type} (k : Z) (l : list A) : list A :=
  skipn (Z.to_nat k) l.

(** The [newPoints] array of [COMMIT_EDIT], for either direction. *)
Definition splice (pts newPendingPoints : list Point) (startIdx endIdx : Z)
    (cw : bool) : list Point :=
  if cw then
    upThrough startIdx pts ++ newPendingPoints ++ fromIndex endIdx pts
  else
    upThrough endIdx pts ++ rev newPendingPoints ++ fromIndex startIdx pts.

(** The replacement branch of [COMMIT_EDIT], entered with both anchor ids
    truthy. *)
Definition commitReplace (state : AppStateData) (pe : PendingEdit)
    (startId endId : string) : AppStateData :=
  let pts := points (coastline state) in
  let n := Z.of_nat (List.length pts) in
  let startIdx := findIndex (fun p => String.eqb (pt_id p) startId) pts in
  let endIdx := findIndex (fun p => String.eqb (pt_id p) endId) pts in
  if (startIdx =? -1)%Z || (endIdx =? -1)%Z then
    with_pendingEdit None state
  else
    match pathCW n startIdx endIdx, pathCCW n startIdx endIdx with
    | Some cw, Some ccw =>
        with_pendingEdit None
          (with_coastline
             (with_points
                (splice pts (pe_points pe) startIdx endIdx (useCW cw ccw))
                (coastline state))
             state)
    | _, _ => state (* out of fuel: never taken, see [commit_walks_total] *)
    end.

(** ** The reducer ([AppState.reduce]) *)

Definition reduce (fresh : string) (state : AppStateData) (a : Action)
  : AppStateData :=
  match a with
  | SET_MODE m => with_currentMode m state
  | SET_COASTLINE_SUBMODE m => with_coastlineSubMode m state
  | SET_BACKGROUND_VISIBLE b => with_isBackgroundVisible b state
  | ADD_POINT x y =>
      let newPoint := mkPoint x y fresh in
      if isClosed (coastline state) then
        let pendingEdit0 :=
          match pendingEdit state with
          | Some pe => pe
          | None => mkPendingEdit EditReplace [] None None None
          end in
        with_pendingEdit
          (Some (with_pe_points (pe_points pendingEdit0 ++ [newPoint])
                   pendingEdit0))
          state
      else
        with_coastline
          (with_points (points (coastline state) ++ [newPoint])
             (coastline state))
          state
  | CLOSE_COASTLINE =>
      with_coastline (with_isClosed true (coastline state)) state
  | SET_PENDING_EDIT pe => with_pendingEdit pe state
  | COMMIT_EDIT =>
      match pendingEdit state with
      | None => state
      | Some pe =>
          match pe_type pe with
          | EditAdd =>
              with_pendingEdit None
                (with_coastline
                   (mkCoastline (points (coastline state) ++ pe_points pe)
                      true)
                   state)
          | EditReplace =>
              match startAnchorId pe, endAnchorId pe with
              | Some startId, Some endId =>
                  if truthy (Some startId) && truthy (Some endId) then
                    commitReplace state pe startId endId
                  else with_pendingEdit None state
              | _, _ => with_pendingEdit None state
              end
          end
      end
  | CANCEL_EDIT => with_pendingEdit None state
  | REMOVE_POINT pointId =>
      with_coastline
        (with_points
           (filter (fun p => negb (String.eqb (pt_id p) pointId))
              (points (coastline state)))
           (coastline state))
        state
  | MOVE_POINT id x y =>
      with_coastline
        (with_points
           (map (fun p => if String.eqb (pt_id p) id then mkPoint x y (pt_id p) else p)
              (points (coastline state)))
           (coastline state))
        state
  | LOAD_STATE s => s
  | UNDO => state
  | ADD_TOWER x y =>
      let newTower :=
        mkTower fresh x y (selectedTowerType state) (selectedTowerPower state)
      in
      with_towers (mkTowerData (td_towers (towers state) ++ [newTower])) state
  | REMOVE_TOWER towerId =>
      with_towers
        (mkTowerData
           (filter (fun t => negb (String.eqb (tw_id t) towerId))
              (td_towers (towers state))))
        state
  | UPDATE_TOWER updatedTower =>
      with_towers
        (mkTowerData
           (map (fun t => if String.eqb (tw_id t) (tw_id updatedTower)
                          then updatedTower else t)
              (td_towers (towers state))))
        state
  | SET_TOWER_TYPE t => with_selectedTowerType t state
  | SET_TOWER_POWER p => with_selectedTowerPower p state
  | ADD_SETTLEMENT x y =>
      let newSettlement :=
        mkSettlement fresh x y "" (selectedSettlementSize state) in
      with_settlements
        (mkSettlementData
           (sd_settlements (settlements state) ++ [newSettlement]))
        state
  | REMOVE_SETTLEMENT settlementId =>
      with_settlements
        (mkSettlementData
           (filter (fun s => negb (String.eqb (st_id s) settlementId))
              (sd_settlements (settlements state))))
        state
  | UPDATE_SETTLEMENT updatedSettlement =>
      with_settlements
        (mkSettlementData
           (map (fun s => if String.eqb (st_id s) (st_id updatedSettlement)
                          then updatedSettlement else s)
              (sd_settlements (settlements state))))
        state
  | SET_SETTLEMENT_SIZE n => with_selectedSettlementSize n state
  | ADD_ROAD startId endId =>
      let newRoad := mkRoad fresh startId endId (selectedRoadSafe state) in
      with_pendingRoadStartId None
        (with_roads (mkRoadData (rd_roads (roads state) ++ [newRoad])) state)
  | REMOVE_ROAD roadId =>
      with_roads
        (mkRoadData
           (filter (fun r => negb (String.eqb (rd_id r) roadId))
              (rd_roads (roads state))))
        state
  | UPDATE_ROAD updatedRoad =>
      with_roads
        (mkRoadData
           (map (fun r => if String.eqb (rd_id r) (rd_id updatedRoad)
                          then updatedRoad else r)
              (rd_roads (roads state))))
        state
  | SET_ROAD_SAFE b => with_selectedRoadSafe b state
  | SET_PENDING_ROAD_START i => with_pendingRoadStartId i state
  | SELECT_TOWER i => with_selectedTowerId i state
  | SELECT_SETTLEMENT i => with_selectedSettlementId i state
  | OTHER _ => state
  end.

(** ** The store ([class AppState]) *)

(** [deepClone]: [JSON.parse(JSON.stringify(obj))] rebuilds every object
    and every array of the snapshot, so the copy shares nothing with the
    original; strings and booleans come back as they were, a property that
    is [undefined] stays absent, [null] stays [null], and a number comes
    back as [jsonNumber] of it ([parse_stringify_state] derives this from
    what [JSON.stringify] writes). *)
Definition clonePoint (p : Point) : Point :=
  mkPoint (jsonNumber (pt_x p)) (jsonNumber (pt_y p)) (pt_id p).

Definition cloneTower (t : Tower) : Tower :=
  mkTower (tw_id t) (jsonNumber (tw_x t)) (jsonNumber (tw_y t)) (tw_type t)
    (jsonNumber (tw_power t)).

Definition cloneSettlement (s : Settlement) : Settlement :=
  mkSettlement (st_id s) (jsonNumber (st_x s)) (jsonNumber (st_y s))
    (st_name s) (jsonNumber (st_size s)).

Definition cloneRoad (r : Road) : Road :=
  mkRoad (rd_id r) (startSettlementId r) (endSettlementId r) (safe r).

Definition clonePendingEdit (pe : PendingEdit) : PendingEdit :=
  mkPendingEdit (pe_type pe) (map clonePoint (pe_points pe))
    (startAnchorId pe) (endAnchorId pe)
    (option_map (map (fun i : string => i)) (replacedPointIds pe)).

Definition deepClone (s : AppStateData) : AppStateData :=
  mkAppStateData (currentMode s) (coastlineSubMode s)
    (mkCoastline (map clonePoint (points (coastline s)))
       (isClosed (coastline s)))
    (mkTowerData (map cloneTower (td_towers (towers s))))
    (mkSettlementData (map cloneSettlement (sd_settlements (settlements s))))
    (mkRoadData (map cloneRoad (rd_roads (roads s))))
    (option_map clonePendingEdit (pendingEdit s))
    (isBackgroundVisible s) (selectedTowerType s)
    (jsonNumber (selectedTowerPower s))
    (jsonNumber (selectedSettlementSize s)) (selectedRoadSafe s)
    (pendingRoadStartId s) (selectedTowerId s) (selectedSettlementId s).

(** The numbers the JSON round trip gives back as they are, and the states
    that hold no other. *)
Definition jsonExact (v : number) : bool :=
  match v with
  | Num _ | Null => true
  | NegZero | NaN | Infinity | NegInfinity => false
  end.

Definition exactPoint (p : Point) : bool :=
  jsonExact (pt_x p) && jsonExact (pt_y p).

Definition exactTower (t : Tower) : bool :=
  jsonExact (tw_x t) && jsonExact (tw_y t) && jsonExact (tw_power t).

Definition exactSettlement (s : Settlement) : bool :=
  jsonExact (st_x s) && jsonExact (st_y s) && jsonExact (st_size s).

Definition jsonStable (s : AppStateData) : bool :=
  forallb exactPoint (points (coastline s))
  && forallb exactTower (td_towers (towers s))
  && forallb exactSettlement (sd_settlements (settlements s))
  && match pendingEdit s with
     | Some pe => forallb exactPoint (pe_points pe)
     | None => true
     end
  && jsonExact (selectedTowerPower s)
  && jsonExact (selectedSettlementSize s).

(** A listener is named by a number; [listeners] is the [Set] in insertion
    order.  [notified] is not a field of the class: it is the trace of the
    calls [listener(event)] made so far, oldest first.  What a listener
    does when called is not part of the store; the listeners this
    repository registers redraw the map and the controls and call neither
    [dispatch], [undo] nor [subscribe] while they run, and the embedding
    covers such listeners only. *)
Definition Listener : Type := nat.

Record AppState : Type := mkAppState {
  state : AppStateData;
  listeners : list Listener;
  history : list AppStateData;
  notified : list (Listener * StateChangeEvent)
}.

Definition maxHistory : nat := 50.

Definition createInitialState : AppStateData :=
  mkAppStateData mode_coastline sub_add (mkCoastline [] false)
    (mkTowerData []) (mkSettlementData []) (mkRoadData []) None true
    aquagen 200 1 true None None None.

(** [new AppState(initialState)] *)
Definition newAppState (initialState : option AppStateData) : AppState :=
  mkAppState
    (match initialState with Some s => s | None => createInitialState end)
    [] [] [].

Definition getState (st : AppState) : AppStateData := state st.

Definition subscribe (l : Listener) (st : AppState) : AppState :=
  mkAppState (state st)
    (if existsb (Nat.eqb l) (listeners st) then listeners st
     else listeners st ++ [l])
    (history st) (notified st).

(** The function [subscribe] returns: [() => this.listeners.delete(listener)] *)
Definition unsubscribe (l : Listener) (st : AppState) : AppState :=
  mkAppState (state st)
    (filter (fun l' => negb (Nat.eqb l l')) (listeners st))
    (history st) (notified st).

(** [this.listeners.forEach((listener) => listener(event))] *)
Definition notifyAll (ls : list Listener) (event : StateChangeEvent)
  : list (Listener * StateChangeEvent) :=
  map (fun l => (l, event)) ls.

(** [this.history.push(previousState); if (this.history.length >
    this.maxHistory) this.history.shift();] *)
Definition pushHistory (h : list AppStateData) (previous : AppStateData)
  : list AppStateData :=
  let h' := h ++ [previous] in
  if (maxHistory <? List.length h')%nat then tl h' else h'.

Definition dispatch (fresh : string) (a : Action) (st : AppState) : AppState :=
  let previous := deepClone (state st) in
  let history' :=
    if negb (String.eqb (actionType a) "UNDO")
    then pushHistory (history st) previous
    else history st in
  let state' := reduce fresh (state st) a in
  let event := mkEvent a previous state' in
  mkAppState state' (listeners st) history'
    (notified st ++ notifyAll (listeners st) event).

(** [Array.prototype.pop]: the array without its last element, and that
    element; [None] on the empty array. *)
Fixpoint pop {A : Type} (l : list A) : option (list A * A) :=
  match l with
  | [] => None
  | a :: t =>
      match pop t with
      | None => Some ([], a)
      | Some (t', z) => Some (a :: t', z)
      end
  end.

Definition undo (st : AppState) : bool * AppState :=
  match pop (history st) with
  | None => (false, st)
  | Some (history', previous) =>
      let event := mkEvent UNDO (state st) previous in
      (true,
       mkAppState previous (listeners st) history'
         (notified st ++ notifyAll (listeners st) event))
  end.

(** A run of dispatches, each with the identifier [generateId] would return
    during it, and [n] calls of [undo] in a row: what each returned and the
    store after the last. *)
Fixpoint dispatchAll (acts : list (string * Action)) (st : AppState)
  : AppState :=
  match acts with
  | [] => st
  | (fresh, a) :: rest => dispatchAll rest (dispatch fresh a st)
  end.

Fixpoint undoN (n : nat) (st : AppState) : list bool * AppState :=
  match n with
  | O => ([], st)
  | S n' =>
      let r := undo st in
      let rs := undoN n' (snd r) in
      (fst r :: fst rs, snd rs)
  end.

(** The snapshots that are current before each dispatch of a run, oldest
    first. *)
Fixpoint statesBefore (acts : list (string * Action)) (s : AppStateData)
  : list AppStateData :=
  match acts with
  | [] => []
  | (fresh, a) :: rest => s :: statesBefore rest (reduce fresh s a)
  end.

(** ** The caller-side gate (src/annotations/CoastlineMode.ts) *)

(** [CoastlineMode.handleRemoveModeClick]; the status line it writes is not
    part of the store. *)
Definition handleRemoveModeClick (fresh : string) (clickedPoint : option Point)
    (st : AppState) : AppState :=
  match clickedPoint with
  | Some p =>
      if (List.length (points (coastline (getState st))) <=? 3)%nat then st
      else dispatch fresh (REMOVE_POINT (pt_id p)) st
  | None => st
  end.

(** [CoastlineMode.findReplacedPointIds]: the ids on the shorter of the
    two walks. *)
Definition idAt (pts : list Point) (i : Z) : string :=
  match nth_error pts (Z.to_nat i) with
  | Some p => pt_id p
  | None => ""
  end.

Definition findReplacedPointIds (pts : list Point) (startId endId : string)
  : list string :=
  let n := Z.of_nat (List.length pts) in
  let startIdx := findIndex (fun p => String.eqb (pt_id p) startId) pts in
  let endIdx := findIndex (fun p => String.eqb (pt_id p) endId) pts in
  if (startIdx =? -1)%Z || (endIdx =? -1)%Z then []
  else
    match pathCW n startIdx endIdx, pathCCW n startIdx endIdx with
    | Some cw, Some ccw =>
        if useCW cw ccw then map (idAt pts) cw else map (idAt pts) ccw
    | _, _ => []
    end.

(** ** Notions used in the statements, and sample data *)

(** Number of steps the forward walk needs to get from [i] to [e] around a
    cycle of [n], and the same for the backward walk. *)
Definition distCW (n i e : Z) : Z := if i <=? e then e - i else e - i + n.
Definition distCCW (n i e : Z) : Z := if e <=? i then i - e else i - e + n.

(** The [d] indices the forward walk visits from [i] on around a cycle of
    [n], and those the backward walk visits. *)
Definition forwardFrom (n i : Z) (d : nat) : list Z :=
  map (fun k => Z.rem (i + Z.of_nat k) n) (seq 0 d).

Definition backwardFrom (n i : Z) (d : nat) : list Z :=
  map (fun k => Z.rem (i - Z.of_nat k + n) n) (seq 0 d).

(** Case analysis on every integer comparison in sight. *)
Ltac case_cmp :=
  repeat (match goal with
          | |- context [?a <=? ?b] => destruct (Z.leb_spec a b)
          | |- context [?a <? ?b] => destruct (Z.ltb_spec a b)
          | H : context [?a <=? ?b] |- _ => destruct (Z.leb_spec a b)
          | H : context [?a <? ?b] |- _ => destruct (Z.ltb_spec a b)
          end; cbv iota in *).

(** Sample data: a vertex named [i] at the origin, boundaries of three to
    five vertices, and states around them that differ from the initial
    state in the coastline and the pending edit only. *)
Definition vertex (i : string) : Point := mkPoint 0 0 i.

Definition closedState (pts : list Point) (pe : option PendingEdit)
  : AppStateData :=
  with_pendingEdit pe (with_coastline (mkCoastline pts true) createInitialState).

(** A replacement edit with both anchors set, and a draft edit. *)
Definition replaceEdit (startId endId : string) (draft : list Point)
  : PendingEdit :=
  mkPendingEdit EditReplace draft (Some startId) (Some endId) None.

Definition boundaryABCDE : list Point :=
  [vertex "A"; vertex "B"; vertex "C"; vertex "D"; vertex "E"].

(** The ids of the boundary, in order. *)
Definition boundaryIds (s : AppStateData) : list string :=
  map pt_id (points (coastline s)).

Definition boundary3 : list Point := [vertex "A"; vertex "B"; vertex "C"].

Definition boundary4 : list Point :=
  [vertex "A"; vertex "B"; vertex "C"; vertex "D"].

(** No vertex of [pts] carries the optional id [o]. *)
Definition dangling (o : option string) (pts : list Point) : Prop :=
  forall p, In p pts -> Some (pt_id p) <> o.

Definition draftEdit (draft : list Point) : PendingEdit :=
  mkPendingEdit EditAdd draft None None None.

Definition openState (pts : list Point) (pe : option PendingEdit)
  : AppStateData :=
  with_pendingEdit pe
    (with_coastline (mkCoastline pts false) createInitialState).

(** The branches of [reduce] that call [generateId]. *)
Definition callsGenerateId (a : Action) : bool :=
  match a with
  | ADD_POINT _ _ | ADD_TOWER _ _ | ADD_SETTLEMENT _ _ | ADD_ROAD _ _ => true
  | _ => false
  end.

(** The dispatch is not of type [UNDO]. *)
Definition notUndo (fa : string * Action) : Prop :=
  actionType (snd fa) <> "UNDO".

(** A new store after one [ADD_POINT], fifty further dispatches, and the
    state that edits [A, B, C, D, E] from [D] forward to [A]. *)
Definition onePointStore : AppState :=
  dispatch "k3x9q0a7m" (ADD_POINT 4 5) (newAppState None).


Definition editingDA : AppStateData :=
  closedState boundaryABCDE
    (Some (replaceEdit "D" "A" [vertex "X"; vertex "Y"])).

(** A new store after [dispatch('ADD_POINT', { x: NaN, y: 5 })]. *)
Definition nanStore : AppState :=
  dispatch "k3x9q0a7m" (ADD_POINT NaN 5) (newAppState None).

(** The state [s'] has every field other than [coastline] and
    [pendingEdit] as [s] has it. *)
Definition sameOutsideCoastline (s s' : AppStateData) : Prop :=
  currentMode s' = currentMode s
  /\ coastlineSubMode s' = coastlineSubMode s
  /\ towers s' = towers s
  /\ settlements s' = settlements s
  /\ roads s' = roads s
  /\ isBackgroundVisible s' = isBackgroundVisible s
  /\ selectedTowerType s' = selectedTowerType s
  /\ selectedTowerPower s' = selectedTowerPower s
  /\ selectedSettlementSize s' = selectedSettlementSize s
  /\ selectedRoadSafe s' = selectedRoadSafe s
  /\ pendingRoadStartId s' = pendingRoadStartId s
  /\ selectedTowerId s' = selectedTowerId s
  /\ selectedSettlementId s' = selectedSettlementId s.

(** ** Runs of store operations *)

(** One call on the store: [dispatch], [undo], [subscribe], or the
    function [subscribe] returned. *)
Inductive StoreOp : Type :=
| OpDispatch (fresh : string) (a : Action)
| OpUndo
| OpSubscribe (l : Listener)
| OpUnsubscribe (l : Listener).

Definition applyOp (op : StoreOp) (st : AppState) : AppState :=
  match op with
  | OpDispatch fresh a => dispatch fresh a st
  | OpUndo => snd (undo st)
  | OpSubscribe l => subscribe l st
  | OpUnsubscribe l => unsubscribe l st
  end.

Definition runOps (ops : list StoreOp) (st : AppState) : AppState :=
  fold_left (fun st' op => applyOp op st') ops st.

(** Number of calls the listener [l] has received so far. *)
Definition callsTo (l : Listener) (st : AppState) : nat :=
  List.length (filter (fun c => Nat.eqb (fst c) l) (notified st)).

(** ** Coastline editing (src/annotations/CoastlineMode.ts) *)

(** The test [calculateDistance(x, y, point.x, point.y) < CLOSE_LOOP_THRESHOLD]
    is floating-point arithmetic on the click, the point and the zoom; a
    click carries its outcome on every point as [near].
    [getPointAtLocation] returns the first point of the boundary that
    passes it. *)
Definition getPointAtLocation (near : Point -> bool) (st : AppState)
  : option Point :=
  find near (points (coastline (getState st))).

(** [CoastlineMode.handleAddModeClick] *)
Definition handleAddModeClick (fresh : string) (x y : number)
    (clickedPoint : option Point) (st : AppState) : AppState :=
  let state := getState st in
  match pendingEdit state with
  | None =>
      match clickedPoint with
      | Some p =>
          dispatch fresh
            (SET_PENDING_EDIT
               (Some (mkPendingEdit EditReplace [] (Some (pt_id p)) None None)))
            st
      | None => st
      end
  | Some pe =>
      match startAnchorId pe with
      | Some startId =>
          if truthy (Some startId) && negb (truthy (endAnchorId pe)) then
            match clickedPoint with
            | Some p =>
                if negb (String.eqb (pt_id p) startId) then
                  let replacedIds :=
                    findReplacedPointIds (points (coastline state))
                      startId (pt_id p) in
                  dispatch fresh
                    (SET_PENDING_EDIT
                       (Some (mkPendingEdit (pe_type pe) (pe_points pe)
                                (startAnchorId pe) (Some (pt_id p))
                                (Some replacedIds))))
                    st
                else dispatch fresh CANCEL_EDIT st
            | None => dispatch fresh (ADD_POINT x y) st
            end
          else st
      | None => st
      end
  end.

(** [CoastlineMode.handleEditClick] *)
Definition handleEditClick (fresh : string) (x y : number)
    (near : Point -> bool) (st : AppState) : AppState :=
  let clickedPoint := getPointAtLocation near st in
  match coastlineSubMode (getState st) with
  | sub_add => handleAddModeClick fresh x y clickedPoint st
  | sub_remove => handleRemoveModeClick fresh clickedPoint st
  | sub_move => st
  end.

(** [CoastlineMode.handleMapClick] *)
Definition handleMapClick (fresh : string) (x y : number)
    (near : Point -> bool) (st : AppState) : AppState :=
  let state := getState st in
  if isClosed (coastline state) then handleEditClick fresh x y near st
  else
    match coastlineSubMode state with
    | sub_add =>
        if (3 <=? List.length (points (coastline state)))%nat
           && match points (coastline state) with
              | firstPoint :: _ => near firstPoint
              | [] => false
              end
        then dispatch fresh CLOSE_COASTLINE st
        else dispatch fresh (ADD_POINT x y) st
    | _ => st
    end.

(** The fields of [CoastlineMode] the handlers read and write. *)
Record CoastlineMode : Type := mkCoastlineMode {
  cm_active : bool;
  draggingPointId : option string
}.

(** [CoastlineMode.handleMouseDownOnPoint] *)
Definition handleMouseDownOnPoint (pointId : string)
    (ui : CoastlineMode * AppState) : CoastlineMode * AppState :=
  let (cm, st) := ui in
  match coastlineSubMode (getState st) with
  | sub_move =>
      if isClosed (coastline (getState st))
      then (mkCoastlineMode (cm_active cm) (Some pointId), st)
      else ui
  | _ => ui
  end.

(** [CoastlineMode.handleMouseMove] *)
Definition handleMouseMove (fresh : string) (x y : number)
    (ui : CoastlineMode * AppState) : CoastlineMode * AppState :=
  let (cm, st) := ui in
  match draggingPointId cm with
  | Some id =>
      if truthy (Some id)
      then (cm, dispatch fresh (MOVE_POINT id x y) st)
      else ui
  | None => ui
  end.

(** [CoastlineMode.handleMouseUp] *)
Definition handleMouseUp (ui : CoastlineMode * AppState)
  : CoastlineMode * AppState :=
  let (cm, st) := ui in
  if truthy (draggingPointId cm)
  then (mkCoastlineMode (cm_active cm) None, st)
  else ui.

(** What the user can do to the coastline: the map and marker handlers of
    [CoastlineMode], and the commit, cancel, sub-mode and undo controls of
    src/main.ts. *)
Inductive UiEvent : Type :=
| MapClick (fresh : string) (x y : number) (near : Point -> bool)
| MouseDownOnPoint (pointId : string)
| MouseMove (fresh : string) (x y : number)
| MouseUp
| CommitButton (fresh : string)
| CancelButton (fresh : string)
| SubModeRadio (fresh : string) (value : CoastlineSubMode)
| UndoControl.

Definition uiStep (ev : UiEvent) (ui : CoastlineMode * AppState)
  : CoastlineMode * AppState :=
  match ev with
  | MapClick fresh x y near => (fst ui, handleMapClick fresh x y near (snd ui))
  | MouseDownOnPoint pointId => handleMouseDownOnPoint pointId ui
  | MouseMove fresh x y => handleMouseMove fresh x y ui
  | MouseUp => handleMouseUp ui
  | CommitButton fresh => (fst ui, dispatch fresh COMMIT_EDIT (snd ui))
  | CancelButton fresh => (fst ui, dispatch fresh CANCEL_EDIT (snd ui))
  | SubModeRadio fresh value =>
      (fst ui,
       dispatch fresh CANCEL_EDIT
         (dispatch fresh (SET_COASTLINE_SUBMODE value) (snd ui)))
  | UndoControl => (fst ui, snd (undo (snd ui)))
  end.

Definition uiRun (evs : list UiEvent) (ui : CoastlineMode * AppState)
  : CoastlineMode * AppState :=
  fold_left (fun ui' ev => uiStep ev ui') evs ui.

(** A pending edit, when there is one, is a replacement with its start
    anchor set, on a closed coastline. *)
Definition editWellFormed (s : AppStateData) : Prop :=
  match pendingEdit s with
  | None => True
  | Some pe =>
      pe_type pe = EditReplace
      /\ startAnchorId pe <> None
      /\ isClosed (coastline s) = true
  end.

(** The draft vertices a run of clicks on empty map creates. *)
Definition draftOf (clicks : list (string * number * number)) : list Point :=
  map (fun c => mkPoint (snd (fst c)) (snd c) (fst (fst c))) clicks.

Definition clickEmpty (st : AppState) (c : string * number * number)
  : AppState :=
  handleAddModeClick (fst (fst c)) (snd (fst c)) (snd c) None st.

(** A drag: one [handleMouseMove] per position. *)
Definition dragThrough (fresh : string) (moves : list (number * number))
    (ui : CoastlineMode * AppState) : CoastlineMode * AppState :=
  fold_left (fun ui' m => handleMouseMove fresh (fst m) (snd m) ui') moves ui.

Definition dragActions (fresh id : string) (moves : list (number * number))
  : list (string * Action) :=
  map (fun m => (fresh, MOVE_POINT id (fst m) (snd m))) moves.

(** ** Roads (src/annotations/RoadMode.ts) *)




(** ** Settlement markers (src/annotations/SettlementMode.ts) *)




(** ** Saving and loading (src/utils/persistence.ts, src/main.ts) *)

(** A JSON value: what [JSON.stringify] writes and what [response.json()]
    reads back.  The text in between is left out, [JSON.parse] being the
    inverse of [JSON.stringify] on it.  A number is a finite one, an
    object the list of its members in order. *)
#[local] Set Warnings "-register-all".

Inductive Json : Type :=
| JNull
| JBool (b : bool)
| JNumber (z : Z)
| JString (s : string)
| JArray (items : list Json)
| JObject (members : list (string * Json)).

(** [JSON.stringify] at the types of src/types/index.ts: [NaN] and the
    infinities are written as [null], [-0] as [0]; the members of an
    object come in the order the object was built in. *)
Definition numberToJson (v : number) : Json :=
  match v with
  | Num z => JNumber z
  | NegZero => JNumber 0
  | NaN | Infinity | NegInfinity | Null => JNull
  end.

Definition pointToJson (p : Point) : Json :=
  JObject [("id", JString (pt_id p)); ("x", numberToJson (pt_x p));
           ("y", numberToJson (pt_y p))].

Definition coastlineToJson (c : CoastlineData) : Json :=
  JObject [("points", JArray (map pointToJson (points c)));
           ("isClosed", JBool (isClosed c))].

Definition towerTypeName (t : TowerType) : string :=
  match t with
  | aquagen => "aquagen"
  | aerogen => "aerogen"
  | petrogen => "petrogen"
  | biogen => "biogen"
  | thermogen => "thermogen"
  | photogen => "photogen"
  | keraunogen => "keraunogen"
  | kinegen => "kinegen"
  | piezogen => "piezogen"
  end.

Definition towerToJson (t : Tower) : Json :=
  JObject [("id", JString (tw_id t)); ("x", numberToJson (tw_x t));
           ("y", numberToJson (tw_y t));
           ("type", JString (towerTypeName (tw_type t)));
           ("power", numberToJson (tw_power t))].

Definition towersToJson (t : TowerData) : Json :=
  JObject [("towers", JArray (map towerToJson (td_towers t)))].

Definition settlementToJson (s : Settlement) : Json :=
  JObject [("id", JString (st_id s)); ("x", numberToJson (st_x s));
           ("y", numberToJson (st_y s)); ("name", JString (st_name s));
           ("size", numberToJson (st_size s))].

Definition settlementsToJson (s : SettlementData) : Json :=
  JObject [("settlements", JArray (map settlementToJson (sd_settlements s)))].

Definition roadToJson (r : Road) : Json :=
  JObject [("id", JString (rd_id r));
           ("startSettlementId", JString (startSettlementId r));
           ("endSettlementId", JString (endSettlementId r));
           ("safe", JBool (safe r))].

Definition roadsToJson (r : RoadData) : Json :=
  JObject [("roads", JArray (map roadToJson (rd_roads r)))].

(** Reading a parsed value.  [getProp key j] is [j.key]: the member of that
    name, the last one if the text repeats it, and [None] ([undefined])
    when there is none; the names read here are no members of arrays,
    strings, numbers or booleans. *)
Definition getProp (key : string) (j : Json) : option Json :=
  match j with
  | JObject members =>
      fold_left
        (fun found m => if String.eqb (fst m) key then Some (snd m) else found)
        members None
  | _ => None
  end.

(** JavaScript truthiness of a parsed value. *)
Definition jsTruthy (j : Json) : bool :=
  match j with
  | JNull => false
  | JBool b => b
  | JNumber z => negb (z =? 0)
  | JString s => negb (String.eqb s "")
  | JArray _ | JObject _ => true
  end.

(** [v || d], [v] being a property that may be [undefined]. *)
Definition orDefault (v : option Json) (d : Json) : Json :=
  match v with
  | Some j => if jsTruthy j then j else d
  | None => d
  end.

(** The source reads what [response.json()] returns at the types of
    src/types/index.ts without checking it.  The functions [as...] give
    the value of that type a parsed value is, and [None] when it is none:
    the store would then hold a value outside its type, which the
    embedding has no term for. *)
Definition bind {A B : Type} (o : option A) (f : A -> option B) : option B :=
  match o with
  | Some a => f a
  | None => None
  end.

Notation "x <- e ;; k" := (bind e (fun x => k))
  (at level 61, e at next level, right associativity).

Definition asNumber (j : Json) : option number :=
  match j with
  | JNumber z => Some (Num z)
  | JNull => Some Null
  | _ => None
  end.

Definition asString (j : Json) : option string :=
  match j with
  | JString s => Some s
  | _ => None
  end.

Definition asBool (j : Json) : option bool :=
  match j with
  | JBool b => Some b
  | _ => None
  end.

Fixpoint allSome {A : Type} (l : list (option A)) : option (list A) :=
  match l with
  | [] => Some []
  | o :: t => a <- o ;; r <- allSome t ;; Some (a :: r)
  end.

Definition asArray {A : Type} (f : Json -> option A) (j : Json)
  : option (list A) :=
  match j with
  | JArray items => allSome (map f items)
  | _ => None
  end.

Definition asPoint (j : Json) : option Point :=
  x <- bind (getProp "x" j) asNumber ;;
  y <- bind (getProp "y" j) asNumber ;;
  i <- bind (getProp "id" j) asString ;;
  Some (mkPoint x y i).

Definition asCoastlineData (j : Json) : option CoastlineData :=
  pts <- bind (getProp "points" j) (asArray asPoint) ;;
  c <- bind (getProp "isClosed" j) asBool ;;
  Some (mkCoastline pts c).

Definition asTowerType (j : Json) : option TowerType :=
  n <- asString j ;;
  find (fun t => String.eqb (towerTypeName t) n)
    [aquagen; aerogen; petrogen; biogen; thermogen; photogen; keraunogen;
     kinegen; piezogen].

Definition asTower (j : Json) : option Tower :=
  i <- bind (getProp "id" j) asString ;;
  x <- bind (getProp "x" j) asNumber ;;
  y <- bind (getProp "y" j) asNumber ;;
  t <- bind (getProp "type" j) asTowerType ;;
  p <- bind (getProp "power" j) asNumber ;;
  Some (mkTower i x y t p).

Definition asTowerData (j : Json) : option TowerData :=
  l <- bind (getProp "towers" j) (asArray asTower) ;;
  Some (mkTowerData l).

Definition asSettlement (j : Json) : option Settlement :=
  i <- bind (getProp "id" j) asString ;;
  x <- bind (getProp "x" j) asNumber ;;
  y <- bind (getProp "y" j) asNumber ;;
  n <- bind (getProp "name" j) asString ;;
  z <- bind (getProp "size" j) asNumber ;;
  Some (mkSettlement i x y n z).

Definition asSettlementData (j : Json) : option SettlementData :=
  l <- bind (getProp "settlements" j) (asArray asSettlement) ;;
  Some (mkSettlementData l).

Definition asRoad (j : Json) : option Road :=
  i <- bind (getProp "id" j) asString ;;
  a <- bind (getProp "startSettlementId" j) asString ;;
  b <- bind (getProp "endSettlementId" j) asString ;;
  f <- bind (getProp "safe" j) asBool ;;
  Some (mkRoad i a b f).

Definition asRoadData (j : Json) : option RoadData :=
  l <- bind (getProp "roads" j) (asArray asRoad) ;;
  Some (mkRoadData l).

(** The same for a whole state, as [deepClone] writes and reads it: a
    member that is [undefined] is left out, one that is [null] is
    written as [null]. *)
Definition modeName (m : AnnotationMode) : string :=
  match m with
  | mode_coastline => "coastline"
  | mode_tower_position => "tower-position"
  | mode_tower_properties => "tower-properties"
  | mode_settlement_position => "settlement-position"
  | mode_settlement_properties => "settlement-properties"
  | mode_road_position => "road-position"
  | mode_road_properties => "road-properties"
  end.

Definition subModeName (m : CoastlineSubMode) : string :=
  match m with
  | sub_add => "add"
  | sub_remove => "remove"
  | sub_move => "move"
  end.

Definition editTypeName (t : EditType) : string :=
  match t with
  | EditAdd => "add"
  | EditReplace => "replace"
  end.

Definition optionalMember (key : string) (v : option Json)
  : list (string * Json) :=
  match v with
  | Some j => [(key, j)]
  | None => []
  end.

Definition nullable {A : Type} (f : A -> Json) (o : option A) : Json :=
  match o with
  | Some a => f a
  | None => JNull
  end.

Definition pendingEditToJson (pe : PendingEdit) : Json :=
  JObject
    ([("type", JString (editTypeName (pe_type pe)));
      ("points", JArray (map pointToJson (pe_points pe)))]
     ++ optionalMember "startAnchorId" (option_map JString (startAnchorId pe))
     ++ optionalMember "endAnchorId" (option_map JString (endAnchorId pe))
     ++ optionalMember "replacedPointIds"
          (option_map (fun ids => JArray (map JString ids))
             (replacedPointIds pe))).

Definition stateToJson (s : AppStateData) : Json :=
  JObject
    [("currentMode", JString (modeName (currentMode s)));
     ("coastlineSubMode", JString (subModeName (coastlineSubMode s)));
     ("coastline", coastlineToJson (coastline s));
     ("towers", towersToJson (towers s));
     ("settlements", settlementsToJson (settlements s));
     ("roads", roadsToJson (roads s));
     ("pendingEdit", nullable pendingEditToJson (pendingEdit s));
     ("isBackgroundVisible", JBool (isBackgroundVisible s));
     ("selectedTowerType", JString (towerTypeName (selectedTowerType s)));
     ("selectedTowerPower", numberToJson (selectedTowerPower s));
     ("selectedSettlementSize", numberToJson (selectedSettlementSize s));
     ("selectedRoadSafe", JBool (selectedRoadSafe s));
     ("pendingRoadStartId", nullable JString (pendingRoadStartId s));
     ("selectedTowerId", nullable JString (selectedTowerId s));
     ("selectedSettlementId", nullable JString (selectedSettlementId s))].

Definition asOptional {A : Type} (f : Json -> option A) (v : option Json)
  : option (option A) :=
  match v with
  | Some j => a <- f j ;; Some (Some a)
  | None => Some None
  end.

Definition asNullable {A : Type} (f : Json -> option A) (j : Json)
  : option (option A) :=
  match j with
  | JNull => Some None
  | _ => a <- f j ;; Some (Some a)
  end.

Definition asMode (j : Json) : option AnnotationMode :=
  n <- asString j ;;
  find (fun m => String.eqb (modeName m) n)
    [mode_coastline; mode_tower_position; mode_tower_properties;
     mode_settlement_position; mode_settlement_properties;
     mode_road_position; mode_road_properties].

Definition asSubMode (j : Json) : option CoastlineSubMode :=
  n <- asString j ;;
  find (fun m => String.eqb (subModeName m) n) [sub_add; sub_remove; sub_move].

Definition asEditType (j : Json) : option EditType :=
  n <- asString j ;;
  find (fun t => String.eqb (editTypeName t) n) [EditAdd; EditReplace].

Definition asPendingEdit (j : Json) : option PendingEdit :=
  t <- bind (getProp "type" j) asEditType ;;
  pts <- bind (getProp "points" j) (asArray asPoint) ;;
  sa <- asOptional asString (getProp "startAnchorId" j) ;;
  ea <- asOptional asString (getProp "endAnchorId" j) ;;
  rp <- asOptional (asArray asString) (getProp "replacedPointIds" j) ;;
  Some (mkPendingEdit t pts sa ea rp).

Definition asAppStateData (j : Json) : option AppStateData :=
  cm <- bind (getProp "currentMode" j) asMode ;;
  csm <- bind (getProp "coastlineSubMode" j) asSubMode ;;
  c <- bind (getProp "coastline" j) asCoastlineData ;;
  t <- bind (getProp "towers" j) asTowerData ;;
  s <- bind (getProp "settlements" j) asSettlementData ;;
  r <- bind (getProp "roads" j) asRoadData ;;
  pe <- bind (getProp "pendingEdit" j) (asNullable asPendingEdit) ;;
  bg <- bind (getProp "isBackgroundVisible" j) asBool ;;
  tt <- bind (getProp "selectedTowerType" j) asTowerType ;;
  tp <- bind (getProp "selectedTowerPower" j) asNumber ;;
  ss <- bind (getProp "selectedSettlementSize" j) asNumber ;;
  rs <- bind (getProp "selectedRoadSafe" j) asBool ;;
  prs <- bind (getProp "pendingRoadStartId" j) (asNullable asString) ;;
  sti <- bind (getProp "selectedTowerId" j) (asNullable asString) ;;
  ssi <- bind (getProp "selectedSettlementId" j) (asNullable asString) ;;
  Some (mkAppStateData cm csm c t s r pe bg tt tp ss rs prs sti ssi).

(** [SavedData] and [createSaveData]; [now] is [new Date().toISOString()]. *)
Record SavedData : Type := mkSavedData {
  sv_version : Z;
  sv_coastline : CoastlineData;
  sv_towers : TowerData;
  sv_settlements : SettlementData;
  sv_roads : RoadData;
  savedAt : string
}.

Definition createSaveData (now : string) (c : CoastlineData) (t : TowerData)
    (s : SettlementData) (r : RoadData) : SavedData :=
  mkSavedData 1 c t s r now.

(** [downloadJson]: the file it offers holds [JSON.stringify(data, null, 2)]. *)
Definition downloadJson (data : SavedData) : Json :=
  JObject [("version", JNumber (sv_version data));
           ("coastline", coastlineToJson (sv_coastline data));
           ("towers", towersToJson (sv_towers data));
           ("settlements", settlementsToJson (sv_settlements data));
           ("roads", roadsToJson (sv_roads data));
           ("savedAt", JString (savedAt data))].

(** The save button: [createSaveData] on the four collections of the
    current state, then [downloadJson]. *)
Definition saveOf (now : string) (st : AppState) : Json :=
  downloadJson
    (createSaveData now (coastline (getState st)) (towers (getState st))
       (settlements (getState st)) (roads (getState st))).

(** What [fetch(DATA_PATH)] and [response.json()] come to. *)
Inductive FetchResult : Type :=
| FetchRejected
| ResponseNotOk
| BodyNotJson
| BodyJson (data : Json).

(** [loadFromDataFolder]; [None] is the [null] it returns.  On a body
    that is [null], reading [data.savedAt] for the log throws, which the
    [catch] turns into [null]. *)
Definition loadFromDataFolder (r : FetchResult) : option Json :=
  match r with
  | BodyJson JNull => None
  | BodyJson data => Some data
  | FetchRejected | ResponseNotOk | BodyNotJson => None
  end.

(** The start of [init]: what [loadFromDataFolder] returned is dispatched
    as [LOAD_STATE] over the current state.  The result is [None] when the
    file holds a value that is none of the type the store expects. *)
Definition initLoad (fresh : string) (savedData : option Json) (st : AppState)
  : option AppState :=
  match savedData with
  | Some data =>
      if jsTruthy data then
        c <- bind (getProp "coastline" data) asCoastlineData ;;
        t <- asTowerData
               (orDefault (getProp "towers" data)
                  (JObject [("towers", JArray [])])) ;;
        s <- asSettlementData
               (orDefault (getProp "settlements" data)
                  (JObject [("settlements", JArray [])])) ;;
        r <- asRoadData
               (orDefault (getProp "roads" data)
                  (JObject [("roads", JArray [])])) ;;
        Some (dispatch fresh
                (LOAD_STATE
                   (with_roads r
                      (with_settlements s
                         (with_towers t (with_coastline c (getState st))))))
                st)
      else Some st
  | None => Some st
  end.

(** The state [s'] has every field other than the coastline, the towers,
    the settlements and the roads as [s] has it. *)
Definition sameSettings (s s' : AppStateData) : Prop :=
  currentMode s' = currentMode s
  /\ coastlineSubMode s' = coastlineSubMode s
  /\ pendingEdit s' = pendingEdit s
  /\ isBackgroundVisible s' = isBackgroundVisible s
  /\ selectedTowerType s' = selectedTowerType s
  /\ selectedTowerPower s' = selectedTowerPower s
  /\ selectedSettlementSize s' = selectedSettlementSize s
  /\ selectedRoadSafe s' = selectedRoadSafe s
  /\ pendingRoadStartId s' = pendingRoadStartId s
  /\ selectedTowerId s' = selectedTowerId s
  /\ selectedSettlementId s' = selectedSettlementId s.

(** A file written before towers existed, a version and a coastline, and
    a store that holds a tower. *)
Definition coastlineOnlyFile : Json :=
  JObject [("version", JNumber 1);
           ("coastline", coastlineToJson (mkCoastline boundary3 true))].

Definition towerStore : AppState :=
  dispatch "t7w2r5e1q" (ADD_TOWER 1 2) onePointStore.

(** ** Notions used in the further statements *)

(** The actions of the coastline engine, and the bulk load. *)
Definition isCoastlineAction (a : Action) : bool :=
  match a with
  | ADD_POINT _ _ | CLOSE_COASTLINE | SET_PENDING_EDIT _ | COMMIT_EDIT
  | CANCEL_EDIT | REMOVE_POINT _ | MOVE_POINT _ _ _ => true
  | _ => false
  end.

Definition isLoadState (a : Action) : bool :=
  match a with
  | LOAD_STATE _ => true
  | _ => false
  end.

(** The vertices strictly between the indices [s] and [e], for [s < e]. *)
Definition between {A : Type} (s e : Z) (l : list A) : list A :=
  firstn (Z.to_nat (e - s - 1)) (skipn (Z.to_nat (s + 1)) l).

(** A property of snapshots that holds of the current state and of every
    entry of the history. *)
Definition storeAll (P : AppStateData -> Prop) (st : AppState) : Prop :=
  P (state st) /\ Forall P (history st).

(** A closed coastline has at least three vertices. *)
Definition closedHasThree (s : AppStateData) : Prop :=
  isClosed (coastline s) = true ->
  (3 <= List.length (points (coastline s)))%nat.

Definition drawingInv (s : AppStateData) : Prop :=
  closedHasThree s /\ editWellFormed s /\ coastlineSubMode s <> sub_remove.

(** The event does not select the remove sub-mode. *)
Definition noRemoveEv (ev : UiEvent) : Prop :=
  match ev with
  | SubModeRadio _ value => value <> sub_remove
  | _ => True
  end.

(** The dispatches the coastline handlers and controls make, with the
    condition under which they make them; [rm] tells whether the remove
    sub-mode is in play. *)
Definition allowed (rm : bool) (s : AppStateData) (a : Action) : Prop :=
  match a with
  | SET_PENDING_EDIT (Some pe) =>
      pe_type pe = EditReplace /\ startAnchorId pe <> None
      /\ isClosed (coastline s) = true
  | CANCEL_EDIT | COMMIT_EDIT | MOVE_POINT _ _ _ => True
  | SET_COASTLINE_SUBMODE m => rm = true \/ m <> sub_remove
  | REMOVE_POINT _ => rm = true
  | ADD_POINT _ _ => isClosed (coastline s) = false \/ pendingEdit s <> None
  | CLOSE_COASTLINE => (3 <= List.length (points (coastline s)))%nat
  | _ => False
  end.

Inductive uiReach (rm : bool) : AppState -> AppState -> Prop :=
| reach_here (st : AppState) : uiReach rm st st
| reach_dispatch (st st' : AppState) (fresh : string) (a : Action) :
    allowed rm (state st) a ->
    uiReach rm (dispatch fresh a st) st' ->
    uiReach rm st st'
| reach_undo (st st' : AppState) :
    uiReach rm (snd (undo st)) st' ->
    uiReach rm st st'.

(** * Properties *)

(** ** Arrays *)

Lemma pop_snoc {A : Type} (l : list A) (z : A) : pop (l ++ [z]) = Some (l, z).
Proof.
  induction l as [|a l IH]; simpl.
  - reflexivity.
  - rewrite IH. reflexivity.
Qed.

Lemma pop_nil_inv {A : Type} (l : list A) : pop l = None -> l = [].
Proof.
  destruct l as [|a l]; simpl; [reflexivity|].
  destruct (pop l) as [[t z]|]; discriminate.
Qed.

Lemma pop_some_inv {A : Type} (l h : list A) (z : A) :
  pop l = Some (h, z) -> l = h ++ [z].
Proof.
  revert h. induction l as [|a l IH]; intros h E; simpl in E.
  - discriminate.
  - destruct (pop l) as [[t y]|] eqn:El.
    + injection E as <- <-. simpl. f_equal. apply IH. reflexivity.
    + injection E as <- <-. apply pop_nil_inv in El. subst. reflexivity.
Qed.

Lemma findIndex_range {A : Type} (f : A -> bool) (l : list A) :
  findIndex f l = -1 \/ 0 <= findIndex f l < Z.of_nat (List.length l).
Proof.
  induction l as [|a l IH]; simpl List.length; simpl findIndex.
  - left. reflexivity.
  - destruct (f a).
    + right. lia.
    + destruct (Z.eqb_spec (findIndex f l) (-1)) as [E|E].
      * left. reflexivity.
      * right. lia.
Qed.

(** The element [findIndex] points at satisfies the predicate, and no
    earlier one does. *)
Lemma findIndex_nth {A : Type} (f : A -> bool) (l : list A) :
  findIndex f l <> -1 ->
  exists a, nth_error l (Z.to_nat (findIndex f l)) = Some a /\ f a = true.
Proof.
  induction l as [|a l IH]; simpl findIndex.
  - intros H. contradiction H. reflexivity.
  - destruct (f a) eqn:Fa.
    + intros _. exists a. split; [reflexivity | exact Fa].
    + destruct (Z.eqb_spec (findIndex f l) (-1)) as [E|E].
      * intros H. contradiction H. reflexivity.
      * intros _. destruct (IH E) as [b [Hn Hb]].
        exists b. split; [|exact Hb].
        destruct (findIndex_range f l) as [R|R]; [contradiction|].
        replace (Z.to_nat (findIndex f l + 1))
          with (S (Z.to_nat (findIndex f l))) by lia.
        exact Hn.
Qed.

Lemma findIndex_none {A : Type} (f : A -> bool) (l : list A) :
  findIndex f l = -1 <-> forall a, In a l -> f a = false.
Proof.
  induction l as [|a l IH]; simpl findIndex.
  - split; [intros _ b [] | reflexivity].
  - destruct (f a) eqn:Fa.
    + split; [discriminate|].
      intros H. rewrite (H a (or_introl eq_refl)) in Fa. discriminate.
    + destruct (Z.eqb_spec (findIndex f l) (-1)) as [E|E].
      * split; [|reflexivity].
        intros _ b [<-|Hb]; [exact Fa | apply IH; assumption].
      * split.
        -- destruct (findIndex_range f l) as [R|R]; [contradiction|lia].
        -- intros H. exfalso. apply E. apply IH.
           intros b Hb. apply H. right. exact Hb.
Qed.

(** ** The two walks of the shortest-arc computation *)

Lemma stepCW_val (n i : Z) :
  0 <= i < n -> stepCW n i = if i + 1 <? n then i + 1 else 0.
Proof.
  intros H. unfold stepCW.
  destruct (Z.ltb_spec (i + 1) n) as [L|L].
  - apply Z.rem_small. lia.
  - replace (i + 1) with n by lia. apply Z.rem_same. lia.
Qed.

Lemma stepCCW_val (n i : Z) :
  0 <= i < n -> stepCCW n i = if 0 <? i then i - 1 else n - 1.
Proof.
  intros H. unfold stepCCW.
  destruct (Z.ltb_spec 0 i) as [L|L].
  - symmetry. apply Z.rem_unique with (q := 1); lia.
  - replace (i - 1 + n) with (n - 1) by lia. apply Z.rem_small. lia.
Qed.

Lemma stepCW_range (n i : Z) : 0 <= i < n -> 0 <= stepCW n i < n.
Proof.
  intros H. rewrite stepCW_val by exact H.
  destruct (Z.ltb_spec (i + 1) n); lia.
Qed.

Lemma stepCCW_range (n i : Z) : 0 <= i < n -> 0 <= stepCCW n i < n.
Proof.
  intros H. rewrite stepCCW_val by exact H.
  destruct (Z.ltb_spec 0 i); lia.
Qed.

Lemma walk_here (next : Z -> Z) (fuel : nat) (e : Z) (path : list Z) :
  walk next fuel e e path = Some path.
Proof. destruct fuel; simpl; rewrite Z.eqb_refl; reflexivity. Qed.

Lemma walk_step (next : Z -> Z) (fuel : nat) (i e : Z) (path : list Z) :
  i <> e ->
  walk next (S fuel) i e path = walk next fuel (next i) e (path ++ [i]).
Proof.
  intros H. simpl. destruct (Z.eqb_spec i e); [contradiction | reflexivity].
Qed.

Section Walks.

(** A cycle of [n] vertices and an end anchor [e] in it. *)
Variables n e : Z.
Hypothesis He : 0 <= e < n.

Lemma forwardFrom_S (i : Z) (d : nat) :
  0 <= i < n ->
  forwardFrom n i (S d) = i :: forwardFrom n (stepCW n i) d.
Proof.
  intros Hi. unfold forwardFrom. simpl seq. rewrite <- seq_shift.
  cbn [map]. rewrite map_map. f_equal.
  - rewrite Z.add_0_r. apply Z.rem_small. exact Hi.
  - apply map_ext. intros k. rewrite stepCW_val by exact Hi.
    destruct (Z.ltb_spec (i + 1) n) as [L|L].
    + f_equal. lia.
    + rewrite !Z.rem_mod_nonneg by lia.
      replace (i + Z.of_nat (S k)) with (0 + Z.of_nat k + 1 * n) by lia.
      apply Z_mod_plus_full.
Qed.

Lemma backwardFrom_S (i : Z) (d : nat) :
  0 <= i < n -> (Z.of_nat d < n) ->
  backwardFrom n i (S d) = i :: backwardFrom n (stepCCW n i) d.
Proof.
  intros Hi Hd. unfold backwardFrom. simpl seq. rewrite <- seq_shift.
  cbn [map]. rewrite map_map. f_equal.
  - rewrite Z.rem_mod_nonneg by lia.
    replace (i - Z.of_nat 0 + n) with (i + 1 * n) by lia.
    rewrite Z_mod_plus_full. apply Z.mod_small. exact Hi.
  - apply map_ext_in. intros k Hk. apply in_seq in Hk.
    rewrite stepCCW_val by exact Hi.
    destruct (Z.ltb_spec 0 i) as [L|L].
    + f_equal. lia.
    + rewrite !Z.rem_mod_nonneg by lia.
      replace (n - 1 - Z.of_nat k + n)
        with (i - Z.of_nat (S k) + n + 1 * n) by lia.
      symmetry. apply Z_mod_plus_full.
Qed.

(** With fuel for [distCW n i e] iterations the forward loop exits, having
    pushed the indices from [i] on, up to [e] excluded. *)
Lemma walkCW_spec :
  forall (d fuel : nat) (i : Z) (path : list Z),
    0 <= i < n -> distCW n i e = Z.of_nat d -> (d <= fuel)%nat ->
    walk (stepCW n) fuel i e path = Some (path ++ forwardFrom n i d).
Proof.
  induction d as [|d IH]; intros fuel i path Hi Hd Hf.
  - assert (i = e) as ->.
    { unfold distCW in Hd. case_cmp; lia. }
    rewrite walk_here. unfold forwardFrom. simpl.
    rewrite app_nil_r. reflexivity.
  - destruct fuel as [|fuel]; [lia|].
    assert (i <> e) as Hne.
    { unfold distCW in Hd. case_cmp; lia. }
    rewrite walk_step by exact Hne.
    rewrite (IH fuel (stepCW n i) (path ++ [i])).
    + rewrite forwardFrom_S by exact Hi.
      rewrite <- app_assoc. reflexivity.
    + apply stepCW_range. exact Hi.
    + rewrite stepCW_val by exact Hi. unfold distCW in *.
      case_cmp; lia.
    + lia.
Qed.

Lemma walkCCW_spec :
  forall (d fuel : nat) (i : Z) (path : list Z),
    0 <= i < n -> distCCW n i e = Z.of_nat d -> (d <= fuel)%nat ->
    walk (stepCCW n) fuel i e path = Some (path ++ backwardFrom n i d).
Proof.
  induction d as [|d IH]; intros fuel i path Hi Hd Hf.
  - assert (i = e) as ->.
    { unfold distCCW in Hd. case_cmp; lia. }
    rewrite walk_here. unfold backwardFrom. simpl.
    rewrite app_nil_r. reflexivity.
  - destruct fuel as [|fuel]; [lia|].
    assert (i <> e) as Hne.
    { unfold distCCW in Hd. case_cmp; lia. }
    rewrite walk_step by exact Hne.
    rewrite (IH fuel (stepCCW n i) (path ++ [i])).
    + rewrite backwardFrom_S.
      * rewrite <- app_assoc. reflexivity.
      * exact Hi.
      * unfold distCCW in Hd. case_cmp; lia.
    + apply stepCCW_range. exact Hi.
    + rewrite stepCCW_val by exact Hi. unfold distCCW in *.
      case_cmp; lia.
    + lia.
Qed.

Lemma length_forwardFrom (i : Z) (d : nat) :
  List.length (forwardFrom n i d) = d.
Proof. unfold forwardFrom. rewrite length_map, length_seq. reflexivity. Qed.

Lemma length_backwardFrom (i : Z) (d : nat) :
  List.length (backwardFrom n i d) = d.
Proof. unfold backwardFrom. rewrite length_map, length_seq. reflexivity. Qed.

(** The fuel [n] the reducer gives the loops is enough whenever the start
    anchor is in range too: the forward walk visits the
    [distCW n (s + 1) e] indices after [s], the backward walk the
    [distCCW n (s - 1) e] indices before it. *)
Lemma pathCW_elements (s : Z) :
  0 <= s < n ->
  pathCW n s e
  = Some (forwardFrom n (stepCW n s)
            (Z.to_nat (distCW n (stepCW n s) e))).
Proof.
  intros Hs. unfold pathCW.
  pose proof (stepCW_range n s Hs) as Hr.
  assert (0 <= distCW n (stepCW n s) e < n) as Hd.
  { unfold distCW. case_cmp; lia. }
  rewrite (walkCW_spec (Z.to_nat (distCW n (stepCW n s) e))) by lia.
  reflexivity.
Qed.

Lemma pathCCW_elements (s : Z) :
  0 <= s < n ->
  pathCCW n s e
  = Some (backwardFrom n (stepCCW n s)
            (Z.to_nat (distCCW n (stepCCW n s) e))).
Proof.
  intros Hs. unfold pathCCW.
  pose proof (stepCCW_range n s Hs) as Hr.
  assert (0 <= distCCW n (stepCCW n s) e < n) as Hd.
  { unfold distCCW. case_cmp; lia. }
  rewrite (walkCCW_spec (Z.to_nat (distCCW n (stepCCW n s) e))) by lia.
  reflexivity.
Qed.

(** A walk of fewer steps than the distance to [e] does not visit [e]. *)
Lemma forwardFrom_avoids (i : Z) (d : nat) :
  0 <= i < n -> Z.of_nat d <= distCW n i e ->
  ~ In e (forwardFrom n i d).
Proof.
  intros Hi Hd Hin. unfold forwardFrom in Hin.
  apply in_map_iff in Hin. destruct Hin as [k [Hk Hin]].
  apply in_seq in Hin. rewrite Z.rem_mod_nonneg in Hk by lia.
  unfold distCW in Hd.
  destruct (Z.leb_spec i e) as [C|C];
    destruct (Z.ltb_spec (i + Z.of_nat k) n) as [L|L].
  - rewrite Z.mod_small in Hk by lia. lia.
  - lia.
  - rewrite Z.mod_small in Hk by lia. lia.
  - replace (i + Z.of_nat k) with (i + Z.of_nat k - n + 1 * n) in Hk by lia.
    rewrite Z_mod_plus_full, Z.mod_small in Hk by lia. lia.
Qed.

Lemma backwardFrom_avoids (i : Z) (d : nat) :
  0 <= i < n -> Z.of_nat d <= distCCW n i e ->
  ~ In e (backwardFrom n i d).
Proof.
  intros Hi Hd Hin. unfold backwardFrom in Hin.
  apply in_map_iff in Hin. destruct Hin as [k [Hk Hin]].
  apply in_seq in Hin.
  unfold distCCW in Hd.
  destruct (Z.leb_spec e i) as [C|C];
    destruct (Z.ltb_spec (i - Z.of_nat k) 0) as [L|L];
    try (rewrite Z.rem_mod_nonneg in Hk by lia).
  - lia.
  - replace (i - Z.of_nat k + n) with (i - Z.of_nat k + 1 * n) in Hk by lia.
    rewrite Z_mod_plus_full, Z.mod_small in Hk by lia. lia.
  - rewrite Z.mod_small in Hk by lia. lia.
  - replace (i - Z.of_nat k + n) with (i - Z.of_nat k + 1 * n) in Hk by lia.
    rewrite Z_mod_plus_full, Z.mod_small in Hk by lia. lia.
Qed.

End Walks.

Lemma pathCW_total (n s e : Z) :
  0 <= s < n -> 0 <= e < n ->
  exists cw, pathCW n s e = Some cw
             /\ Z.of_nat (List.length cw) = distCW n (stepCW n s) e.
Proof.
  intros Hs He. rewrite (pathCW_elements n e He s Hs).
  eexists. split; [reflexivity|].
  rewrite length_forwardFrom.
  pose proof (stepCW_range n s Hs). unfold distCW. case_cmp; lia.
Qed.

Lemma pathCCW_total (n s e : Z) :
  0 <= s < n -> 0 <= e < n ->
  exists ccw, pathCCW n s e = Some ccw
              /\ Z.of_nat (List.length ccw) = distCCW n (stepCCW n s) e.
Proof.
  intros Hs He. rewrite (pathCCW_elements n e He s Hs).
  eexists. split; [reflexivity|].
  rewrite length_backwardFrom.
  pose proof (stepCCW_range n s Hs). unfold distCCW. case_cmp; lia.
Qed.

(** Both loops of [commitReplace] and of [findReplacedPointIds] exit: the
    out-of-fuel branch is dead code. *)
Lemma commit_walks_total (pts : list Point) (f g : Point -> bool) :
  findIndex f pts <> -1 -> findIndex g pts <> -1 ->
  exists cw ccw,
    pathCW (Z.of_nat (List.length pts)) (findIndex f pts) (findIndex g pts)
      = Some cw
    /\ pathCCW (Z.of_nat (List.length pts)) (findIndex f pts) (findIndex g pts)
      = Some ccw.
Proof.
  intros Hf Hg.
  destruct (findIndex_range f pts) as [?|Rf]; [contradiction|].
  destruct (findIndex_range g pts) as [?|Rg]; [contradiction|].
  destruct (pathCW_total _ _ _ Rf Rg) as [cw [Hcw _]].
  destruct (pathCCW_total _ _ _ Rf Rg) as [ccw [Hccw _]].
  exists cw, ccw. split; assumption.
Qed.

(** What the replacement branch computes once both anchors resolve. *)
Lemma commitReplace_resolved (st : AppStateData) (pe : PendingEdit)
    (startId endId : string) :
  let pts := points (coastline st) in
  let s := findIndex (fun p => String.eqb (pt_id p) startId) pts in
  let e := findIndex (fun p => String.eqb (pt_id p) endId) pts in
  s <> -1 -> e <> -1 ->
  exists cw ccw,
    pathCW (Z.of_nat (List.length pts)) s e = Some cw
    /\ pathCCW (Z.of_nat (List.length pts)) s e = Some ccw
    /\ commitReplace st pe startId endId
       = with_pendingEdit None
           (with_coastline
              (with_points (splice pts (pe_points pe) s e (useCW cw ccw))
                 (coastline st))
              st).
Proof.
  intros pts s e Hs He.
  destruct (commit_walks_total pts _ _ Hs He) as [cw [ccw [Hcw Hccw]]].
  exists cw, ccw. split; [exact Hcw|]. split; [exact Hccw|].
  unfold commitReplace. cbv zeta. fold pts. fold s. fold e.
  fold s e in Hcw, Hccw.
  destruct (Z.eqb_spec s (-1)); [contradiction|].
  destruct (Z.eqb_spec e (-1)); [contradiction|].
  cbn [orb]. rewrite Hcw, Hccw. reflexivity.
Qed.

(** C2.  In a cycle of [n >= 3] vertices and for two distinct anchor
    indices [s] and [e], the forward walk [pathCW] and the backward walk
    [pathCCW] both exit; [pathCW] is the run of indices from [(s + 1) % n]
    on going up around the cycle and [pathCCW] the run from
    [(s - 1 + n) % n] on going down, neither reaching [e]; their lengths
    add up to [n - 2]; and [useCW], the flag the engine branches on, holds
    exactly when [pathCW] is not longer than [pathCCW] (a tie selects the
    forward walk): on every boundary of [n] vertices whose anchors resolve
    to [s] and [e], the arc [findReplacedPointIds] returns is [pathCW]
    under that condition and [pathCCW] otherwise, and [COMMIT_EDIT]
    splices in the same direction. *)
Theorem shortest_arc_lengths (n s e : Z) :
  3 <= n -> 0 <= s < n -> 0 <= e < n -> s <> e ->
  exists cw ccw,
    pathCW n s e = Some cw
    /\ pathCCW n s e = Some ccw
    /\ cw = forwardFrom n (Z.rem (s + 1) n) (List.length cw)
    /\ ccw = backwardFrom n (Z.rem (s - 1 + n) n) (List.length ccw)
    /\ ~ In e cw /\ ~ In e ccw
    /\ Z.of_nat (List.length cw) + Z.of_nat (List.length ccw) = n - 2
    /\ (useCW cw ccw = true <-> (List.length cw <= List.length ccw)%nat)
    /\ forall (pts : list Point) (startId endId : string),
         Z.of_nat (List.length pts) = n ->
         findIndex (fun p => String.eqb (pt_id p) startId) pts = s ->
         findIndex (fun p => String.eqb (pt_id p) endId) pts = e ->
         findReplacedPointIds pts startId endId
         = map (idAt pts) (if useCW cw ccw then cw else ccw)
         /\ forall (st : AppStateData) (pe : PendingEdit),
             points (coastline st) = pts ->
             points (coastline (commitReplace st pe startId endId))
             = splice pts (pe_points pe) s e (useCW cw ccw).
Proof.
  intros Hn Hs He Hne.
  pose proof (pathCW_elements n e He s Hs) as Hcw.
  pose proof (pathCCW_elements n e He s Hs) as Hccw.
  pose proof (stepCW_range n s Hs) as Rcw.
  pose proof (stepCCW_range n s Hs) as Rccw.
  assert (0 <= distCW n (stepCW n s) e < n) as Dcw
    by (unfold distCW; case_cmp; lia).
  assert (0 <= distCCW n (stepCCW n s) e < n) as Dccw
    by (unfold distCCW; case_cmp; lia).
  remember (Z.to_nat (distCW n (stepCW n s) e)) as dcw eqn:Edcw.
  remember (Z.to_nat (distCCW n (stepCCW n s) e)) as dccw eqn:Edccw.
  exists (forwardFrom n (stepCW n s) dcw), (backwardFrom n (stepCCW n s) dccw).
  rewrite length_forwardFrom, length_backwardFrom.
  split; [exact Hcw|]. split; [exact Hccw|].
  split; [reflexivity|]. split; [reflexivity|].
  split; [|split; [|split; [|split]]].
  - apply (forwardFrom_avoids n e He); [exact Rcw | lia].
  - apply (backwardFrom_avoids n e He); [exact Rccw | lia].
  - subst dcw dccw. revert Dcw Dccw.
    rewrite stepCW_val, stepCCW_val by exact Hs.
    unfold distCW, distCCW. case_cmp; lia.
  - unfold useCW. rewrite length_forwardFrom, length_backwardFrom.
    apply Nat.leb_le.
  - intros pts startId endId Hlen Hsi Hei.
    assert ((s =? -1) || (e =? -1) = false) as Hfound.
    { destruct (Z.eqb_spec s (-1)); [lia|].
      destruct (Z.eqb_spec e (-1)); [lia|]. reflexivity. }
    split.
    + unfold findReplacedPointIds. cbv zeta.
      rewrite Hlen, Hsi, Hei, Hfound, Hcw, Hccw.
      match goal with |- context [useCW ?a ?b] => destruct (useCW a b) end;
        reflexivity.
    + intros st pe Hpts. unfold commitReplace. cbv zeta.
      rewrite Hpts, Hlen, Hsi, Hei, Hfound, Hcw, Hccw. reflexivity.
Qed.

Lemma shortest_arc_lengths_witness :
  exists cw ccw,
    pathCW 5 0 2 = Some cw
    /\ pathCCW 5 0 2 = Some ccw
    /\ cw = forwardFrom 5 (Z.rem (0 + 1) 5) (List.length cw)
    /\ ccw = backwardFrom 5 (Z.rem (0 - 1 + 5) 5) (List.length ccw)
    /\ ~ In 2 cw /\ ~ In 2 ccw
    /\ Z.of_nat (List.length cw) + Z.of_nat (List.length ccw) = 5 - 2
    /\ (useCW cw ccw = true <-> (List.length cw <= List.length ccw)%nat)
    /\ forall (pts : list Point) (startId endId : string),
         Z.of_nat (List.length pts) = 5 ->
         findIndex (fun p => String.eqb (pt_id p) startId) pts = 0 ->
         findIndex (fun p => String.eqb (pt_id p) endId) pts = 2 ->
         findReplacedPointIds pts startId endId
         = map (idAt pts) (if useCW cw ccw then cw else ccw)
         /\ forall (st : AppStateData) (pe : PendingEdit),
             points (coastline st) = pts ->
             points (coastline (commitReplace st pe startId endId))
             = splice pts (pe_points pe) 0 2 (useCW cw ccw).
Proof. apply (shortest_arc_lengths 5 0 2); lia. Defined.

(** ** Sample boundaries *)

(** The worked examples of the specification: anchors [A] and [C] with
    draft [X, Y], and the adjacent anchors [A] and [B] with draft [Z]. *)
Example commit_A_C :
  boundaryIds
    (reduce "" (closedState boundaryABCDE
                  (Some (replaceEdit "A" "C" [vertex "X"; vertex "Y"])))
       COMMIT_EDIT)
  = ["A"; "X"; "Y"; "C"; "D"; "E"].
Proof. reflexivity. Qed.

Example commit_A_B :
  boundaryIds
    (reduce "" (closedState boundaryABCDE
                  (Some (replaceEdit "A" "B" [vertex "Z"])))
       COMMIT_EDIT)
  = ["A"; "Z"; "B"; "C"; "D"; "E"].
Proof. reflexivity. Qed.

(** A backward arc that does not cross the end of the array: anchors [D]
    and [B] replace [C], the draft going in reversed. *)
Example commit_D_B :
  boundaryIds
    (reduce "" (closedState boundaryABCDE
                  (Some (replaceEdit "D" "B" [vertex "X"; vertex "Y"])))
       COMMIT_EDIT)
  = ["A"; "B"; "Y"; "X"; "D"; "E"].
Proof. reflexivity. Qed.

Example replaced_D_A : findReplacedPointIds boundaryABCDE "D" "A" = ["E"].
Proof. reflexivity. Qed.

(** ** The splice of [COMMIT_EDIT] *)

(** Length of the array the splice builds, for in-range anchors: the
    forward branch copies the [s + 1] leading and the [n - e] trailing
    vertices whatever the order of [s] and [e], the backward branch the
    [e + 1] leading and the [n - s] trailing ones. *)
Lemma splice_length (pts draft : list Point) (s e : Z) (cw : bool) :
  0 <= s < Z.of_nat (List.length pts) ->
  0 <= e < Z.of_nat (List.length pts) ->
  Z.of_nat (List.length (splice pts draft s e cw))
  = Z.of_nat (List.length draft) + Z.of_nat (List.length pts)
    + (if cw then s + 1 - e else e + 1 - s).
Proof.
  intros Hs He. unfold splice, upThrough, fromIndex.
  destruct cw;
    rewrite !length_app, ?length_rev, length_firstn, length_skipn; lia.
Qed.

(** When the forward arc is chosen and does not cross the end of the array
    ([s < e]), the committed boundary has the length the specification
    gives, [n - len(pathCW) + len(draft)]. *)
Lemma splice_length_forward (pts draft : list Point) (s e : Z) :
  0 <= s -> s < e -> e < Z.of_nat (List.length pts) ->
  exists cw,
    pathCW (Z.of_nat (List.length pts)) s e = Some cw
    /\ Z.of_nat (List.length (splice pts draft s e true))
       = Z.of_nat (List.length pts) - Z.of_nat (List.length cw)
         + Z.of_nat (List.length draft).
Proof.
  intros H0 Hse He.
  destruct (pathCW_total (Z.of_nat (List.length pts)) s e) as [cw [Hcw L]];
    [lia | lia |].
  exists cw. split; [exact Hcw|].
  rewrite splice_length by lia. rewrite L.
  rewrite stepCW_val by lia. unfold distCW. case_cmp; lia.
Qed.

(** The same for a backward arc that does not cross the end of the array
    ([e < s]). *)
Lemma splice_length_backward (pts draft : list Point) (s e : Z) :
  0 <= e -> e < s -> s < Z.of_nat (List.length pts) ->
  exists ccw,
    pathCCW (Z.of_nat (List.length pts)) s e = Some ccw
    /\ Z.of_nat (List.length (splice pts draft s e false))
       = Z.of_nat (List.length pts) - Z.of_nat (List.length ccw)
         + Z.of_nat (List.length draft).
Proof.
  intros H0 Hes Hs.
  destruct (pathCCW_total (Z.of_nat (List.length pts)) s e) as [ccw [Hccw L]];
    [lia | lia |].
  exists ccw. split; [exact Hccw|].
  rewrite splice_length by lia. rewrite L.
  rewrite stepCCW_val by lia. unfold distCCW. case_cmp; lia.
Qed.

(** When it does cross the end of the array ([e < s]), the forward branch
    skips nothing: the result is longer than the boundary it started from
    by the draft and by [s + 1 - e] repeated vertices. *)
Lemma splice_length_wrapped (pts draft : list Point) (s e : Z) :
  0 <= e -> e < s -> s < Z.of_nat (List.length pts) ->
  Z.of_nat (List.length (splice pts draft s e true))
  > Z.of_nat (List.length pts) + Z.of_nat (List.length draft).
Proof.
  intros H0 Hes Hs. rewrite splice_length by lia. lia.
Qed.

(** C1.  The splice at a forward arc that crosses the end of the array.  On
    the closed boundary [A, B, C, D, E] with start anchor [D], end anchor
    [A] and draft [X, Y], the forward walk is [E] (one vertex) and the
    backward walk is [C, B], so the forward arc is chosen and
    [findReplacedPointIds] announces [E] as replaced; [COMMIT_EDIT] then
    yields [A, B, C, D, X, Y, A, B, C, D, E]: eleven vertices instead of
    [5 - 1 + 2 = 6], [E] still present and [A] to [D] twice. *)
Theorem commit_wraparound_duplicates :
  pathCW 5 3 0 = Some [4]
  /\ pathCCW 5 3 0 = Some [2; 1]
  /\ findReplacedPointIds boundaryABCDE "D" "A" = ["E"]
  /\ boundaryIds (reduce "" editingDA COMMIT_EDIT)
     = ["A"; "B"; "C"; "D"; "X"; "Y"; "A"; "B"; "C"; "D"; "E"]
  /\ List.length (points (coastline (reduce "" editingDA COMMIT_EDIT)))
     <> (5 - 1 + 2)%nat.
Proof.
  repeat split; try reflexivity.
  vm_compute. discriminate.
Qed.

(** The same slip on the backward branch: anchors [A] and [D] choose the
    backward arc [E], and the commit keeps [E] and repeats [A] to [D]. *)
Example commit_A_D :
  boundaryIds
    (reduce "" (closedState boundaryABCDE
                  (Some (replaceEdit "A" "D" [vertex "X"; vertex "Y"])))
       COMMIT_EDIT)
  = ["A"; "B"; "C"; "D"; "Y"; "X"; "A"; "B"; "C"; "D"; "E"].
Proof. reflexivity. Qed.

(** ** [REMOVE_POINT] *)

Lemma filter_all {A : Type} (f : A -> bool) (l : list A) :
  (forall a, In a l -> f a = true) -> filter f l = l.
Proof.
  induction l as [|a l IH]; intros H; simpl.
  - reflexivity.
  - rewrite (H a (or_introl eq_refl)). f_equal.
    apply IH. intros b Hb. apply H. right. exact Hb.
Qed.

(** Filtering out an id that one vertex carries removes that vertex and
    nothing else. *)
Lemma filter_unique_id (l : list Point) (i : string) :
  NoDup (map pt_id l) -> In i (map pt_id l) ->
  exists before p after,
    l = before ++ p :: after
    /\ pt_id p = i
    /\ filter (fun p => negb (String.eqb (pt_id p) i)) l = before ++ after.
Proof.
  induction l as [|a l IH]; intros Hnd Hin.
  - destruct Hin.
  - simpl in Hnd. inversion Hnd as [|? ? Hnotin Hnd']; subst.
    simpl filter. destruct (String.eqb_spec (pt_id a) i) as [E|E].
    + exists [], a, l. repeat split; [exact E|].
      simpl. apply filter_all. intros b Hb.
      destruct (String.eqb_spec (pt_id b) i) as [E'|E']; [|reflexivity].
      exfalso. apply Hnotin. rewrite E, <- E'. apply in_map. exact Hb.
    + destruct Hin as [Hin|Hin]; [contradiction|].
      destruct (IH Hnd' Hin) as [before [p [after [Hl [Hp Hf]]]]].
      exists (a :: before), p, after. repeat split.
      * rewrite Hl. reflexivity.
      * exact Hp.
      * simpl. rewrite Hf. reflexivity.
Qed.

(** C3, as stated, fails on the reducer: on a boundary of three vertices
    [REMOVE_POINT] removes the vertex. *)
Lemma remove_point_at_three :
  List.length (points (coastline (closedState boundary3 None))) = 3%nat
  /\ boundaryIds (reduce "" (closedState boundary3 None) (REMOVE_POINT "A"))
     = ["B"; "C"]
  /\ coastline (reduce "" (closedState boundary3 None) (REMOVE_POINT "A"))
     <> coastline (closedState boundary3 None).
Proof.
  repeat split. vm_compute. discriminate.
Qed.

(** C3, amended.  The reducer has no size guard: on a boundary whose ids
    are pairwise distinct and that contains the id, [REMOVE_POINT] removes
    that vertex, keeps every other vertex in order and leaves the rest of
    the state alone, so the length drops by exactly one, whatever the size
    of the boundary.  The rejection at three or fewer vertices is the
    caller's: [handleRemoveModeClick] then dispatches nothing and the store
    is unchanged; above three vertices it dispatches [REMOVE_POINT]. *)
Theorem remove_point_reducer_and_gate :
  (forall (fresh : string) (s : AppStateData) (pointId : string),
      NoDup (boundaryIds s) -> In pointId (boundaryIds s) ->
      exists before p after,
        points (coastline s) = before ++ p :: after
        /\ pt_id p = pointId
        /\ reduce fresh s (REMOVE_POINT pointId)
           = with_coastline
               (mkCoastline (before ++ after) (isClosed (coastline s))) s
        /\ (List.length
              (points (coastline (reduce fresh s (REMOVE_POINT pointId))))
            + 1 = List.length (points (coastline s)))%nat)
  /\ (forall (fresh : string) (clicked : option Point) (st : AppState),
         (List.length (points (coastline (state st))) <= 3)%nat ->
         handleRemoveModeClick fresh clicked st = st)
  /\ (forall (fresh : string) (p : Point) (st : AppState),
         (3 < List.length (points (coastline (state st))))%nat ->
         handleRemoveModeClick fresh (Some p) st
         = dispatch fresh (REMOVE_POINT (pt_id p)) st).
Proof.
  split; [|split].
  - intros fresh s pointId Hnd Hin.
    destruct (filter_unique_id _ _ Hnd Hin) as [before [p [after [Hl [Hp Hf]]]]].
    exists before, p, after. split; [exact Hl|]. split; [exact Hp|].
    assert (reduce fresh s (REMOVE_POINT pointId)
            = with_coastline
                (mkCoastline (before ++ after) (isClosed (coastline s))) s)
      as Hr.
    { simpl. unfold with_points. rewrite Hf. reflexivity. }
    split; [exact Hr|].
    rewrite Hr, Hl. simpl. rewrite !length_app. simpl. lia.
  - intros fresh clicked st H. unfold handleRemoveModeClick, getState.
    destruct clicked as [p|]; [|reflexivity].
    destruct (Nat.leb_spec (List.length (points (coastline (state st)))) 3);
      [reflexivity | lia].
  - intros fresh p st H. unfold handleRemoveModeClick, getState.
    destruct (Nat.leb_spec (List.length (points (coastline (state st)))) 3);
      [lia | reflexivity].
Qed.

Lemma remove_point_reducer_and_gate_witness :
  (exists before p after,
      points (coastline (closedState boundary3 None)) = before ++ p :: after
      /\ pt_id p = "B"
      /\ reduce "" (closedState boundary3 None) (REMOVE_POINT "B")
         = with_coastline
             (mkCoastline (before ++ after)
                (isClosed (coastline (closedState boundary3 None))))
             (closedState boundary3 None)
      /\ (List.length
            (points
               (coastline
                  (reduce "" (closedState boundary3 None) (REMOVE_POINT "B"))))
          + 1
          = List.length (points (coastline (closedState boundary3 None))))%nat)
  /\ handleRemoveModeClick "" (Some (vertex "B"))
       (newAppState (Some (closedState boundary3 None)))
     = newAppState (Some (closedState boundary3 None))
  /\ handleRemoveModeClick "" (Some (vertex "B"))
       (newAppState (Some (closedState boundary4 None)))
     = dispatch "" (REMOVE_POINT (pt_id (vertex "B")))
         (newAppState (Some (closedState boundary4 None))).
Proof.
  destruct remove_point_reducer_and_gate as [H1 [H2 H3]].
  split; [|split].
  - apply (H1 "" (closedState boundary3 None) "B").
    + repeat constructor; simpl; intuition discriminate.
    + simpl. tauto.
  - apply H2. simpl. lia.
  - apply H3. simpl. lia.
Defined.

(** ** [COMMIT_EDIT]: discarded edits and the draft branch *)

Lemma findIndex_dangling (i : string) (pts : list Point) :
  dangling (Some i) pts ->
  findIndex (fun p => String.eqb (pt_id p) i) pts = -1.
Proof.
  intros H. apply findIndex_none. intros p Hp.
  destruct (String.eqb_spec (pt_id p) i) as [E|E]; [|reflexivity].
  exfalso. apply (H p Hp). rewrite E. reflexivity.
Qed.

(** C4, as stated, fails on an edit of type ['add']: it has no
    [endAnchorId], and committing it changes the boundary. *)
Lemma commit_draft_changes_boundary :
  pendingEdit (openState boundary3 (Some (draftEdit [vertex "X"])))
  = Some (draftEdit [vertex "X"])
  /\ endAnchorId (draftEdit [vertex "X"]) = None
  /\ coastline
       (reduce "" (openState boundary3 (Some (draftEdit [vertex "X"])))
          COMMIT_EDIT)
     <> coastline (openState boundary3 (Some (draftEdit [vertex "X"]))).
Proof.
  repeat split. vm_compute. discriminate.
Qed.

(** C4, amended.  For a pending edit of type ['replace'] that has no
    [endAnchorId] (the field is [undefined], or empty), or whose
    [startAnchorId] or [endAnchorId] matches no vertex of the boundary,
    [COMMIT_EDIT] leaves the boundary (and every other field) unchanged and
    sets the pending edit to [null]. *)
Theorem commit_replace_discarded (fresh : string) (s : AppStateData)
    (pe : PendingEdit) :
  pendingEdit s = Some pe ->
  pe_type pe = EditReplace ->
  truthy (endAnchorId pe) = false
  \/ dangling (startAnchorId pe) (points (coastline s))
  \/ dangling (endAnchorId pe) (points (coastline s)) ->
  reduce fresh s COMMIT_EDIT = with_pendingEdit None s
  /\ coastline (reduce fresh s COMMIT_EDIT) = coastline s
  /\ pendingEdit (reduce fresh s COMMIT_EDIT) = None.
Proof.
  intros Hpe Hty Hcase.
  assert (reduce fresh s COMMIT_EDIT = with_pendingEdit None s) as Hr.
  { simpl. rewrite Hpe, Hty.
    destruct (startAnchorId pe) as [startId|] eqn:Es; [|reflexivity].
    destruct (endAnchorId pe) as [endId|] eqn:Ee; [|reflexivity].
    fold (truthy (Some startId)). fold (truthy (Some endId)).
    destruct (truthy (Some startId)); [|reflexivity].
    destruct (truthy (Some endId)) eqn:Te; [|reflexivity].
    cbn [andb]. unfold commitReplace.
    destruct Hcase as [H|[H|H]].
    - discriminate H.
    - rewrite (findIndex_dangling _ _ H). reflexivity.
    - rewrite (findIndex_dangling _ _ H).
      rewrite orb_true_r. reflexivity. }
  rewrite Hr. repeat split.
Qed.

Lemma commit_replace_discarded_witness :
  reduce ""
    (closedState boundaryABCDE (Some (replaceEdit "A" "Q" [vertex "X"])))
    COMMIT_EDIT
  = with_pendingEdit None
      (closedState boundaryABCDE (Some (replaceEdit "A" "Q" [vertex "X"])))
  /\ coastline
       (reduce ""
          (closedState boundaryABCDE (Some (replaceEdit "A" "Q" [vertex "X"])))
          COMMIT_EDIT)
     = coastline
         (closedState boundaryABCDE (Some (replaceEdit "A" "Q" [vertex "X"])))
  /\ pendingEdit
       (reduce ""
          (closedState boundaryABCDE (Some (replaceEdit "A" "Q" [vertex "X"])))
          COMMIT_EDIT)
     = None.
Proof.
  apply (commit_replace_discarded ""
           (closedState boundaryABCDE (Some (replaceEdit "A" "Q" [vertex "X"])))
           (replaceEdit "A" "Q" [vertex "X"])).
  - reflexivity.
  - reflexivity.
  - right. right. intros p Hp. simpl in Hp.
    repeat (destruct Hp as [<-|Hp]; [discriminate|]). destruct Hp.
Defined.

(** C9.  For a pending edit of type ['add'], [COMMIT_EDIT] appends the
    draft points to the end of the boundary in order, sets [isClosed] to
    [true] whatever the number of vertices, and clears the pending edit;
    no other field changes. *)
Theorem commit_draft_appends (fresh : string) (s : AppStateData)
    (pe : PendingEdit) :
  pendingEdit s = Some pe ->
  pe_type pe = EditAdd ->
  points (coastline (reduce fresh s COMMIT_EDIT))
  = points (coastline s) ++ pe_points pe
  /\ isClosed (coastline (reduce fresh s COMMIT_EDIT)) = true
  /\ pendingEdit (reduce fresh s COMMIT_EDIT) = None
  /\ sameOutsideCoastline s (reduce fresh s COMMIT_EDIT).
Proof.
  intros Hpe Hty. cbn [reduce]. rewrite Hpe, Hty.
  unfold sameOutsideCoastline. cbn. repeat split.
Qed.

Lemma commit_draft_appends_witness :
  points
    (coastline
       (reduce "" (openState [vertex "A"] (Some (draftEdit [vertex "X"])))
          COMMIT_EDIT))
  = points (coastline (openState [vertex "A"] (Some (draftEdit [vertex "X"]))))
    ++ pe_points (draftEdit [vertex "X"])
  /\ isClosed
       (coastline
          (reduce "" (openState [vertex "A"] (Some (draftEdit [vertex "X"])))
             COMMIT_EDIT))
     = true
  /\ pendingEdit
       (reduce "" (openState [vertex "A"] (Some (draftEdit [vertex "X"])))
          COMMIT_EDIT)
     = None
  /\ sameOutsideCoastline
       (openState [vertex "A"] (Some (draftEdit [vertex "X"])))
       (reduce "" (openState [vertex "A"] (Some (draftEdit [vertex "X"])))
          COMMIT_EDIT).
Proof.
  apply (commit_draft_appends ""
           (openState [vertex "A"] (Some (draftEdit [vertex "X"])))
           (draftEdit [vertex "X"])); reflexivity.
Defined.

(** ** [ADD_POINT] *)

(** C7.  On an open boundary [ADD_POINT] appends exactly one vertex, the
    one carrying the payload's coordinates and the id [generateId]
    returned, to the end of the boundary, which stays open; the pending
    edit and every other field stay as they are.  On a closed boundary
    with a pending edit it appends that vertex to the edit's [points],
    keeps the edit's type, anchors and replaced ids, and leaves the
    boundary and every other field as they are. *)
Theorem add_point_open_and_editing (fresh : string) (s : AppStateData)
    (x y : number) :
  (isClosed (coastline s) = false ->
   points (coastline (reduce fresh s (ADD_POINT x y)))
   = points (coastline s) ++ [mkPoint x y fresh]
   /\ isClosed (coastline (reduce fresh s (ADD_POINT x y))) = false
   /\ pendingEdit (reduce fresh s (ADD_POINT x y)) = pendingEdit s
   /\ sameOutsideCoastline s (reduce fresh s (ADD_POINT x y)))
  /\ (forall pe : PendingEdit,
         isClosed (coastline s) = true ->
         pendingEdit s = Some pe ->
         pendingEdit (reduce fresh s (ADD_POINT x y))
         = Some (mkPendingEdit (pe_type pe)
                   (pe_points pe ++ [mkPoint x y fresh])
                   (startAnchorId pe) (endAnchorId pe) (replacedPointIds pe))
         /\ points (coastline (reduce fresh s (ADD_POINT x y)))
            = points (coastline s)
         /\ isClosed (coastline (reduce fresh s (ADD_POINT x y))) = true
         /\ sameOutsideCoastline s (reduce fresh s (ADD_POINT x y))).
Proof.
  split.
  - intros Hopen. cbn [reduce]. rewrite Hopen.
    unfold sameOutsideCoastline. cbn. repeat split. exact Hopen.
  - intros pe Hclosed Hpe. cbn [reduce]. rewrite Hclosed, Hpe.
    unfold sameOutsideCoastline. cbn. repeat split. exact Hclosed.
Qed.

Lemma add_point_open_and_editing_witness :
  (points
     (coastline (reduce "k3x9q0a7m" (openState boundary3 None) (ADD_POINT 4 5)))
   = points (coastline (openState boundary3 None))
     ++ [mkPoint 4 5 "k3x9q0a7m"]
   /\ isClosed
        (coastline
           (reduce "k3x9q0a7m" (openState boundary3 None) (ADD_POINT 4 5)))
      = false
   /\ pendingEdit
        (reduce "k3x9q0a7m" (openState boundary3 None) (ADD_POINT 4 5))
      = pendingEdit (openState boundary3 None)
   /\ sameOutsideCoastline (openState boundary3 None)
        (reduce "k3x9q0a7m" (openState boundary3 None) (ADD_POINT 4 5)))
  /\ pendingEdit
       (reduce "k3x9q0a7m"
          (closedState boundary3 (Some (replaceEdit "A" "C" []))) (ADD_POINT 4 5))
     = Some (mkPendingEdit (pe_type (replaceEdit "A" "C" []))
               (pe_points (replaceEdit "A" "C" [])
                ++ [mkPoint 4 5 "k3x9q0a7m"])
               (startAnchorId (replaceEdit "A" "C" []))
               (endAnchorId (replaceEdit "A" "C" []))
               (replacedPointIds (replaceEdit "A" "C" [])))
  /\ points
       (coastline
          (reduce "k3x9q0a7m"
             (closedState boundary3 (Some (replaceEdit "A" "C" [])))
             (ADD_POINT 4 5)))
     = points (coastline (closedState boundary3 (Some (replaceEdit "A" "C" []))))
  /\ isClosed
       (coastline
          (reduce "k3x9q0a7m"
             (closedState boundary3 (Some (replaceEdit "A" "C" [])))
             (ADD_POINT 4 5)))
     = true
  /\ sameOutsideCoastline
       (closedState boundary3 (Some (replaceEdit "A" "C" [])))
       (reduce "k3x9q0a7m"
          (closedState boundary3 (Some (replaceEdit "A" "C" [])))
          (ADD_POINT 4 5)).
Proof.
  split.
  - apply (add_point_open_and_editing "k3x9q0a7m"
             (openState boundary3 None) 4 5). reflexivity.
  - apply (add_point_open_and_editing "k3x9q0a7m"
             (closedState boundary3 (Some (replaceEdit "A" "C" []))) 4 5);
      reflexivity.
Defined.

(** C8.  On a closed boundary with no pending edit, [ADD_POINT] is not
    rejected: it creates a pending edit of type ['replace'] whose points
    are the new vertex alone and which has no [startAnchorId] (nor
    [endAnchorId]), the boundary staying as it is; and [COMMIT_EDIT] on the
    resulting state discards that edit, giving back the state from before
    the [ADD_POINT]. *)
Theorem add_point_closed_starts_edit (fresh fresh' : string)
    (s : AppStateData) (x y : number) :
  isClosed (coastline s) = true ->
  pendingEdit s = None ->
  pendingEdit (reduce fresh s (ADD_POINT x y))
  = Some (mkPendingEdit EditReplace [mkPoint x y fresh] None None None)
  /\ coastline (reduce fresh s (ADD_POINT x y)) = coastline s
  /\ reduce fresh' (reduce fresh s (ADD_POINT x y)) COMMIT_EDIT = s.
Proof.
  intros Hclosed Hpe. simpl reduce at 1 2 4.
  rewrite Hclosed, Hpe. repeat split.
  destruct s. simpl in *. subst. reflexivity.
Qed.

Lemma add_point_closed_starts_edit_witness :
  pendingEdit (reduce "k3x9q0a7m" (closedState boundary3 None) (ADD_POINT 4 5))
  = Some (mkPendingEdit EditReplace [mkPoint 4 5 "k3x9q0a7m"] None None None)
  /\ coastline
       (reduce "k3x9q0a7m" (closedState boundary3 None) (ADD_POINT 4 5))
     = coastline (closedState boundary3 None)
  /\ reduce "p0o9i8u7y"
       (reduce "k3x9q0a7m" (closedState boundary3 None) (ADD_POINT 4 5))
       COMMIT_EDIT
     = closedState boundary3 None.
Proof.
  apply (add_point_closed_starts_edit "k3x9q0a7m" "p0o9i8u7y"
           (closedState boundary3 None) 4 5); reflexivity.
Defined.

(** ** Determinism of the reducer *)

(** C6, as stated, fails: two runs of [ADD_POINT] from the same state with
    the same payload, in which [generateId] returns two different ids, end
    in different states. *)
Lemma add_point_two_runs_differ :
  reduce "k3x9q0a7m" createInitialState (ADD_POINT 4 5)
  <> reduce "p0o9i8u7y" createInitialState (ADD_POINT 4 5).
Proof. vm_compute. discriminate. Qed.

(** C6, amended.  The result of the reducer is a function of the state,
    the action and the id [generateId] returns: for every action type
    other than [ADD_POINT], [ADD_TOWER], [ADD_SETTLEMENT] and [ADD_ROAD]
    two runs from equal states with equal payloads end in equal states
    whatever [generateId] would return; two runs of [ADD_POINT] end in
    equal states exactly when [generateId] returns the same id in both. *)
Theorem reduce_deterministic_up_to_id :
  (forall (fresh1 fresh2 : string) (s : AppStateData) (a : Action),
      callsGenerateId a = false -> reduce fresh1 s a = reduce fresh2 s a)
  /\ (forall (fresh1 fresh2 : string) (s : AppStateData) (x y : number),
         reduce fresh1 s (ADD_POINT x y) = reduce fresh2 s (ADD_POINT x y)
         <-> fresh1 = fresh2).
Proof.
  split.
  - intros fresh1 fresh2 s a H. destruct a; try discriminate H; reflexivity.
  - intros fresh1 fresh2 s x y. split; [|intros ->; reflexivity].
    simpl. destruct (isClosed (coastline s)).
    + intros H. apply (f_equal pendingEdit) in H. simpl in H.
      injection H as H. apply app_inv_head in H.
      injection H as H. exact H.
    + intros H. apply (f_equal (fun t => points (coastline t))) in H.
      simpl in H. apply app_inv_head in H.
      injection H as H. exact H.
Qed.

Lemma reduce_deterministic_up_to_id_witness :
  reduce "k3x9q0a7m" (closedState boundary4 None) (REMOVE_POINT "B")
  = reduce "p0o9i8u7y" (closedState boundary4 None) (REMOVE_POINT "B")
  /\ (reduce "k3x9q0a7m" createInitialState (ADD_POINT 4 5)
      = reduce "k3x9q0a7m" createInitialState (ADD_POINT 4 5)
      <-> "k3x9q0a7m" = "k3x9q0a7m").
Proof.
  destruct reduce_deterministic_up_to_id as [H1 H2]. split.
  - apply H1. reflexivity.
  - apply H2.
Defined.

(** ** The store: snapshots, history and undo *)

Lemma map_same {A : Type} (f : A -> A) (l : list A) :
  (forall a, f a = a) -> map f l = l.
Proof.
  intros H. induction l as [|a l IH]; simpl; [reflexivity|].
  rewrite H, IH. reflexivity.
Qed.

Lemma map_fixed {A : Type} (f : A -> A) (ok : A -> bool) (l : list A) :
  (forall a, ok a = true -> f a = a) -> forallb ok l = true -> map f l = l.
Proof.
  intros H. induction l as [|a l IH]; simpl; [reflexivity|].
  intros E. apply andb_true_iff in E. destruct E as [Ea El].
  rewrite (H a Ea), (IH El). reflexivity.
Qed.

Lemma forallb_map_all {A : Type} (f : A -> A) (ok : A -> bool) (l : list A) :
  (forall a, ok (f a) = true) -> forallb ok (map f l) = true.
Proof.
  intros H. induction l as [|a l IH]; simpl; [reflexivity|].
  rewrite H, IH. reflexivity.
Qed.

Lemma jsonNumber_exact (v : number) : jsonExact v = true -> jsonNumber v = v.
Proof. destruct v; simpl; intros H; try discriminate; reflexivity. Qed.

Lemma jsonNumber_is_exact (v : number) : jsonExact (jsonNumber v) = true.
Proof. destruct v; reflexivity. Qed.

Lemma clonePoint_exact (p : Point) : exactPoint p = true -> clonePoint p = p.
Proof.
  destruct p as [x y i]. unfold exactPoint, clonePoint. simpl. intros H.
  apply andb_true_iff in H. destruct H as [Hx Hy].
  rewrite (jsonNumber_exact x Hx), (jsonNumber_exact y Hy). reflexivity.
Qed.

Lemma cloneTower_exact (t : Tower) : exactTower t = true -> cloneTower t = t.
Proof.
  destruct t as [i x y ty pw]. unfold exactTower, cloneTower. simpl. intros H.
  apply andb_true_iff in H. destruct H as [H Hp].
  apply andb_true_iff in H. destruct H as [Hx Hy].
  rewrite (jsonNumber_exact x Hx), (jsonNumber_exact y Hy),
    (jsonNumber_exact pw Hp). reflexivity.
Qed.

Lemma cloneSettlement_exact (t : Settlement) :
  exactSettlement t = true -> cloneSettlement t = t.
Proof.
  destruct t as [i x y nm sz]. unfold exactSettlement, cloneSettlement. simpl.
  intros H.
  apply andb_true_iff in H. destruct H as [H Hs].
  apply andb_true_iff in H. destruct H as [Hx Hy].
  rewrite (jsonNumber_exact x Hx), (jsonNumber_exact y Hy),
    (jsonNumber_exact sz Hs). reflexivity.
Qed.

(** The deep copy of a snapshot that holds no [NaN], infinity or [-0] is
    equal, field by field, to the snapshot. *)
Lemma deepClone_stable (s : AppStateData) :
  jsonStable s = true -> deepClone s = s.
Proof.
  destruct s as [cm csm [pts closed] [tws] [sts] [rds] pe bg tt tp ss rs prs sti ssi].
  unfold jsonStable, deepClone. simpl. intros H.
  repeat (apply andb_true_iff in H; destruct H as [H ?]).
  rewrite (map_fixed clonePoint exactPoint) by (auto using clonePoint_exact).
  rewrite (map_fixed cloneTower exactTower) by (auto using cloneTower_exact).
  rewrite (map_fixed cloneSettlement exactSettlement)
    by (auto using cloneSettlement_exact).
  rewrite (map_same cloneRoad) by (intros []; reflexivity).
  rewrite (jsonNumber_exact tp), (jsonNumber_exact ss) by assumption.
  destruct pe as [[ty dpts sa ea rep]|]; simpl; [|reflexivity].
  unfold clonePendingEdit. simpl in *.
  rewrite (map_fixed clonePoint exactPoint) by (auto using clonePoint_exact).
  destruct rep as [ids|]; simpl; [|reflexivity].
  rewrite (map_same (fun i : string => i)) by reflexivity.
  reflexivity.
Qed.

(** Every deep copy is such a snapshot, so copying twice is copying once,
    and the snapshots equal to their copy are exactly these. *)
Lemma deepClone_is_stable (s : AppStateData) : jsonStable (deepClone s) = true.
Proof.
  unfold jsonStable, deepClone. simpl.
  rewrite (forallb_map_all clonePoint exactPoint)
    by (intros p; unfold exactPoint; simpl; rewrite !jsonNumber_is_exact;
        reflexivity).
  rewrite (forallb_map_all cloneTower exactTower)
    by (intros p; unfold exactTower; simpl; rewrite !jsonNumber_is_exact;
        reflexivity).
  rewrite (forallb_map_all cloneSettlement exactSettlement)
    by (intros p; unfold exactSettlement; simpl; rewrite !jsonNumber_is_exact;
        reflexivity).
  rewrite !jsonNumber_is_exact.
  destruct (pendingEdit s) as [pe|]; simpl; [|reflexivity].
  rewrite (forallb_map_all clonePoint exactPoint)
    by (intros p; unfold exactPoint; simpl; rewrite !jsonNumber_is_exact;
        reflexivity).
  reflexivity.
Qed.

Lemma deepClone_idem (s : AppStateData) :
  deepClone (deepClone s) = deepClone s.
Proof. apply deepClone_stable, deepClone_is_stable. Qed.

Lemma deepClone_fixed (s : AppStateData) :
  deepClone s = s <-> jsonStable s = true.
Proof.
  split.
  - intros H. rewrite <- H. apply deepClone_is_stable.
  - apply deepClone_stable.
Qed.

Lemma dispatch_history (fresh : string) (a : Action) (st : AppState) :
  actionType a <> "UNDO" ->
  history (dispatch fresh a st)
  = pushHistory (history st) (deepClone (state st)).
Proof.
  intros H. unfold dispatch. simpl.
  destruct (String.eqb_spec (actionType a) "UNDO"); [contradiction|].
  reflexivity.
Qed.

Lemma dispatch_state (fresh : string) (a : Action) (st : AppState) :
  state (dispatch fresh a st) = reduce fresh (state st) a.
Proof. reflexivity. Qed.

(** A push keeps the newest entries: as long as fewer than [maxHistory]
    of them are to be kept, eviction only eats into what lies before. *)
Lemma pushHistory_keeps (pre snaps : list AppStateData) (z : AppStateData) :
  (List.length snaps < maxHistory)%nat ->
  exists pre', pushHistory (pre ++ snaps) z = pre' ++ snaps ++ [z].
Proof.
  intros H. unfold pushHistory.
  destruct (Nat.ltb_spec maxHistory (List.length ((pre ++ snaps) ++ [z])))
    as [L|L].
  - destruct pre as [|a pre].
    + simpl in L. rewrite length_app in L. simpl in L. lia.
    + exists pre. simpl. rewrite <- app_assoc. reflexivity.
  - exists pre. rewrite <- app_assoc. reflexivity.
Qed.

Lemma pushHistory_bounded (h : list AppStateData) (z : AppStateData) :
  (List.length h <= maxHistory)%nat ->
  (List.length (pushHistory h z) <= maxHistory)%nat.
Proof.
  intros H. unfold pushHistory.
  destruct (Nat.ltb_spec maxHistory (List.length (h ++ [z]))) as [L|L].
  - destruct h as [|a h]; simpl in *; rewrite ?length_app in *; simpl in *; lia.
  - exact L.
Qed.

(** What a push does, by the size of the history it meets. *)
Lemma pushHistory_cases (h : list AppStateData) (z : AppStateData) :
  pushHistory h z
  = (if (List.length h <? maxHistory)%nat then h else tl h) ++ [z].
Proof.
  unfold pushHistory. rewrite length_app. simpl.
  destruct (Nat.ltb_spec maxHistory (List.length h + 1));
    destruct (Nat.ltb_spec (List.length h) maxHistory); try lia.
  - destruct h as [|a h]; [simpl in *; unfold maxHistory in *; lia|].
    reflexivity.
  - reflexivity.
Qed.

Lemma length_statesBefore (acts : list (string * Action)) (s : AppStateData) :
  List.length (statesBefore acts s) = List.length acts.
Proof.
  revert s. induction acts as [|[f a] rest IH]; intros s; simpl.
  - reflexivity.
  - rewrite IH. reflexivity.
Qed.

(** A run of dispatches, none of type [UNDO], leaves the deep copies of the
    states current before each of them at the end of the history, as long
    as they fit. *)
Lemma dispatchAll_history (acts : list (string * Action)) :
  Forall notUndo acts ->
  forall (st : AppState) (pre snaps : list AppStateData),
    history st = pre ++ snaps ->
    (List.length snaps + List.length acts <= maxHistory)%nat ->
    exists pre',
      history (dispatchAll acts st)
      = pre' ++ snaps ++ map deepClone (statesBefore acts (state st)).
Proof.
  induction 1 as [|[f a] rest Ha Hrest IH]; intros st pre snaps Hh Hlen.
  - exists pre. simpl. rewrite app_nil_r. exact Hh.
  - simpl in Hlen. simpl dispatchAll. simpl statesBefore.
    destruct (pushHistory_keeps pre snaps (deepClone (state st)))
      as [pre1 Hp]; [lia|].
    destruct (IH (dispatch f a st) pre1 (snaps ++ [deepClone (state st)]))
      as [pre2 H2].
    + rewrite dispatch_history by exact Ha.
      rewrite Hh. exact Hp.
    + rewrite length_app. simpl. lia.
    + exists pre2. rewrite H2, dispatch_state, <- app_assoc. reflexivity.
Qed.


Lemma undo_snoc (st : AppState) (h : list AppStateData) (p : AppStateData) :
  history st = h ++ [p] ->
  undo st
  = (true,
     mkAppState p (listeners st) h
       (notified st
        ++ notifyAll (listeners st) (mkEvent UNDO (state st) p))).
Proof.
  intros H. unfold undo. rewrite H, pop_snoc. reflexivity.
Qed.


(** As many undos as there are entries [l] at the end of the history all
    succeed and lead back to the oldest of these entries. *)
Lemma undoN_pops (l : list AppStateData) :
  forall (st : AppState) (pre : list AppStateData),
    history st = pre ++ l ->
    fst (undoN (List.length l) st) = repeat true (List.length l)
    /\ state (snd (undoN (List.length l) st)) = hd (state st) l
    /\ history (snd (undoN (List.length l) st)) = pre.
Proof.
  induction l as [|z l IH] using rev_ind; intros st pre Hh.
  - simpl. rewrite app_nil_r in Hh. auto.
  - rewrite length_app, Nat.add_comm. simpl.
    rewrite app_assoc in Hh. rewrite (undo_snoc st _ z Hh). simpl.
    match goal with
    | |- context [undoN _ ?st1] =>
        destruct (IH st1 pre eq_refl) as [Hb [Hs Hp]]
    end.
    rewrite Hb, Hs, Hp. simpl. repeat split.
    destruct l; reflexivity.
Qed.








(** The cap on the history is an invariant of the store: it holds of a new
    store, and [dispatch] and [undo] keep it. *)
Lemma history_bounded_invariant :
  (forall init, (List.length (history (newAppState init)) <= maxHistory)%nat)
  /\ (forall fresh a st,
         (List.length (history st) <= maxHistory)%nat ->
         (List.length (history (dispatch fresh a st)) <= maxHistory)%nat)
  /\ (forall st,
         (List.length (history st) <= maxHistory)%nat ->
         (List.length (history (snd (undo st))) <= maxHistory)%nat).
Proof.
  split; [|split].
  - intros init. simpl. lia.
  - intros fresh a st H. unfold dispatch. simpl.
    destruct (negb (String.eqb (actionType a) "UNDO")); [|exact H].
    apply pushHistory_bounded. exact H.
  - intros st H. unfold undo.
    destruct (pop (history st)) as [[h p]|] eqn:E; [|exact H].
    apply pop_some_inv in E. rewrite E, length_app in H. simpl in *. lia.
Qed.

(** ** Dispatches that change nothing *)

Lemma with_coastline_same (s : AppStateData) :
  with_coastline (with_points (points (coastline s)) (coastline s)) s = s.
Proof. destruct s as [? ? [? ?] ? ? ? ? ? ? ? ? ? ? ? ?]. reflexivity. Qed.

Lemma move_point_unknown_id (fresh : string) (s : AppStateData) (id : string)
    (x y : number) :
  (forall p, In p (points (coastline s)) -> pt_id p <> id) ->
  reduce fresh s (MOVE_POINT id x y) = s.
Proof.
  intros H. simpl.
  rewrite (map_ext_in _ (fun p => p)).
  - rewrite map_id. apply with_coastline_same.
  - intros p Hp. destruct (String.eqb_spec (pt_id p) id) as [E|E].
    + contradiction (H p Hp E).
    + reflexivity.
Qed.

Lemma cancel_edit_no_edit (fresh : string) (s : AppStateData) :
  pendingEdit s = None -> reduce fresh s CANCEL_EDIT = s.
Proof. intros H. destruct s. simpl in *. subst. reflexivity. Qed.

(** C10, as stated, fails on a state that holds a [NaN]: the snapshot is
    the JSON round trip of the state, so after a dispatch that changes
    nothing (here of a type outside the [switch]) an [undo] restores a
    state that holds [null] where the current one holds [NaN]. *)
Lemma noop_undo_changes_nan :
  actionType (OTHER "REDO") <> "UNDO"
  /\ reduce "" (state nanStore) (OTHER "REDO") = state nanStore
  /\ fst (undo (dispatch "" (OTHER "REDO") nanStore)) = true
  /\ map pt_x
       (points (coastline (state (dispatch "" (OTHER "REDO") nanStore))))
     = [NaN]
  /\ map pt_x
       (points
          (coastline
             (state (snd (undo (dispatch "" (OTHER "REDO") nanStore))))))
     = [Null]
  /\ state (snd (undo (dispatch "" (OTHER "REDO") nanStore)))
     <> state (dispatch "" (OTHER "REDO") nanStore).
Proof.
  repeat split; vm_compute; discriminate.
Qed.

(** C10, amended.  Every dispatch whose type is not [UNDO] appends one deep
    copy of the state it finds to the history, after dropping the oldest
    entry when the history is already at the cap; the copy equals the
    state it finds exactly when that state holds no [NaN], infinity or
    [-0].  This holds also when the reducer changes nothing, as it does
    for an action type outside the [switch], for [CANCEL_EDIT] with no
    pending edit and for [MOVE_POINT] with an id no vertex carries; an
    [undo] right after such a dispatch returns [true] and restores the
    deep copy of the current state, which is equal to the current state
    when that holds no [NaN], infinity or [-0]. *)
Theorem dispatch_always_snapshots (fresh : string) (st : AppState) :
  (forall a : Action,
      actionType a <> "UNDO" ->
      history (dispatch fresh a st)
      = (if (List.length (history st) <? maxHistory)%nat
         then history st else tl (history st))
        ++ [deepClone (state st)]
      /\ (deepClone (state st) = state st <-> jsonStable (state st) = true)
      /\ (reduce fresh (state st) a = state st ->
          fst (undo (dispatch fresh a st)) = true
          /\ state (snd (undo (dispatch fresh a st)))
             = deepClone (state (dispatch fresh a st))
          /\ (jsonStable (state st) = true ->
              state (snd (undo (dispatch fresh a st)))
              = state (dispatch fresh a st))))
  /\ (forall t : string, reduce fresh (state st) (OTHER t) = state st)
  /\ (pendingEdit (state st) = None ->
      reduce fresh (state st) CANCEL_EDIT = state st)
  /\ (forall (id : string) (x y : number),
         (forall p, In p (points (coastline (state st))) -> pt_id p <> id) ->
         reduce fresh (state st) (MOVE_POINT id x y) = state st).
Proof.
  split; [|split; [|split]].
  - intros a Ha.
    assert (history (dispatch fresh a st)
            = (if (List.length (history st) <? maxHistory)%nat
               then history st else tl (history st))
              ++ [deepClone (state st)]) as Hh.
    { rewrite dispatch_history by exact Ha. apply pushHistory_cases. }
    split; [exact Hh|]. split; [apply deepClone_fixed|].
    intros Hnoop. rewrite (undo_snoc _ _ _ Hh). cbn [fst snd state].
    rewrite dispatch_state, Hnoop. split; [reflexivity|].
    split; [reflexivity|]. apply deepClone_stable.
  - reflexivity.
  - apply cancel_edit_no_edit.
  - intros id x y H. apply move_point_unknown_id. exact H.
Qed.

Lemma dispatch_always_snapshots_witness :
  (history (dispatch "" (OTHER "REDO") onePointStore)
   = (if (List.length (history onePointStore) <? maxHistory)%nat
      then history onePointStore else tl (history onePointStore))
     ++ [deepClone (state onePointStore)]
   /\ deepClone (state onePointStore) = state onePointStore
   /\ fst (undo (dispatch "" (OTHER "REDO") onePointStore)) = true
   /\ state (snd (undo (dispatch "" (OTHER "REDO") onePointStore)))
      = deepClone (state (dispatch "" (OTHER "REDO") onePointStore))
   /\ state (snd (undo (dispatch "" (OTHER "REDO") onePointStore)))
      = state (dispatch "" (OTHER "REDO") onePointStore))
  /\ reduce "" (state onePointStore) CANCEL_EDIT = state onePointStore
  /\ reduce "" (state onePointStore) (MOVE_POINT "zzz" 7 8)
     = state onePointStore.
Proof.
  destruct (dispatch_always_snapshots "" onePointStore) as [H1 [_ [H3 H4]]].
  split; [|split].
  - destruct (H1 (OTHER "REDO")) as [Ha [Hb Hc]].
    + simpl. discriminate.
    + destruct Hc as [Hc1 [Hc2 Hc3]]; [reflexivity|].
      split; [exact Ha|]. split; [apply Hb; reflexivity|].
      split; [exact Hc1|]. split; [exact Hc2|]. apply Hc3. reflexivity.
  - apply H3. reflexivity.
  - apply H4. intros p Hp. simpl in Hp.
    destruct Hp as [<-|[]]. simpl. discriminate.
Defined.

(** * Further properties of the store *)

Lemma runOps_snoc (ops : list StoreOp) (op : StoreOp) (st : AppState) :
  runOps (ops ++ [op]) st = applyOp op (runOps ops st).
Proof. unfold runOps. rewrite fold_left_app. reflexivity. Qed.

Lemma applyOp_bounded (op : StoreOp) (st : AppState) :
  (List.length (history st) <= maxHistory)%nat ->
  (List.length (history (applyOp op st)) <= maxHistory)%nat.
Proof.
  intros H. destruct history_bounded_invariant as [_ [Hd Hu]].
  destruct op as [fresh a| |l|l]; cbn [applyOp].
  - exact (Hd fresh a st H).
  - exact (Hu st H).
  - exact H.
  - exact H.
Qed.

(** X1.  Whatever calls are made on a new store, in whatever order
    ([dispatch] of any action, [undo], [subscribe], unsubscribe), its
    history never holds more than [maxHistory = 50] snapshots. *)
Theorem history_never_exceeds_cap (ops : list StoreOp)
    (init : option AppStateData) :
  (List.length (history (runOps ops (newAppState init))) <= maxHistory)%nat.
Proof.
  induction ops as [|op ops IH] using rev_ind.
  - simpl. unfold maxHistory. lia.
  - rewrite runOps_snoc. apply applyOp_bounded. exact IH.
Qed.

(** ** Listeners *)

Lemma filter_notifyAll_absent (l : Listener) (ls : list Listener)
    (ev : StateChangeEvent) :
  ~ In l ls ->
  filter (fun c => Nat.eqb (fst c) l) (notifyAll ls ev) = [].
Proof.
  intros H. induction ls as [|a ls IH]; simpl; [reflexivity|].
  destruct (Nat.eqb_spec a l) as [E|E].
  - exfalso. apply H. left. exact E.
  - apply IH. intros Hin. apply H. right. exact Hin.
Qed.

Lemma callsTo_app (l : Listener) (st : AppState)
    (more : list (Listener * StateChangeEvent)) (s : AppStateData)
    (ls : list Listener) (h : list AppStateData) :
  callsTo l (mkAppState s ls h (notified st ++ more))
  = (callsTo l st
     + List.length (filter (fun c => Nat.eqb (fst c) l) more))%nat.
Proof. unfold callsTo. simpl. rewrite filter_app, length_app. reflexivity. Qed.

Lemma applyOp_absent (l : Listener) (op : StoreOp) (st : AppState) :
  op <> OpSubscribe l ->
  ~ In l (listeners st) ->
  ~ In l (listeners (applyOp op st))
  /\ callsTo l (applyOp op st) = callsTo l st.
Proof.
  intros Hop Hl. destruct op as [fresh a| |l'|l']; simpl.
  - split; [exact Hl|]. unfold dispatch. rewrite callsTo_app.
    rewrite filter_notifyAll_absent by exact Hl. simpl. lia.
  - unfold undo. destruct (pop (history st)) as [[h p]|]; simpl.
    + split; [exact Hl|]. rewrite callsTo_app.
      rewrite filter_notifyAll_absent by exact Hl. simpl. lia.
    + split; [exact Hl | reflexivity].
  - split; [|reflexivity].
    destruct (existsb (Nat.eqb l') (listeners st)); [exact Hl|].
    intros Hin. apply in_app_or in Hin. destruct Hin as [Hin|[E|[]]].
    + contradiction.
    + subst l'. apply Hop. reflexivity.
  - split; [|reflexivity].
    intros Hin. apply filter_In in Hin. apply Hl. apply Hin.
Qed.

(** X2.  Once a listener is unsubscribed it is never called again, whatever
    dispatches, undos, and subscriptions of other listeners follow: the
    number of calls it has received stays what it was. *)
Theorem unsubscribed_listener_not_called (l : Listener) (ops : list StoreOp)
    (st : AppState) :
  Forall (fun op => op <> OpSubscribe l) ops ->
  callsTo l (runOps ops (unsubscribe l st)) = callsTo l st.
Proof.
  intros Hops.
  assert (~ In l (listeners (runOps ops (unsubscribe l st)))
          /\ callsTo l (runOps ops (unsubscribe l st)) = callsTo l st) as H.
  { induction ops as [|op ops IH] using rev_ind.
    - simpl. split; [|reflexivity].
      intros Hin. apply filter_In in Hin. destruct Hin as [_ Hin].
      rewrite Nat.eqb_refl in Hin. discriminate.
    - apply Forall_app in Hops. destruct Hops as [Hops Hop].
      inversion Hop as [|? ? Hop' _]; subst.
      destruct (IH Hops) as [Habs Hcalls].
      rewrite runOps_snoc.
      destruct (applyOp_absent l op _ Hop' Habs) as [Habs' Hcalls'].
      split; [exact Habs' | congruence]. }
  apply H.
Qed.

Lemma unsubscribed_listener_not_called_witness :
  callsTo 7%nat
    (runOps [OpDispatch "k3x9q0a7m" (ADD_POINT 4 5); OpSubscribe 8%nat; OpUndo]
       (unsubscribe 7%nat (subscribe 7%nat onePointStore)))
  = callsTo 7%nat (subscribe 7%nat onePointStore).
Proof.
  apply (unsubscribed_listener_not_called 7%nat
           [OpDispatch "k3x9q0a7m" (ADD_POINT 4 5); OpSubscribe 8%nat; OpUndo]
           (subscribe 7%nat onePointStore)).
  repeat constructor; discriminate.
Defined.

(** * Further properties of the reducer *)

Lemma coastline_action_frame (fresh : string) (s : AppStateData)
    (a : Action) :
  isCoastlineAction a = true ->
  with_pendingEdit (pendingEdit s)
    (with_coastline (coastline s) (reduce fresh s a)) = s.
Proof.
  intros Ha. destruct s as [cm csm c tw stl rd pe bg tt tp ss rs prs sti ssi].
  destruct a; try discriminate Ha; cbn [reduce]; unfold commitReplace;
    cbn [pendingEdit coastline];
    repeat match goal with
           | |- context [match ?x with _ => _ end] => destruct x
           end;
    reflexivity.
Qed.

(** X4.  The reducer keeps its domains apart.  An action of the coastline
    engine ([ADD_POINT], [CLOSE_COASTLINE], [SET_PENDING_EDIT],
    [COMMIT_EDIT], [CANCEL_EDIT], [REMOVE_POINT], [MOVE_POINT]) changes
    nothing but the coastline and the pending edit: putting these two back
    gives the state it started from.  Every other action except
    [LOAD_STATE] (towers, settlements, roads, selections, modes, unknown
    types) leaves the coastline and the pending edit as they are; in
    particular removing a settlement removes none of the roads that end at
    it. *)
Theorem reducer_frame (fresh : string) (s : AppStateData) (a : Action) :
  (isCoastlineAction a = true ->
   with_pendingEdit (pendingEdit s)
     (with_coastline (coastline s) (reduce fresh s a)) = s)
  /\ (isCoastlineAction a = false -> isLoadState a = false ->
      coastline (reduce fresh s a) = coastline s
      /\ pendingEdit (reduce fresh s a) = pendingEdit s)
  /\ (forall settlementId : string,
         roads (reduce fresh s (REMOVE_SETTLEMENT settlementId)) = roads s).
Proof.
  split; [|split].
  - apply coastline_action_frame.
  - intros Ha Hl. destruct a; try discriminate Ha; try discriminate Hl;
      split; reflexivity.
  - intros settlementId. reflexivity.
Qed.

Lemma reducer_frame_witness :
  with_pendingEdit (pendingEdit editingDA)
    (with_coastline (coastline editingDA) (reduce "" editingDA COMMIT_EDIT))
  = editingDA
  /\ coastline (reduce "k3x9q0a7m" editingDA (ADD_TOWER 4 5))
     = coastline editingDA
  /\ pendingEdit (reduce "k3x9q0a7m" editingDA (ADD_TOWER 4 5))
     = pendingEdit editingDA.
Proof.
  destruct (reducer_frame "" editingDA COMMIT_EDIT) as [H1 _].
  destruct (reducer_frame "k3x9q0a7m" editingDA (ADD_TOWER 4 5))
    as [_ [H2 _]].
  split; [apply H1; reflexivity | apply H2; reflexivity].
Defined.

(** ** [MOVE_POINT] *)

Lemma map_move_ids (id : string) (x y : number) (l : list Point) :
  map pt_id
    (map (fun p => if String.eqb (pt_id p) id then mkPoint x y (pt_id p) else p)
       l)
  = map pt_id l.
Proof.
  rewrite map_map. apply map_ext. intros p.
  destruct (String.eqb (pt_id p) id); reflexivity.
Qed.

Lemma move_point_twice (fresh fresh' : string) (s : AppStateData)
    (id : string) (x y x' y' : number) :
  reduce fresh' (reduce fresh s (MOVE_POINT id x y)) (MOVE_POINT id x' y')
  = reduce fresh' s (MOVE_POINT id x' y').
Proof.
  destruct s as [cm csm [pts closed] tw stl rd pe bg tt tp ss rs prs sti ssi].
  simpl. unfold with_coastline, with_points. simpl. do 2 f_equal.
  rewrite map_map. apply map_ext. intros p.
  destruct (String.eqb_spec (pt_id p) id) as [E|E]; simpl.
  - rewrite E, String.eqb_refl. reflexivity.
  - destruct (String.eqb_spec (pt_id p) id); [contradiction | reflexivity].
Qed.

(** X5.  [MOVE_POINT] keeps the ids of the boundary, their order and the
    closed flag; afterwards every vertex carrying the id sits at the new
    coordinates, and a vertex with another id is in the boundary exactly if
    it was before.  Two moves of the same id in a row amount to the second
    alone, so a drag ends where the last position is. *)
Theorem move_point_keeps_shape (fresh fresh' : string) (s : AppStateData)
    (id : string) (x y x' y' : number) :
  boundaryIds (reduce fresh s (MOVE_POINT id x y)) = boundaryIds s
  /\ isClosed (coastline (reduce fresh s (MOVE_POINT id x y)))
     = isClosed (coastline s)
  /\ (forall p,
         In p (points (coastline (reduce fresh s (MOVE_POINT id x y)))) ->
         pt_id p = id -> pt_x p = x /\ pt_y p = y)
  /\ (forall p,
         pt_id p <> id ->
         (In p (points (coastline (reduce fresh s (MOVE_POINT id x y))))
          <-> In p (points (coastline s))))
  /\ reduce fresh' (reduce fresh s (MOVE_POINT id x y)) (MOVE_POINT id x' y')
     = reduce fresh' s (MOVE_POINT id x' y').
Proof.
  split; [|split; [|split; [|split]]].
  - unfold boundaryIds. simpl. apply map_move_ids.
  - reflexivity.
  - intros p Hin Hid. simpl in Hin. apply in_map_iff in Hin.
    destruct Hin as [q [Hq Hin]].
    destruct (String.eqb_spec (pt_id q) id) as [E|E].
    + subst p. simpl. split; reflexivity.
    + subst p. contradiction.
  - intros p Hid. simpl. rewrite in_map_iff. split.
    + intros [q [Hq Hin]].
      destruct (String.eqb_spec (pt_id q) id) as [E|E].
      * subst p. simpl in Hid. contradiction.
      * subst p. exact Hin.
    + intros Hin. exists p. split; [|exact Hin].
      destruct (String.eqb_spec (pt_id p) id); [contradiction | reflexivity].
  - apply move_point_twice.
Qed.

Lemma move_point_keeps_shape_witness :
  (pt_x (mkPoint 4 5 "B") = 4 /\ pt_y (mkPoint 4 5 "B") = 5)
  /\ (In (vertex "A")
        (points
           (coastline
              (reduce "" (closedState boundary3 None) (MOVE_POINT "B" 4 5))))
      <-> In (vertex "A") (points (coastline (closedState boundary3 None)))).
Proof.
  destruct (move_point_keeps_shape "" "" (closedState boundary3 None)
              "B" 4 5 6 7) as [_ [_ [H3 [H4 _]]]].
  split.
  - apply H3; [|reflexivity]. simpl. right. left. reflexivity.
  - apply H4. simpl. discriminate.
Defined.

(** ** Adding, then removing *)

Lemma filter_snoc_fresh {A : Type} (key : A -> string) (i : string)
    (l : list A) (a : A) :
  key a = i ->
  (forall b, In b l -> key b <> i) ->
  filter (fun b => negb (String.eqb (key b) i)) (l ++ [a]) = l.
Proof.
  intros Ha Hl. rewrite filter_app. simpl.
  rewrite Ha, String.eqb_refl. simpl. rewrite app_nil_r.
  apply filter_all. intros b Hb.
  destruct (String.eqb_spec (key b) i) as [E|E]; [|reflexivity].
  contradiction (Hl b Hb E).
Qed.

(** X6.  Removing by its id what was just added restores the state, when
    the id [generateId] returned was not in use: a point on an open
    coastline, a tower, a settlement, and a road (whose addition also
    clears the pending road start, which stays cleared). *)
Theorem add_then_remove_restores (fresh fresh' : string) (s : AppStateData)
    (x y : number) (startId endId : string) :
  (isClosed (coastline s) = false ->
   (forall p, In p (points (coastline s)) -> pt_id p <> fresh) ->
   reduce fresh' (reduce fresh s (ADD_POINT x y)) (REMOVE_POINT fresh) = s)
  /\ ((forall t, In t (td_towers (towers s)) -> tw_id t <> fresh) ->
      reduce fresh' (reduce fresh s (ADD_TOWER x y)) (REMOVE_TOWER fresh) = s)
  /\ ((forall t, In t (sd_settlements (settlements s)) -> st_id t <> fresh) ->
      reduce fresh' (reduce fresh s (ADD_SETTLEMENT x y))
        (REMOVE_SETTLEMENT fresh) = s)
  /\ ((forall r, In r (rd_roads (roads s)) -> rd_id r <> fresh) ->
      reduce fresh' (reduce fresh s (ADD_ROAD startId endId))
        (REMOVE_ROAD fresh) = with_pendingRoadStartId None s).
Proof.
  destruct s as [cm csm [pts closed] [tws] [stl] [rds] pe bg tt tp ss rs prs sti ssi].
  simpl. split; [|split; [|split]].
  - intros Hopen Hfresh. subst closed. simpl.
    unfold with_coastline, with_points. simpl.
    rewrite (filter_snoc_fresh pt_id) by (simpl; auto). reflexivity.
  - intros Hfresh. unfold with_towers. simpl.
    rewrite (filter_snoc_fresh tw_id) by (simpl; auto). reflexivity.
  - intros Hfresh. unfold with_settlements. simpl.
    rewrite (filter_snoc_fresh st_id) by (simpl; auto). reflexivity.
  - intros Hfresh. unfold with_roads, with_pendingRoadStartId. simpl.
    rewrite (filter_snoc_fresh rd_id) by (simpl; auto). reflexivity.
Qed.

Lemma add_then_remove_restores_witness :
  reduce "" (reduce "k3x9q0a7m" (openState boundary3 None) (ADD_POINT 4 5))
    (REMOVE_POINT "k3x9q0a7m")
  = openState boundary3 None
  /\ reduce "" (reduce "k3x9q0a7m" (openState boundary3 None) (ADD_TOWER 4 5))
       (REMOVE_TOWER "k3x9q0a7m")
     = openState boundary3 None
  /\ reduce ""
       (reduce "k3x9q0a7m" (openState boundary3 None) (ADD_SETTLEMENT 4 5))
       (REMOVE_SETTLEMENT "k3x9q0a7m")
     = openState boundary3 None
  /\ reduce ""
       (reduce "k3x9q0a7m" (openState boundary3 None) (ADD_ROAD "s1" "s2"))
       (REMOVE_ROAD "k3x9q0a7m")
     = with_pendingRoadStartId None (openState boundary3 None).
Proof.
  destruct (add_then_remove_restores "k3x9q0a7m" "" (openState boundary3 None)
              4 5 "s1" "s2") as [H1 [H2 [H3 H4]]].
  split; [|split; [|split]].
  - apply H1; [reflexivity|]. intros p Hp. simpl in Hp.
    repeat (destruct Hp as [<-|Hp]; [discriminate|]). destruct Hp.
  - apply H2. intros t [].
  - apply H3. intros t [].
  - apply H4. intros r [].
Defined.

(** ** How much a commit can remove *)

Lemma commitReplace_length (st : AppStateData) (pe : PendingEdit)
    (startId endId : string) :
  (3 <= List.length (points (coastline st)))%nat ->
  (List.length (points (coastline st)) + 2
   <= 2 * List.length (points (coastline (commitReplace st pe startId endId))))%nat.
Proof.
  intros Hn.
  set (pts := points (coastline st)) in *.
  set (s := findIndex (fun p => String.eqb (pt_id p) startId) pts).
  set (e := findIndex (fun p => String.eqb (pt_id p) endId) pts).
  destruct (Z.eq_dec s (-1)) as [Es|Es].
  { unfold commitReplace. fold pts. fold s. rewrite Es. simpl.
    fold pts. lia. }
  destruct (Z.eq_dec e (-1)) as [Ee|Ee].
  { unfold commitReplace. fold pts. fold s. fold e. rewrite Ee.
    rewrite orb_true_r. simpl. fold pts. lia. }
  destruct (commitReplace_resolved st pe startId endId Es Ee)
    as [cw [ccw [Hcw [Hccw Hr]]]].
  fold pts in Hcw, Hccw, Hr. fold s in Hcw, Hccw, Hr. fold e in Hcw, Hccw, Hr.
  rewrite Hr. simpl.
  destruct (findIndex_range (fun p => String.eqb (pt_id p) startId) pts)
    as [?|Rs]; [contradiction|].
  destruct (findIndex_range (fun p => String.eqb (pt_id p) endId) pts)
    as [?|Re]; [contradiction|].
  fold s in Rs. fold e in Re.
  destruct (pathCW_total _ _ _ Rs Re) as [cw' [Hcw' Lcw]].
  destruct (pathCCW_total _ _ _ Rs Re) as [ccw' [Hccw' Lccw]].
  rewrite Hcw in Hcw'. injection Hcw' as <-.
  rewrite Hccw in Hccw'. injection Hccw' as <-.
  pose proof (splice_length pts (pe_points pe) s e (useCW cw ccw) Rs Re) as Hl.
  rewrite stepCW_val in Lcw by exact Rs.
  rewrite stepCCW_val in Lccw by exact Rs.
  destruct (useCW cw ccw) eqn:U; unfold useCW in U;
    [apply Nat.leb_le in U | apply Nat.leb_gt in U];
    unfold distCW in Lcw; unfold distCCW in Lccw; case_cmp; lia.
Qed.

Lemma commit_length_bound (fresh : string) (s : AppStateData) :
  (3 <= List.length (points (coastline s)))%nat ->
  (List.length (points (coastline s)) + 2
   <= 2 * List.length (points (coastline (reduce fresh s COMMIT_EDIT))))%nat.
Proof.
  intros Hn. cbn [reduce]. destruct (pendingEdit s) as [pe|]; [|lia].
  destruct (pe_type pe).
  - simpl. rewrite length_app. lia.
  - destruct (startAnchorId pe) as [startId|]; [|simpl; lia].
    destruct (endAnchorId pe) as [endId|]; [|simpl; lia].
    destruct (truthy (Some startId) && truthy (Some endId));
      [|simpl; lia].
    apply commitReplace_length. exact Hn.
Qed.

(** X7.  [COMMIT_EDIT] on a boundary of [n >= 3] vertices never leaves
    fewer than three: whatever the pending edit (none, a draft, a
    replacement that is discarded or spliced, anchors equal or not), the
    boundary after the commit has at least [(n + 2) / 2] vertices, the
    shorter arc holding at most half of the vertices other than the
    anchors. *)
Theorem commit_keeps_three (fresh : string) (s : AppStateData) :
  (3 <= List.length (points (coastline s)))%nat ->
  (3 <= List.length (points (coastline (reduce fresh s COMMIT_EDIT))))%nat
  /\ (List.length (points (coastline s)) + 2
      <= 2 * List.length (points (coastline (reduce fresh s COMMIT_EDIT))))%nat.
Proof.
  intros Hn. pose proof (commit_length_bound fresh s Hn) as H.
  split; [lia | exact H].
Qed.

Lemma commit_keeps_three_witness :
  (3 <= List.length (points (coastline (reduce "" editingDA COMMIT_EDIT))))%nat
  /\ (List.length (points (coastline editingDA)) + 2
      <= 2 * List.length (points (coastline (reduce "" editingDA COMMIT_EDIT))))%nat.
Proof.
  apply (commit_keeps_three "" editingDA). simpl. lia.
Defined.

(** ** The arc [findReplacedPointIds] announces *)

Lemma forwardFrom_range (n i : Z) (d : nat) (k : Z) :
  0 < n -> 0 <= i -> In k (forwardFrom n i d) -> 0 <= k < n.
Proof.
  intros Hn Hi Hin. unfold forwardFrom in Hin. apply in_map_iff in Hin.
  destruct Hin as [j [<- _]]. apply Z.rem_bound_pos; lia.
Qed.

Lemma backwardFrom_range (n i : Z) (d : nat) (k : Z) :
  0 < n -> 0 <= i -> Z.of_nat d <= n -> In k (backwardFrom n i d) ->
  0 <= k < n.
Proof.
  intros Hn Hi Hd Hin. unfold backwardFrom in Hin. apply in_map_iff in Hin.
  destruct Hin as [j [<- Hj]]. apply in_seq in Hj.
  apply Z.rem_bound_pos; lia.
Qed.

Lemma idAt_nth (pts : list Point) (k : Z) :
  0 <= k < Z.of_nat (List.length pts) ->
  nth_error (map pt_id pts) (Z.to_nat k) = Some (idAt pts k).
Proof.
  intros Hk. unfold idAt. rewrite nth_error_map.
  destruct (nth_error pts (Z.to_nat k)) as [p|] eqn:E; [reflexivity|].
  apply nth_error_None in E. lia.
Qed.

Lemma idAt_In (pts : list Point) (k : Z) :
  0 <= k < Z.of_nat (List.length pts) -> In (idAt pts k) (map pt_id pts).
Proof.
  intros Hk. apply nth_error_In with (n := Z.to_nat k).
  apply idAt_nth. exact Hk.
Qed.

Lemma idAt_inj (pts : list Point) (j k : Z) :
  NoDup (map pt_id pts) ->
  0 <= j < Z.of_nat (List.length pts) ->
  0 <= k < Z.of_nat (List.length pts) ->
  idAt pts j = idAt pts k -> j = k.
Proof.
  intros Hnd Hj Hk E.
  assert (Z.to_nat j = Z.to_nat k) as H.
  { apply (proj1 (NoDup_nth_error (map pt_id pts)) Hnd).
    - rewrite length_map. lia.
    - rewrite (idAt_nth pts j Hj), (idAt_nth pts k Hk), E. reflexivity. }
  lia.
Qed.

Lemma idAt_findIndex (pts : list Point) (i : string) :
  findIndex (fun p => String.eqb (pt_id p) i) pts <> -1 ->
  idAt pts (findIndex (fun p => String.eqb (pt_id p) i) pts) = i.
Proof.
  intros H. destruct (findIndex_nth _ pts H) as [p [Hn Hp]].
  unfold idAt. rewrite Hn. apply String.eqb_eq. exact Hp.
Qed.

(** X8.  The ids [findReplacedPointIds] returns.  With an anchor that
    matches no vertex it returns none.  Every id it returns is the id of a
    vertex of the boundary.  For two different anchor ids that both
    resolve, it returns at most half of the vertices other than the
    anchors.  On a boundary without repeated ids neither anchor is among
    them. *)
Theorem replaced_ids_bounded (pts : list Point) (startId endId : string) :
  (findIndex (fun p => String.eqb (pt_id p) startId) pts = -1
   \/ findIndex (fun p => String.eqb (pt_id p) endId) pts = -1 ->
   findReplacedPointIds pts startId endId = [])
  /\ Forall (fun i => In i (map pt_id pts))
       (findReplacedPointIds pts startId endId)
  /\ (startId <> endId ->
      findIndex (fun p => String.eqb (pt_id p) startId) pts <> -1 ->
      findIndex (fun p => String.eqb (pt_id p) endId) pts <> -1 ->
      2 * Z.of_nat (List.length (findReplacedPointIds pts startId endId))
      <= Z.of_nat (List.length pts) - 2)
  /\ (NoDup (map pt_id pts) ->
      ~ In startId (findReplacedPointIds pts startId endId)
      /\ ~ In endId (findReplacedPointIds pts startId endId)).
Proof.
  set (n := Z.of_nat (List.length pts)).
  set (s := findIndex (fun p => String.eqb (pt_id p) startId) pts).
  set (e := findIndex (fun p => String.eqb (pt_id p) endId) pts).
  assert (s = -1 \/ e = -1 -> findReplacedPointIds pts startId endId = [])
    as Hnone.
  { intros H. unfold findReplacedPointIds. fold s. fold e.
    destruct H as [-> | ->]; [reflexivity|].
    rewrite orb_true_r. reflexivity. }
  destruct (Z.eq_dec s (-1)) as [Es|Es].
  { rewrite Hnone by (left; exact Es).
    split; [reflexivity|]. split; [constructor|].
    split; [intros; contradiction | intros _; split; intros []]. }
  destruct (Z.eq_dec e (-1)) as [Ee|Ee].
  { rewrite Hnone by (right; exact Ee).
    split; [reflexivity|]. split; [constructor|].
    split; [intros; contradiction | intros _; split; intros []]. }
  destruct (findIndex_range (fun p => String.eqb (pt_id p) startId) pts)
    as [?|Rs]; [contradiction|].
  destruct (findIndex_range (fun p => String.eqb (pt_id p) endId) pts)
    as [?|Re]; [contradiction|].
  fold s n in Rs. fold e n in Re.
  pose proof (pathCW_elements n e Re s Rs) as Hcw.
  pose proof (pathCCW_elements n e Re s Rs) as Hccw.
  pose proof (stepCW_range n s Rs) as Rcw.
  pose proof (stepCCW_range n s Rs) as Rccw.
  pose proof (stepCW_val n s Rs) as Vcw.
  pose proof (stepCCW_val n s Rs) as Vccw.
  set (dcw := Z.to_nat (distCW n (stepCW n s) e)) in *.
  set (dccw := Z.to_nat (distCCW n (stepCCW n s) e)) in *.
  assert (0 <= distCW n (stepCW n s) e < n) as Dcw
    by (unfold distCW; case_cmp; lia).
  assert (0 <= distCCW n (stepCCW n s) e < n) as Dccw
    by (unfold distCCW; case_cmp; lia).
  assert (findReplacedPointIds pts startId endId
          = map (idAt pts)
              (if (dcw <=? dccw)%nat
               then forwardFrom n (stepCW n s) dcw
               else backwardFrom n (stepCCW n s) dccw)) as Hres.
  { unfold findReplacedPointIds. fold n s e.
    destruct (Z.eqb_spec s (-1)); [contradiction|].
    destruct (Z.eqb_spec e (-1)); [contradiction|].
    cbn [orb]. rewrite Hcw, Hccw. unfold useCW.
    rewrite length_forwardFrom, length_backwardFrom.
    destruct (dcw <=? dccw)%nat; reflexivity. }
  rewrite Hres. split; [intros [?|?]; contradiction|].
  split; [|split].
  - apply Forall_forall. intros i Hi. apply in_map_iff in Hi.
    destruct Hi as [k [<- Hk]]. apply idAt_In. fold n.
    destruct (dcw <=? dccw)%nat.
    + apply (forwardFrom_range n (stepCW n s) dcw); [lia | lia | exact Hk].
    + apply (backwardFrom_range n (stepCCW n s) dccw); [lia | lia | lia | exact Hk].
  - intros Hne _ _.
    assert (s <> e) as Hse.
    { intros E. apply Hne.
      rewrite <- (idAt_findIndex pts startId Es).
      rewrite <- (idAt_findIndex pts endId Ee).
      fold s e. rewrite E. reflexivity. }
    rewrite length_map.
    destruct (Nat.leb_spec dcw dccw) as [C|C];
      rewrite ?length_forwardFrom, ?length_backwardFrom;
      subst dcw dccw; revert C Dcw Dccw; rewrite Vcw, Vccw;
      unfold distCW, distCCW; case_cmp; lia.
  - intros Hnd.
    assert (forall k,
               In k (if (dcw <=? dccw)%nat
                     then forwardFrom n (stepCW n s) dcw
                     else backwardFrom n (stepCCW n s) dccw) ->
               0 <= k < n /\ k <> s /\ k <> e) as Helem.
    { intros k Hk. destruct (dcw <=? dccw)%nat.
      - split; [apply (forwardFrom_range n (stepCW n s) dcw); [lia | lia | exact Hk]|].
        split; intros ->.
        + revert Hk. apply (forwardFrom_avoids n s Rs); [exact Rcw|].
          subst dcw. revert Dcw. rewrite Vcw. unfold distCW. case_cmp; lia.
        + revert Hk. apply (forwardFrom_avoids n e Re); [exact Rcw | lia].
      - split; [apply (backwardFrom_range n (stepCCW n s) dccw);
                  [lia | lia | lia | exact Hk]|].
        split; intros ->.
        + revert Hk. apply (backwardFrom_avoids n s Rs); [exact Rccw|].
          subst dccw. revert Dccw. rewrite Vccw. unfold distCCW.
          case_cmp; lia.
        + revert Hk. apply (backwardFrom_avoids n e Re); [exact Rccw | lia]. }
    split; intros Hin; apply in_map_iff in Hin;
      destruct Hin as [k [Hid Hk]];
      destruct (Helem k Hk) as [Rk [Hks Hke]].
    + apply Hks. apply (idAt_inj pts k s Hnd Rk Rs).
      rewrite Hid. symmetry. apply idAt_findIndex. exact Es.
    + apply Hke. apply (idAt_inj pts k e Hnd Rk Re).
      rewrite Hid. symmetry. apply idAt_findIndex. exact Ee.
Qed.

Lemma replaced_ids_bounded_witness :
  findReplacedPointIds boundaryABCDE "A" "Q" = []
  /\ 2 * Z.of_nat (List.length (findReplacedPointIds boundaryABCDE "D" "A"))
     <= Z.of_nat (List.length boundaryABCDE) - 2
  /\ ~ In "D" (findReplacedPointIds boundaryABCDE "D" "A")
  /\ ~ In "A" (findReplacedPointIds boundaryABCDE "D" "A").
Proof.
  destruct (replaced_ids_bounded boundaryABCDE "A" "Q") as [H1 _].
  destruct (replaced_ids_bounded boundaryABCDE "D" "A") as [_ [_ [H3 H4]]].
  split; [apply H1; right; reflexivity|].
  split.
  - apply H3; [discriminate | vm_compute; discriminate
               | vm_compute; discriminate].
  - apply H4. repeat constructor; simpl; intuition discriminate.
Defined.

(** ** The splice where it is right *)

Lemma forwardFrom_plain (n i : Z) (d : nat) :
  0 <= i -> i + Z.of_nat d <= n ->
  forwardFrom n i d = map (fun k => i + Z.of_nat k) (seq 0 d).
Proof.
  intros Hi Hd. unfold forwardFrom. apply map_ext_in. intros k Hk.
  apply in_seq in Hk. apply Z.rem_small. lia.
Qed.

Lemma backwardFrom_plain (n i : Z) (d : nat) :
  i < n -> Z.of_nat d <= i + 1 ->
  backwardFrom n i d = map (fun k => i - Z.of_nat k) (seq 0 d).
Proof.
  intros Hi Hd. unfold backwardFrom. apply map_ext_in. intros k Hk.
  apply in_seq in Hk. symmetry. apply Z.rem_unique with (q := 1); lia.
Qed.

Lemma skipn_cons_nth {A : Type} (l : list A) (i : nat) :
  (i < List.length l)%nat ->
  exists a, nth_error l i = Some a /\ skipn i l = a :: skipn (S i) l.
Proof.
  revert i. induction l as [|b l IH]; intros i Hi; simpl in Hi; [lia|].
  destruct i as [|i].
  - exists b. split; reflexivity.
  - destruct (IH i) as [a [Hn Hs]]; [lia|].
    exists a. split; [exact Hn | exact Hs].
Qed.

(** The ids at [d] consecutive indices from [i] on are the ids of the [d]
    vertices after the first [i]. *)
Lemma ids_run (pts : list Point) (d : nat) :
  forall i : nat,
    (i + d <= List.length pts)%nat ->
    map (idAt pts) (map (fun k => Z.of_nat i + Z.of_nat k) (seq 0 d))
    = map pt_id (firstn d (skipn i pts)).
Proof.
  induction d as [|d IH]; intros i Hi; [reflexivity|].
  destruct (skipn_cons_nth pts i) as [a [Hn Hs]]; [lia|].
  rewrite Hs. simpl seq. rewrite <- seq_shift. cbn [map firstn].
  f_equal.
  - unfold idAt. replace (Z.to_nat (Z.of_nat i + Z.of_nat 0)) with i by lia.
    rewrite Hn. reflexivity.
  - rewrite <- (IH (S i)) by lia. rewrite !map_map. apply map_ext.
    intros k. f_equal. lia.
Qed.

Lemma rev_map_seq {A : Type} (g : nat -> A) (d : nat) :
  rev (map g (seq 0 d)) = map (fun k => g (d - 1 - k)%nat) (seq 0 d).
Proof.
  induction d as [|d IH]; [reflexivity|].
  rewrite seq_S at 1. rewrite map_app, rev_app_distr. simpl rev.
  simpl seq. rewrite <- seq_shift. cbn [map app]. f_equal.
  - f_equal. lia.
  - rewrite IH, map_map. apply map_ext_in. intros k Hk.
    apply in_seq in Hk. f_equal. lia.
Qed.

Lemma three_parts {A : Type} (l : list A) (s e : Z) :
  0 <= s -> s < e -> e < Z.of_nat (List.length l) ->
  l = upThrough s l ++ between s e l ++ fromIndex e l.
Proof.
  intros Hs Hse He. unfold upThrough, between, fromIndex.
  rewrite <- (firstn_skipn (Z.to_nat (s + 1)) l) at 1. f_equal.
  rewrite <- (firstn_skipn (Z.to_nat (e - s - 1))
                (skipn (Z.to_nat (s + 1)) l)) at 1.
  f_equal. rewrite skipn_skipn. f_equal. lia.
Qed.

Lemma commit_enters_replace (fresh : string) (st : AppStateData)
    (pe : PendingEdit) (startId endId : string) :
  pendingEdit st = Some pe -> pe_type pe = EditReplace ->
  startAnchorId pe = Some startId -> endAnchorId pe = Some endId ->
  startId <> "" -> endId <> "" ->
  reduce fresh st COMMIT_EDIT = commitReplace st pe startId endId.
Proof.
  intros Hpe Hty Hs He Hsn Hen. cbn [reduce].
  rewrite Hpe, Hty, Hs, He. unfold truthy.
  destruct (String.eqb_spec startId ""); [contradiction|].
  destruct (String.eqb_spec endId ""); [contradiction|].
  reflexivity.
Qed.

(** X9.  A replacement with two non-empty anchor ids whose forward arc is
    chosen and does not cross the end of the array (start anchor at index
    [s], end anchor at a later index [e], the vertices between them no
    more than those outside): the
    boundary is the vertices up to the start anchor, the vertices strictly
    between the anchors, and those from the end anchor on;
    [findReplacedPointIds] announces exactly the ids of the middle part, in
    order; and [COMMIT_EDIT] puts the draft, in order, in place of that
    middle part. *)
Theorem commit_forward_arc (fresh : string) (st : AppStateData)
    (pe : PendingEdit) (startId endId : string) (s e : Z) :
  pendingEdit st = Some pe -> pe_type pe = EditReplace ->
  startAnchorId pe = Some startId -> endAnchorId pe = Some endId ->
  startId <> "" -> endId <> "" ->
  findIndex (fun p => String.eqb (pt_id p) startId) (points (coastline st)) = s ->
  findIndex (fun p => String.eqb (pt_id p) endId) (points (coastline st)) = e ->
  0 <= s -> s < e ->
  2 * (e - s - 1) <= Z.of_nat (List.length (points (coastline st))) - 2 ->
  points (coastline st)
  = upThrough s (points (coastline st))
    ++ between s e (points (coastline st))
    ++ fromIndex e (points (coastline st))
  /\ findReplacedPointIds (points (coastline st)) startId endId
     = map pt_id (between s e (points (coastline st)))
  /\ points (coastline (reduce fresh st COMMIT_EDIT))
     = upThrough s (points (coastline st))
       ++ pe_points pe
       ++ fromIndex e (points (coastline st)).
Proof.
  intros Hpe Hty Hsa Hea Hsn Hen Hs He H0 Hse Hshort.
  set (pts := points (coastline st)) in *.
  set (n := Z.of_nat (List.length pts)) in *.
  destruct (findIndex_range (fun p => String.eqb (pt_id p) endId) pts)
    as [E|Re]; [lia|].
  rewrite He in Re. fold n in Re.
  assert (0 <= s < n) as Rs by lia.
  pose proof (pathCW_elements n e Re s Rs) as Hcw.
  pose proof (pathCCW_elements n e Re s Rs) as Hccw.
  pose proof (stepCCW_range n s Rs) as Rccw.
  rewrite stepCW_val in Hcw by exact Rs.
  destruct (Z.ltb_spec (s + 1) n) as [_|?]; [|lia].
  assert (distCW n (s + 1) e = e - s - 1) as Dcw
    by (unfold distCW; case_cmp; lia).
  assert (distCCW n (stepCCW n s) e = n - 2 - (e - s - 1)) as Dccw.
  { rewrite stepCCW_val by exact Rs. unfold distCCW. case_cmp; lia. }
  rewrite Dcw in Hcw. rewrite Dccw in Hccw.
  assert (useCW (forwardFrom n (s + 1) (Z.to_nat (e - s - 1)))
            (backwardFrom n (stepCCW n s)
               (Z.to_nat (n - 2 - (e - s - 1)))) = true) as Huse.
  { unfold useCW. rewrite length_forwardFrom, length_backwardFrom.
    apply Nat.leb_le. lia. }
  assert ((s =? -1) || (e =? -1) = false) as Hfound.
  { destruct (Z.eqb_spec s (-1)); [lia|].
    destruct (Z.eqb_spec e (-1)); [lia|]. reflexivity. }
  split; [apply three_parts; lia|]. split.
  - unfold findReplacedPointIds. fold pts n. rewrite Hs, He, Hfound.
    rewrite Hcw, Hccw, Huse.
    rewrite forwardFrom_plain by lia.
    rewrite (map_ext (fun k : nat => s + 1 + Z.of_nat k)
               (fun k : nat => Z.of_nat (Z.to_nat (s + 1)) + Z.of_nat k))
      by (intros; lia).
    rewrite ids_run by lia. reflexivity.
  - rewrite (commit_enters_replace fresh st pe startId endId) by assumption.
    unfold commitReplace. fold pts n. rewrite Hs, He, Hfound.
    rewrite Hcw, Hccw, Huse. reflexivity.
Qed.

Lemma commit_forward_arc_witness :
  points (coastline
            (closedState boundaryABCDE
               (Some (replaceEdit "A" "C" [vertex "X"; vertex "Y"]))))
  = upThrough 0 boundaryABCDE ++ between 0 2 boundaryABCDE
    ++ fromIndex 2 boundaryABCDE
  /\ findReplacedPointIds boundaryABCDE "A" "C"
     = map pt_id (between 0 2 boundaryABCDE)
  /\ points (coastline
               (reduce ""
                  (closedState boundaryABCDE
                     (Some (replaceEdit "A" "C" [vertex "X"; vertex "Y"])))
                  COMMIT_EDIT))
     = upThrough 0 boundaryABCDE ++ [vertex "X"; vertex "Y"]
       ++ fromIndex 2 boundaryABCDE.
Proof.
  apply (commit_forward_arc ""
           (closedState boundaryABCDE
              (Some (replaceEdit "A" "C" [vertex "X"; vertex "Y"])))
           (replaceEdit "A" "C" [vertex "X"; vertex "Y"]) "A" "C" 0 2);
    try reflexivity; try discriminate; simpl; lia.
Defined.

(** X10.  A replacement with two non-empty anchor ids whose backward arc
    is chosen and does not cross the end of the array (end anchor at index
    [e], start anchor at a later index [s], the vertices between them
    fewer than those outside):
    [findReplacedPointIds] announces the ids of the vertices strictly
    between the anchors, from the start anchor backwards, and
    [COMMIT_EDIT] puts the draft, reversed, in place of these vertices. *)
Theorem commit_backward_arc (fresh : string) (st : AppStateData)
    (pe : PendingEdit) (startId endId : string) (s e : Z) :
  pendingEdit st = Some pe -> pe_type pe = EditReplace ->
  startAnchorId pe = Some startId -> endAnchorId pe = Some endId ->
  startId <> "" -> endId <> "" ->
  findIndex (fun p => String.eqb (pt_id p) startId) (points (coastline st)) = s ->
  findIndex (fun p => String.eqb (pt_id p) endId) (points (coastline st)) = e ->
  0 <= e -> e < s ->
  2 * (s - e - 1) < Z.of_nat (List.length (points (coastline st))) - 2 ->
  points (coastline st)
  = upThrough e (points (coastline st))
    ++ between e s (points (coastline st))
    ++ fromIndex s (points (coastline st))
  /\ findReplacedPointIds (points (coastline st)) startId endId
     = rev (map pt_id (between e s (points (coastline st))))
  /\ points (coastline (reduce fresh st COMMIT_EDIT))
     = upThrough e (points (coastline st))
       ++ rev (pe_points pe)
       ++ fromIndex s (points (coastline st)).
Proof.
  intros Hpe Hty Hsa Hea Hsn Hen Hs He H0 Hes Hshort.
  set (pts := points (coastline st)) in *.
  set (n := Z.of_nat (List.length pts)) in *.
  destruct (findIndex_range (fun p => String.eqb (pt_id p) startId) pts)
    as [E|Rs]; [lia|].
  rewrite Hs in Rs. fold n in Rs.
  assert (0 <= e < n) as Re by lia.
  pose proof (pathCW_elements n e Re s Rs) as Hcw.
  pose proof (pathCCW_elements n e Re s Rs) as Hccw.
  pose proof (stepCW_range n s Rs) as Rcw.
  rewrite stepCCW_val in Hccw by exact Rs.
  destruct (Z.ltb_spec 0 s) as [_|?]; [|lia].
  assert (distCCW n (s - 1) e = s - e - 1) as Dccw
    by (unfold distCCW; case_cmp; lia).
  assert (distCW n (stepCW n s) e = n - 2 - (s - e - 1)) as Dcw.
  { rewrite stepCW_val by exact Rs. unfold distCW. case_cmp; lia. }
  rewrite Dcw in Hcw. rewrite Dccw in Hccw.
  assert (useCW (forwardFrom n (stepCW n s)
                   (Z.to_nat (n - 2 - (s - e - 1))))
            (backwardFrom n (s - 1) (Z.to_nat (s - e - 1))) = false)
    as Huse.
  { unfold useCW. rewrite length_forwardFrom, length_backwardFrom.
    apply Nat.leb_gt. lia. }
  assert ((s =? -1) || (e =? -1) = false) as Hfound.
  { destruct (Z.eqb_spec s (-1)); [lia|].
    destruct (Z.eqb_spec e (-1)); [lia|]. reflexivity. }
  split; [apply three_parts; lia|]. split.
  - unfold findReplacedPointIds. fold pts n. rewrite Hs, He, Hfound.
    rewrite Hcw, Hccw, Huse.
    rewrite backwardFrom_plain by lia.
    unfold between.
    replace (Z.to_nat (e + 1)) with (Z.to_nat (e + 1) + 0)%nat by lia.
    rewrite <- (ids_run pts (Z.to_nat (s - e - 1)) (Z.to_nat (e + 1) + 0))
      by lia.
    rewrite <- map_rev, rev_map_seq. rewrite !map_map.
    apply map_ext_in. intros k Hk. apply in_seq in Hk. f_equal. lia.
  - rewrite (commit_enters_replace fresh st pe startId endId) by assumption.
    unfold commitReplace. fold pts n. rewrite Hs, He, Hfound.
    rewrite Hcw, Hccw, Huse. reflexivity.
Qed.

Lemma commit_backward_arc_witness :
  points (coastline
            (closedState boundaryABCDE
               (Some (replaceEdit "D" "B" [vertex "X"; vertex "Y"]))))
  = upThrough 1 boundaryABCDE ++ between 1 3 boundaryABCDE
    ++ fromIndex 3 boundaryABCDE
  /\ findReplacedPointIds boundaryABCDE "D" "B"
     = rev (map pt_id (between 1 3 boundaryABCDE))
  /\ points (coastline
               (reduce ""
                  (closedState boundaryABCDE
                     (Some (replaceEdit "D" "B" [vertex "X"; vertex "Y"])))
                  COMMIT_EDIT))
     = upThrough 1 boundaryABCDE ++ rev [vertex "X"; vertex "Y"]
       ++ fromIndex 3 boundaryABCDE.
Proof.
  apply (commit_backward_arc ""
           (closedState boundaryABCDE
              (Some (replaceEdit "D" "B" [vertex "X"; vertex "Y"])))
           (replaceEdit "D" "B" [vertex "X"; vertex "Y"]) "D" "B" 3 1);
    try reflexivity; try discriminate; simpl; lia.
Defined.

(** * Properties of the coastline handlers *)

Lemma with_pendingEdit_twice (v w : option PendingEdit) (s : AppStateData) :
  with_pendingEdit v (with_pendingEdit w s) = with_pendingEdit v s.
Proof. reflexivity. Qed.

Lemma with_pendingEdit_same (s : AppStateData) :
  with_pendingEdit (pendingEdit s) s = s.
Proof. destruct s. reflexivity. Qed.

(** Clicks on empty map during an edit only extend the draft. *)
Lemma clicks_accumulate (anchorId : string)
    (clicks : list (string * number * number)) :
  anchorId <> "" ->
  forall (st : AppState) (draft : list Point),
    isClosed (coastline (state st)) = true ->
    pendingEdit (state st)
    = Some (mkPendingEdit EditReplace draft (Some anchorId) None None) ->
    state (fold_left clickEmpty clicks st)
    = with_pendingEdit
        (Some (mkPendingEdit EditReplace (draft ++ draftOf clicks)
                 (Some anchorId) None None))
        (state st).
Proof.
  intros Hid. induction clicks as [|[[f x] y] clicks IH]; intros st draft Hc Hpe.
  - simpl. rewrite app_nil_r, <- Hpe. symmetry. apply with_pendingEdit_same.
  - cbn [fold_left].
    assert (clickEmpty st (f, x, y) = dispatch f (ADD_POINT x y) st) as Hstep.
    { unfold clickEmpty, handleAddModeClick, getState. cbn [fst snd].
      rewrite Hpe. cbn [startAnchorId endAnchorId]. unfold truthy.
      destruct (String.eqb_spec anchorId ""); [contradiction|]. reflexivity. }
    assert (state (dispatch f (ADD_POINT x y) st)
            = with_pendingEdit
                (Some (mkPendingEdit EditReplace (draft ++ [mkPoint x y f])
                         (Some anchorId) None None))
                (state st)) as Hs.
    { rewrite dispatch_state. cbn [reduce]. rewrite Hc, Hpe. reflexivity. }
    rewrite Hstep.
    rewrite (IH (dispatch f (ADD_POINT x y) st) (draft ++ [mkPoint x y f])).
    + rewrite Hs, with_pendingEdit_twice. unfold draftOf. simpl.
      rewrite <- app_assoc. reflexivity.
    + rewrite Hs. exact Hc.
    + rewrite Hs. reflexivity.
Qed.

(** X11.  The replacement protocol, click by click.  On a closed coastline
    with no pending edit, a click on a vertex [a], any number of clicks on
    empty map, then a click on a vertex [b] with another id (both ids
    non-empty) leave everything but the pending edit untouched and build
    the pending edit whose draft is the clicked positions in order, each
    under the id [generateId] returned, whose anchors are [a] and [b], and
    whose replaced ids are what [findReplacedPointIds] computes on the
    boundary; after that, further clicks in this sub-mode do nothing; and
    a second click on [a] before [b] is chosen cancels the edit, giving
    back the state from before the first click. *)
Theorem replace_protocol (st : AppState) (a b : Point)
    (f0 f1 f2 : string) (x0 y0 x1 y1 x2 y2 : number)
    (clicks : list (string * number * number)) :
  pendingEdit (state st) = None ->
  isClosed (coastline (state st)) = true ->
  pt_id a <> "" -> pt_id b <> "" -> pt_id b <> pt_id a ->
  state
    (handleAddModeClick f1 x1 y1 (Some b)
       (fold_left clickEmpty clicks
          (handleAddModeClick f0 x0 y0 (Some a) st)))
  = with_pendingEdit
      (Some (mkPendingEdit EditReplace (draftOf clicks) (Some (pt_id a))
               (Some (pt_id b))
               (Some (findReplacedPointIds (points (coastline (state st)))
                        (pt_id a) (pt_id b)))))
      (state st)
  /\ (forall clicked : option Point,
         handleAddModeClick f2 x2 y2 clicked
           (handleAddModeClick f1 x1 y1 (Some b)
              (fold_left clickEmpty clicks
                 (handleAddModeClick f0 x0 y0 (Some a) st)))
         = handleAddModeClick f1 x1 y1 (Some b)
             (fold_left clickEmpty clicks
                (handleAddModeClick f0 x0 y0 (Some a) st)))
  /\ state
       (handleAddModeClick f1 x1 y1 (Some a)
          (fold_left clickEmpty clicks
             (handleAddModeClick f0 x0 y0 (Some a) st)))
     = state st.
Proof.
  intros Hnone Hclosed Ha Hb Hab.
  set (st1 := handleAddModeClick f0 x0 y0 (Some a) st).
  assert (state st1
          = with_pendingEdit
              (Some (mkPendingEdit EditReplace [] (Some (pt_id a)) None None))
              (state st)) as H1.
  { unfold st1, handleAddModeClick, getState. rewrite Hnone. reflexivity. }
  pose proof (clicks_accumulate (pt_id a) clicks Ha st1 []) as H2.
  rewrite H1 in H2. specialize (H2 Hclosed eq_refl).
  rewrite with_pendingEdit_twice in H2. simpl app in H2.
  set (st2 := fold_left clickEmpty clicks st1) in *.
  assert (handleAddModeClick f1 x1 y1 (Some b) st2
          = dispatch f1
              (SET_PENDING_EDIT
                 (Some (mkPendingEdit EditReplace (draftOf clicks)
                          (Some (pt_id a)) (Some (pt_id b))
                          (Some (findReplacedPointIds
                                   (points (coastline (state st)))
                                   (pt_id a) (pt_id b)))))) st2) as H3.
  { unfold handleAddModeClick, getState. rewrite H2.
    cbn [with_pendingEdit pendingEdit coastline].
    cbn [startAnchorId endAnchorId pe_type pe_points]. unfold truthy.
    destruct (String.eqb_spec (pt_id a) ""); [contradiction|].
    destruct (String.eqb_spec (pt_id b) (pt_id a)); [contradiction|].
    reflexivity. }
  rewrite H3. split; [|split].
  - rewrite dispatch_state. cbn [reduce]. rewrite H2.
    apply with_pendingEdit_twice.
  - intros clicked. unfold handleAddModeClick at 1. unfold getState.
    rewrite dispatch_state. cbn [reduce with_pendingEdit pendingEdit].
    cbn [startAnchorId endAnchorId]. unfold truthy.
    destruct (String.eqb_spec (pt_id a) ""); [contradiction|].
    destruct (String.eqb_spec (pt_id b) ""); [contradiction|].
    reflexivity.
  - unfold handleAddModeClick, getState. rewrite H2.
    cbn [with_pendingEdit pendingEdit].
    cbn [startAnchorId endAnchorId]. unfold truthy.
    destruct (String.eqb_spec (pt_id a) ""); [contradiction|].
    rewrite String.eqb_refl. cbn [negb andb].
    rewrite dispatch_state, H2. cbn [reduce].
    rewrite with_pendingEdit_twice, <- Hnone.
    apply with_pendingEdit_same.
Qed.

Lemma replace_protocol_witness :
  state
    (handleAddModeClick "" 0 0 (Some (vertex "C"))
       (fold_left clickEmpty
          [("k3x9q0a7m", Num 4, Num 5); ("p0o9i8u7y", Num 6, Num 7)]
          (handleAddModeClick "" 0 0 (Some (vertex "A"))
             (newAppState (Some (closedState boundaryABCDE None))))))
  = with_pendingEdit
      (Some (mkPendingEdit EditReplace
               (draftOf [("k3x9q0a7m", Num 4, Num 5); ("p0o9i8u7y", Num 6, Num 7)])
               (Some "A") (Some "C")
               (Some (findReplacedPointIds boundaryABCDE "A" "C"))))
      (closedState boundaryABCDE None).
Proof.
  apply (replace_protocol
           (newAppState (Some (closedState boundaryABCDE None)))
           (vertex "A") (vertex "C") "" "" "" 0 0 0 0 0 0
           [("k3x9q0a7m", Num 4, Num 5); ("p0o9i8u7y", Num 6, Num 7)]);
    try reflexivity; discriminate.
Defined.

(** ** What the handlers keep true *)

Lemma commit_clears_or_keeps (fresh : string) (s : AppStateData) :
  (pendingEdit (reduce fresh s COMMIT_EDIT) = None
   \/ reduce fresh s COMMIT_EDIT = s)
  /\ (match pendingEdit s with
      | Some pe => pe_type pe = EditReplace
      | None => True
      end ->
      isClosed (coastline (reduce fresh s COMMIT_EDIT))
      = isClosed (coastline s)).
Proof.
  cbn [reduce]. unfold commitReplace.
  destruct (pendingEdit s) as [pe|]; [|split; [right|]; reflexivity].
  destruct (pe_type pe); [split; [left; reflexivity | discriminate]|].
  repeat match goal with
         | |- context [match ?x with _ => _ end] => destruct x
         end;
    (split; [first [left; reflexivity | right; reflexivity] | reflexivity]).
Qed.

Lemma submode_kept (fresh : string) (s : AppStateData) (a : Action) :
  isCoastlineAction a = true ->
  coastlineSubMode (reduce fresh s a) = coastlineSubMode s.
Proof.
  intros Ha. pose proof (coastline_action_frame fresh s a Ha) as F.
  apply (f_equal coastlineSubMode) in F. exact F.
Qed.

Lemma allowed_keeps_edit (rm : bool) (fresh : string) (s : AppStateData)
    (a : Action) :
  editWellFormed s -> allowed rm s a -> editWellFormed (reduce fresh s a).
Proof.
  intros Hwf Ha. destruct a; try contradiction Ha.
  - exact Hwf.
  - unfold editWellFormed in *. cbn [reduce allowed] in *.
    destruct (isClosed (coastline s)) eqn:Hc.
    + destruct (pendingEdit s) as [pe|] eqn:Hpe.
      * simpl. rewrite Hc. destruct Hwf as [H1 [H2 _]]. auto.
      * destruct Ha as [Ha|Ha]; [discriminate Ha|].
        exfalso. apply Ha. reflexivity.
    + simpl. destruct (pendingEdit s) as [pe|] eqn:Hpe; [|exact I].
      destruct Hwf as [_ [_ H3]]. discriminate H3.
  - unfold editWellFormed in *. simpl.
    destruct (pendingEdit s) as [pe|] eqn:Hpe; [|exact I].
    destruct Hwf as [H1 [H2 _]]. auto.
  - destruct pe as [pe|]; [|contradiction Ha].
    unfold editWellFormed. simpl. exact Ha.
  - destruct (commit_clears_or_keeps fresh s) as [[H|H] _].
    + unfold editWellFormed. rewrite H. exact I.
    + rewrite H. exact Hwf.
  - unfold editWellFormed. simpl. exact I.
  - exact Hwf.
  - exact Hwf.
Qed.

Lemma allowed_keeps_drawing (fresh : string) (s : AppStateData) (a : Action) :
  drawingInv s -> allowed false s a -> drawingInv (reduce fresh s a).
Proof.
  intros [H3 [Hwf Hsub]] Ha.
  split; [|split; [exact (allowed_keeps_edit false fresh s a Hwf Ha)|]].
  - unfold closedHasThree in *. destruct a; try contradiction Ha.
    + exact H3.
    + cbn [reduce]. destruct (isClosed (coastline s)) eqn:Hc.
      * simpl. rewrite Hc. exact H3.
      * simpl. rewrite Hc. discriminate.
    + simpl. intros _. exact Ha.
    + destruct pe; [exact H3 | contradiction Ha].
    + destruct (commit_clears_or_keeps fresh s) as [_ Hclosed].
      rewrite Hclosed.
      * intros Hc. specialize (H3 Hc).
        pose proof (commit_length_bound fresh s H3). lia.
      * unfold editWellFormed in Hwf.
        destruct (pendingEdit s); [apply Hwf | exact I].
    + exact H3.
    + discriminate Ha.
    + simpl. rewrite length_map. exact H3.
  - destruct a; try contradiction Ha; try exact Hsub.
    + simpl. destruct Ha as [Ha|Ha]; [discriminate | exact Ha].
    + rewrite (submode_kept fresh s (ADD_POINT x y) eq_refl). exact Hsub.
    + rewrite (submode_kept fresh s COMMIT_EDIT eq_refl). exact Hsub.
Qed.

(** The deep copy keeps the shape of a snapshot: it changes numbers only. *)
Lemma editWellFormed_deepClone (s : AppStateData) :
  editWellFormed s -> editWellFormed (deepClone s).
Proof.
  unfold editWellFormed, deepClone. cbn.
  destruct (pendingEdit s) as [pe|]; cbn; intros H; exact H.
Qed.

Lemma drawingInv_deepClone (s : AppStateData) :
  drawingInv s -> drawingInv (deepClone s).
Proof.
  intros [H3 [Hwf Hsub]]. split; [|split].
  - unfold closedHasThree, deepClone in *. cbn. rewrite length_map. exact H3.
  - apply editWellFormed_deepClone. exact Hwf.
  - exact Hsub.
Qed.

Lemma dispatch_storeAll (P : AppStateData -> Prop) (fresh : string)
    (a : Action) (st : AppState) :
  (forall s, P s -> P (deepClone s)) ->
  storeAll P st -> P (reduce fresh (state st) a) ->
  storeAll P (dispatch fresh a st).
Proof.
  intros Hclone [Hs Hh] Hr. split; [exact Hr|].
  unfold dispatch. cbn [history].
  destruct (negb (String.eqb (actionType a) "UNDO")); [|exact Hh].
  rewrite pushHistory_cases.
  apply Forall_app. split; [|repeat constructor; apply Hclone; exact Hs].
  destruct (List.length (history st) <? maxHistory)%nat; [exact Hh|].
  destruct (history st) as [|z h]; [exact Hh|].
  inversion Hh; assumption.
Qed.

Lemma undo_storeAll (P : AppStateData -> Prop) (st : AppState) :
  storeAll P st -> storeAll P (snd (undo st)).
Proof.
  intros [Hs Hh]. unfold undo.
  destruct (pop (history st)) as [[h p]|] eqn:E; [|split; assumption].
  apply pop_some_inv in E. rewrite E in Hh. apply Forall_app in Hh.
  destruct Hh as [Hh Hp]. inversion Hp; subst. split; assumption.
Qed.

Lemma reach_storeAll (P : AppStateData -> Prop) (rm : bool) :
  (forall s, P s -> P (deepClone s)) ->
  (forall fresh s a, P s -> allowed rm s a -> P (reduce fresh s a)) ->
  forall st st', uiReach rm st st' -> storeAll P st -> storeAll P st'.
Proof.
  intros Hclone Hstep st st' Hreach.
  induction Hreach as [st|st st' fresh a Ha _ IH|st st' _ IH]; intros Hall.
  - exact Hall.
  - apply IH. apply dispatch_storeAll; [exact Hclone | exact Hall|].
    apply Hstep; [apply Hall | exact Ha].
  - apply IH. apply undo_storeAll. exact Hall.
Qed.

(** Every handler and control does nothing, undoes, or makes dispatches
    that are [allowed] in the state it finds. *)
Lemma uiStep_reach (rm : bool) (ev : UiEvent) (ui : CoastlineMode * AppState) :
  rm = true
  \/ (noRemoveEv ev /\ coastlineSubMode (state (snd ui)) <> sub_remove) ->
  editWellFormed (state (snd ui)) ->
  uiReach rm (snd ui) (snd (uiStep ev ui)).
Proof.
  intros Hrm Hwf. destruct ui as [cm st]. cbn [snd fst] in *.
  assert (forall fresh a, allowed rm (state st) a ->
                          uiReach rm st (dispatch fresh a st)) as One.
  { intros fresh a Ha. apply (reach_dispatch rm st _ fresh a Ha).
    apply reach_here. }
  destruct ev as [fresh x y near|pointId|fresh x y| |fresh|fresh|fresh value|];
    cbn [uiStep snd fst].
  - unfold handleMapClick, getState.
    destruct (isClosed (coastline (state st))) eqn:Hc.
    + unfold handleEditClick, getState.
      destruct (coastlineSubMode (state st)) eqn:Hsub.
      * unfold handleAddModeClick, getState.
        destruct (pendingEdit (state st)) as [pe|] eqn:Hpe.
        -- unfold editWellFormed in Hwf. rewrite Hpe in Hwf.
           destruct Hwf as [Hty [Hstart _]].
           destruct (startAnchorId pe) as [startId|] eqn:Hs;
             [|apply reach_here].
           destruct (truthy (Some startId) && negb (truthy (endAnchorId pe)));
             [|apply reach_here].
           destruct (getPointAtLocation near st) as [p|].
           ++ destruct (negb (String.eqb (pt_id p) startId)).
              ** apply One. simpl.
                 repeat split; [exact Hty | discriminate | exact Hc].
              ** apply One. exact I.
           ++ apply One. right. rewrite Hpe. discriminate.
        -- destruct (getPointAtLocation near st) as [p|]; [|apply reach_here].
           apply One. simpl. repeat split; [discriminate | exact Hc].
      * unfold handleRemoveModeClick, getState.
        destruct (getPointAtLocation near st) as [p|]; [|apply reach_here].
        destruct (List.length (points (coastline (state st))) <=? 3)%nat;
          [apply reach_here|].
        apply One. simpl. destruct Hrm as [Hrm|[_ Hrm]];
          [exact Hrm | contradiction].
      * apply reach_here.
    + destruct (coastlineSubMode (state st)); try apply reach_here.
      destruct (3 <=? List.length (points (coastline (state st))))%nat eqn:H3.
      * destruct (points (coastline (state st))) as [|firstPoint rest] eqn:Hp;
          [simpl in H3; discriminate|].
        cbn [andb]. destruct (near firstPoint).
        -- apply One. cbn [allowed]. rewrite Hp.
           apply Nat.leb_le. exact H3.
        -- apply One. left. exact Hc.
      * cbn [andb]. apply One. left. exact Hc.
  - unfold handleMouseDownOnPoint, getState.
    destruct (coastlineSubMode (state st)); try apply reach_here.
    destruct (isClosed (coastline (state st))); apply reach_here.
  - unfold handleMouseMove.
    destruct (draggingPointId cm) as [id|]; [|apply reach_here].
    destruct (truthy (Some id)); [|apply reach_here].
    apply One. exact I.
  - unfold handleMouseUp.
    destruct (truthy (draggingPointId cm)); apply reach_here.
  - apply One. exact I.
  - apply One. exact I.
  - apply (reach_dispatch rm st _ fresh (SET_COASTLINE_SUBMODE value)).
    + simpl. destruct Hrm as [Hrm|[Hrm _]]; [left | right]; exact Hrm.
    + apply (reach_dispatch rm _ _ fresh CANCEL_EDIT); [exact I|].
      apply reach_here.
  - apply reach_undo. apply reach_here.
Qed.

Lemma uiRun_snoc (evs : list UiEvent) (ev : UiEvent)
    (ui : CoastlineMode * AppState) :
  uiRun (evs ++ [ev]) ui = uiStep ev (uiRun evs ui).
Proof. unfold uiRun. rewrite fold_left_app. reflexivity. Qed.

Lemma uiRun_edits (evs : list UiEvent) (ui : CoastlineMode * AppState) :
  storeAll editWellFormed (snd ui) ->
  storeAll editWellFormed (snd (uiRun evs ui)).
Proof.
  intros H. induction evs as [|ev evs IH] using rev_ind; [exact H|].
  rewrite uiRun_snoc.
  apply (reach_storeAll editWellFormed true editWellFormed_deepClone
           (fun fresh s a => allowed_keeps_edit true fresh s a)
           (snd (uiRun evs ui))); [|exact IH].
  apply uiStep_reach; [left; reflexivity | apply IH].
Qed.

Lemma uiRun_drawing (evs : list UiEvent) (ui : CoastlineMode * AppState) :
  Forall noRemoveEv evs ->
  storeAll drawingInv (snd ui) ->
  storeAll drawingInv (snd (uiRun evs ui)).
Proof.
  intros Hev H. induction evs as [|ev evs IH] using rev_ind; [exact H|].
  apply Forall_app in Hev. destruct Hev as [Hevs Hev].
  inversion Hev as [|? ? Hev' _]; subst.
  specialize (IH Hevs). rewrite uiRun_snoc.
  apply (reach_storeAll drawingInv false drawingInv_deepClone
           allowed_keeps_drawing
           (snd (uiRun evs ui))); [|exact IH].
  apply uiStep_reach; [|apply IH].
  right. split; [exact Hev' | apply IH].
Qed.

(** X12.  Through the coastline handlers and controls (map clicks in any
    sub-mode, marker drags, the commit and cancel buttons, the sub-mode
    radios, undo) a new store never holds a pending edit other than a
    ['replace'] edit with its [startAnchorId] set, on a closed coastline:
    neither a draft edit nor the anchor-less edit that a bare [ADD_POINT]
    on a closed coastline would create is reachable this way, in the
    current state or in any snapshot of the history. *)
Theorem ui_edits_well_formed (evs : list UiEvent) (cm : CoastlineMode) :
  editWellFormed (state (snd (uiRun evs (cm, newAppState None))))
  /\ Forall editWellFormed
       (history (snd (uiRun evs (cm, newAppState None)))).
Proof.
  apply (uiRun_edits evs (cm, newAppState None)).
  split; [exact I | constructor].
Qed.

(** X13.  As long as the remove sub-mode is not selected, every state a new
    store reaches through the coastline handlers and controls (drawing,
    closing, replacing, committing, cancelling, dragging, undo) has an open
    coastline or a closed one of at least three vertices, and so has every
    snapshot of its history. *)
Theorem ui_closed_has_three (evs : list UiEvent) (cm : CoastlineMode) :
  Forall noRemoveEv evs ->
  closedHasThree (state (snd (uiRun evs (cm, newAppState None))))
  /\ Forall closedHasThree
       (history (snd (uiRun evs (cm, newAppState None)))).
Proof.
  intros Hev.
  destruct (uiRun_drawing evs (cm, newAppState None) Hev) as [Hs Hh].
  { split; [|constructor]. split; [|split].
    - intros H. discriminate H.
    - exact I.
    - discriminate. }
  split; [apply Hs|].
  apply Forall_impl with (P := drawingInv); [|exact Hh].
  intros s H. apply H.
Qed.

Lemma ui_closed_has_three_witness :
  closedHasThree
    (state
       (snd (uiRun
               [MapClick "a1" 0 0 (fun _ => false);
                MapClick "a2" 9 0 (fun _ => false);
                MapClick "a3" 9 9 (fun _ => false);
                MapClick "a4" 0 0 (fun p => String.eqb (pt_id p) "a1");
                SubModeRadio "" sub_move;
                UndoControl]
               (mkCoastlineMode true None, newAppState None))))
  /\ Forall closedHasThree
       (history
          (snd (uiRun
                  [MapClick "a1" 0 0 (fun _ => false);
                   MapClick "a2" 9 0 (fun _ => false);
                   MapClick "a3" 9 9 (fun _ => false);
                   MapClick "a4" 0 0 (fun p => String.eqb (pt_id p) "a1");
                   SubModeRadio "" sub_move;
                   UndoControl]
                  (mkCoastlineMode true None, newAppState None)))).
Proof.
  apply (ui_closed_has_three
           [MapClick "a1" 0 0 (fun _ => false);
            MapClick "a2" 9 0 (fun _ => false);
            MapClick "a3" 9 9 (fun _ => false);
            MapClick "a4" 0 0 (fun p => String.eqb (pt_id p) "a1");
            SubModeRadio "" sub_move;
            UndoControl]
           (mkCoastlineMode true None)).
  repeat constructor. simpl. discriminate.
Defined.

(** The remove sub-mode has to be left out of the invariant above.  Three
    replacements whose chosen arc crosses the end of the array repeat the
    ids of the boundary; [REMOVE_POINT] drops every vertex carrying the
    clicked id, and [handleRemoveModeClick] only looks at the length, so
    three removals empty a coastline that stays closed. *)
Example remove_submode_empties_closed :
  let draw f := MapClick f 0 0 (fun _ => false) in
  let click i := MapClick "" 0 0 (fun p => String.eqb (pt_id p) i) in
  let final :=
    state
      (snd (uiRun
              [draw "A"; draw "B"; draw "C"; click "A";
               click "A"; click "C"; CommitButton "";
               click "A"; click "C"; CommitButton "";
               click "A"; click "B"; CommitButton "";
               SubModeRadio "" sub_remove;
               click "B"; click "C"; click "A"]
              (mkCoastlineMode true None, newAppState None))) in
  points (coastline final) = [] /\ isClosed (coastline final) = true.
Proof. vm_compute. split; reflexivity. Qed.

(** ** Dragging a vertex *)

Lemma dispatchAll_app (l1 l2 : list (string * Action)) (st : AppState) :
  dispatchAll (l1 ++ l2) st = dispatchAll l2 (dispatchAll l1 st).
Proof.
  revert st. induction l1 as [|[f a] l1 IH]; intros st; simpl.
  - reflexivity.
  - apply IH.
Qed.

Lemma dragThrough_dispatchAll (fresh id : string) (cm : CoastlineMode)
    (moves : list (number * number)) :
  draggingPointId cm = Some id -> id <> "" ->
  forall st : AppState,
    dragThrough fresh moves (cm, st)
    = (cm, dispatchAll (dragActions fresh id moves) st).
Proof.
  intros Hd Hid. induction moves as [|[x y] moves IH]; intros st.
  - reflexivity.
  - unfold dragThrough in *. cbn [fold_left dragActions map dispatchAll].
    unfold handleMouseMove at 2. rewrite Hd. unfold truthy.
    destruct (String.eqb_spec id ""); [contradiction|]. cbn [negb fst snd].
    apply IH.
Qed.

Lemma drag_state_last (fresh id : string) (moves : list (number * number))
    (x y : number) :
  forall st : AppState,
    state (dispatchAll (dragActions fresh id (moves ++ [(x, y)])) st)
    = reduce fresh (state st) (MOVE_POINT id x y).
Proof.
  induction moves as [|[x0 y0] moves IH]; intros st.
  - reflexivity.
  - cbn [app dragActions map dispatchAll fst snd].
    unfold dragActions in IH. rewrite IH, dispatch_state.
    apply move_point_twice.
Qed.

Lemma dragActions_notUndo (fresh id : string) (moves : list (number * number)) :
  Forall notUndo (dragActions fresh id moves).
Proof.
  unfold dragActions. apply Forall_forall. intros fa H.
  apply in_map_iff in H. destruct H as [m [<- _]].
  unfold notUndo. simpl. discriminate.
Qed.

(** A move to coordinates the JSON round trip gives back as they are
    keeps the state free of [NaN], infinities and [-0]. *)
Lemma move_point_stable (fresh : string) (s : AppStateData) (id : string)
    (x y : number) :
  jsonStable s = true -> jsonExact x = true -> jsonExact y = true ->
  jsonStable (reduce fresh s (MOVE_POINT id x y)) = true.
Proof.
  intros Hs Hx Hy. unfold jsonStable in *. cbn.
  repeat (apply andb_true_iff in Hs; destruct Hs as [Hs ?]).
  repeat (apply andb_true_iff; split); try assumption.
  apply forallb_forall. intros p Hp. apply in_map_iff in Hp.
  destruct Hp as [q [<- Hq]].
  destruct (String.eqb (pt_id q) id).
  - unfold exactPoint. cbn. rewrite Hx, Hy. reflexivity.
  - apply (proj1 (forallb_forall _ _) Hs q Hq).
Qed.

(** X14.  A drag is one [MOVE_POINT] per mouse position.  While a vertex
    with a non-empty id is being dragged, after any number of mouse moves
    the state is the one a single move to the last position gives; but
    each mouse move is an undo step of its own: one [undo] only steps back
    to the deep copy of the state at the previous mouse position, and it
    takes as many undos as there were mouse moves (at most 50) to get back
    the deep copy of the state from before the drag.  These copies are the
    states themselves when the state from before the drag and the
    previous position hold no [NaN], infinity or [-0]. *)
Theorem drag_steps (fresh id : string) (cm : CoastlineMode) (st : AppState)
    (before : list (number * number)) (x1 y1 x2 y2 : number) :
  draggingPointId cm = Some id -> id <> "" ->
  state (snd (dragThrough fresh (before ++ [(x1, y1)]) (cm, st)))
  = reduce fresh (state st) (MOVE_POINT id x1 y1)
  /\ state
       (snd (handleMouseMove fresh x2 y2
               (dragThrough fresh (before ++ [(x1, y1)]) (cm, st))))
     = reduce fresh (state st) (MOVE_POINT id x2 y2)
  /\ state
       (snd (undo
               (snd (handleMouseMove fresh x2 y2
                       (dragThrough fresh (before ++ [(x1, y1)]) (cm, st))))))
     = deepClone (reduce fresh (state st) (MOVE_POINT id x1 y1))
  /\ (jsonStable (state st) = true ->
      jsonExact x1 = true -> jsonExact y1 = true ->
      state
        (snd (undo
                (snd (handleMouseMove fresh x2 y2
                        (dragThrough fresh (before ++ [(x1, y1)]) (cm, st))))))
      = reduce fresh (state st) (MOVE_POINT id x1 y1))
  /\ ((List.length before + 2 <= maxHistory)%nat ->
      state
        (snd (undoN (List.length before + 2)
                (snd (handleMouseMove fresh x2 y2
                        (dragThrough fresh (before ++ [(x1, y1)]) (cm, st))))))
      = deepClone (state st)
      /\ (jsonStable (state st) = true ->
          state
            (snd (undoN (List.length before + 2)
                    (snd (handleMouseMove fresh x2 y2
                            (dragThrough fresh (before ++ [(x1, y1)])
                               (cm, st))))))
          = state st)).
Proof.
  intros Hd Hid.
  rewrite (dragThrough_dispatchAll fresh id cm _ Hd Hid). cbn [snd].
  set (st1 := dispatchAll (dragActions fresh id (before ++ [(x1, y1)])) st).
  assert (state st1 = reduce fresh (state st) (MOVE_POINT id x1 y1)) as H1
    by apply drag_state_last.
  assert (handleMouseMove fresh x2 y2 (cm, st1)
          = (cm, dispatch fresh (MOVE_POINT id x2 y2) st1)) as H2.
  { unfold handleMouseMove. rewrite Hd. unfold truthy.
    destruct (String.eqb_spec id ""); [contradiction|]. reflexivity. }
  rewrite H2. cbn [snd].
  assert (state (snd (undo (dispatch fresh (MOVE_POINT id x2 y2) st1)))
          = deepClone (reduce fresh (state st) (MOVE_POINT id x1 y1))) as H3.
  { assert (history (dispatch fresh (MOVE_POINT id x2 y2) st1)
            = (if (List.length (history st1) <? maxHistory)%nat
               then history st1 else tl (history st1))
              ++ [deepClone (state st1)]) as Hh.
    { rewrite dispatch_history by (simpl; discriminate).
      apply pushHistory_cases. }
    rewrite (undo_snoc _ _ _ Hh). cbn [snd state]. rewrite H1. reflexivity. }
  split; [exact H1|]. split; [|split; [exact H3|split]].
  - rewrite dispatch_state, H1. apply move_point_twice.
  - intros Hs Hx Hy. rewrite H3.
    apply deepClone_stable, move_point_stable; assumption.
  - intros Hlen.
    assert (dispatch fresh (MOVE_POINT id x2 y2) st1
            = dispatchAll
                (dragActions fresh id ((before ++ [(x1, y1)]) ++ [(x2, y2)]))
                st) as Hall.
    { unfold dragActions. rewrite map_app, dispatchAll_app. reflexivity. }
    rewrite Hall.
    set (acts := dragActions fresh id ((before ++ [(x1, y1)]) ++ [(x2, y2)])).
    assert (List.length acts = (List.length before + 2)%nat) as Hacts.
    { unfold acts, dragActions. rewrite length_map, !length_app. simpl. lia. }
    destruct (dispatchAll_history acts (dragActions_notUndo _ _ _) st
                (history st) []) as [pre Hh];
      [rewrite app_nil_r; reflexivity | simpl; lia |].
    simpl in Hh.
    destruct (undoN_pops (map deepClone (statesBefore acts (state st)))
                (dispatchAll acts st) pre Hh) as [_ [Hs _]].
    rewrite length_map, length_statesBefore, Hacts in Hs. rewrite Hs.
    assert (hd (state (dispatchAll acts st))
              (map deepClone (statesBefore acts (state st)))
            = deepClone (state st)) as Hhd.
    { unfold acts, dragActions. destruct before; reflexivity. }
    rewrite Hhd. split; [reflexivity|]. apply deepClone_stable.
Qed.

Lemma drag_steps_witness :
  state
    (snd (undo
            (snd (handleMouseMove "" 3 3
                    (dragThrough "" ([(Num 1, Num 1)] ++ [(Num 2, Num 2)])
                       (mkCoastlineMode true (Some "B"),
                        newAppState (Some (closedState boundary3 None))))))))
  = reduce "" (state (newAppState (Some (closedState boundary3 None))))
      (MOVE_POINT "B" 2 2)
  /\ state
       (snd (undoN (List.length [(Num 1, Num 1)] + 2)
               (snd (handleMouseMove "" 3 3
                       (dragThrough "" ([(Num 1, Num 1)] ++ [(Num 2, Num 2)])
                          (mkCoastlineMode true (Some "B"),
                           newAppState (Some (closedState boundary3 None))))))))
     = state (newAppState (Some (closedState boundary3 None))).
Proof.
  destruct (drag_steps "" "B" (mkCoastlineMode true (Some "B"))
              (newAppState (Some (closedState boundary3 None)))
              [(Num 1, Num 1)] 2 2 3 3) as [_ [_ [_ [H4 H5]]]].
  - reflexivity.
  - discriminate.
  - split.
    + apply H4; reflexivity.
    + apply H5; [unfold maxHistory; simpl; lia | reflexivity].
Defined.

(** * Roads, settlement markers, saving and loading *)






(** ** Saving and loading *)

Lemma allSome_map {A B : Type} (f : A -> option B) (g : A -> B) (l : list A) :
  (forall a, f a = Some (g a)) -> allSome (map f l) = Some (map g l).
Proof.
  intros H. induction l as [|a l IH]; cbn; [reflexivity|].
  rewrite H, IH. reflexivity.
Qed.

Lemma asNumber_numberToJson (v : number) :
  asNumber (numberToJson v) = Some (jsonNumber v).
Proof. destruct v; reflexivity. Qed.

Lemma asPoint_pointToJson (p : Point) :
  asPoint (pointToJson p) = Some (clonePoint p).
Proof.
  unfold asPoint, pointToJson. cbn.
  rewrite !asNumber_numberToJson. reflexivity.
Qed.

Lemma asTowerType_name (t : TowerType) :
  asTowerType (JString (towerTypeName t)) = Some t.
Proof. destruct t; reflexivity. Qed.

Lemma asTower_towerToJson (t : Tower) :
  asTower (towerToJson t) = Some (cloneTower t).
Proof.
  unfold asTower, towerToJson.
  cbn [getProp fold_left fst snd String.eqb Ascii.eqb Bool.eqb bind].
  rewrite asTowerType_name, !asNumber_numberToJson. reflexivity.
Qed.

Lemma asSettlement_settlementToJson (t : Settlement) :
  asSettlement (settlementToJson t) = Some (cloneSettlement t).
Proof.
  unfold asSettlement, settlementToJson. cbn.
  rewrite !asNumber_numberToJson. reflexivity.
Qed.

Lemma asRoad_roadToJson (r : Road) : asRoad (roadToJson r) = Some (cloneRoad r).
Proof. reflexivity. Qed.

(** Reading back what [JSON.stringify] wrote of the four collections gives
    what [deepClone] makes of them. *)
Lemma parse_stringify_collections (s : AppStateData) :
  asCoastlineData (coastlineToJson (coastline s))
  = Some (coastline (deepClone s))
  /\ asTowerData (towersToJson (towers s)) = Some (towers (deepClone s))
  /\ asSettlementData (settlementsToJson (settlements s))
     = Some (settlements (deepClone s))
  /\ asRoadData (roadsToJson (roads s)) = Some (roads (deepClone s)).
Proof.
  unfold asCoastlineData, coastlineToJson, asTowerData, towersToJson,
    asSettlementData, settlementsToJson, asRoadData, roadsToJson.
  cbn. rewrite !map_map.
  rewrite (allSome_map _ clonePoint) by apply asPoint_pointToJson.
  rewrite (allSome_map _ cloneTower) by apply asTower_towerToJson.
  rewrite (allSome_map _ cloneSettlement)
    by apply asSettlement_settlementToJson.
  rewrite (allSome_map _ cloneRoad) by apply asRoad_roadToJson.
  repeat split.
Qed.

Lemma asPendingEdit_toJson (pe : PendingEdit) :
  asPendingEdit (pendingEditToJson pe) = Some (clonePendingEdit pe).
Proof.
  destruct pe as [ty pts sa ea rp].
  unfold asPendingEdit, pendingEditToJson, clonePendingEdit.
  cbn [pe_type pe_points startAnchorId endAnchorId replacedPointIds].
  assert (asArray asPoint (JArray (map pointToJson pts))
          = Some (map clonePoint pts)) as Hpts.
  { cbn [asArray]. rewrite map_map.
    apply allSome_map, asPoint_pointToJson. }
  assert (forall ids, asArray asString (JArray (map JString ids))
                      = Some (map (fun i : string => i) ids)) as Hids.
  { intros ids. cbn [asArray]. rewrite map_map.
    apply allSome_map. reflexivity. }
  destruct ty, sa as [sa|], ea as [ea|], rp as [rp|];
    cbn [option_map optionalMember app getProp fold_left fst snd String.eqb
         Ascii.eqb Bool.eqb bind asOptional asEditType asString editTypeName
         find];
    rewrite Hpts; cbn [bind asString]; rewrite ?Hids; reflexivity.
Qed.

(** [deepClone] is [JSON.parse(JSON.stringify(state))]: reading back what
    [JSON.stringify] writes of a state gives its deep copy. *)
Lemma parse_stringify_state (s : AppStateData) :
  asAppStateData (stateToJson s) = Some (deepClone s).
Proof.
  destruct (parse_stringify_collections s) as [Hc [Ht [Hs Hr]]].
  assert (bind (Some (JString (modeName (currentMode s)))) asMode
          = Some (currentMode s)) as Hm
    by (destruct (currentMode s); reflexivity).
  assert (bind (Some (JString (subModeName (coastlineSubMode s)))) asSubMode
          = Some (coastlineSubMode s)) as Hsm
    by (destruct (coastlineSubMode s); reflexivity).
  assert (asNullable asPendingEdit (nullable pendingEditToJson (pendingEdit s))
          = Some (option_map clonePendingEdit (pendingEdit s))) as Hpe.
  { destruct (pendingEdit s) as [pe|]; [|reflexivity].
    cbn [nullable option_map]. unfold pendingEditToJson at 1.
    cbn [asNullable]. fold (pendingEditToJson pe).
    rewrite asPendingEdit_toJson. reflexivity. }
  assert (forall o : option string,
             asNullable asString (nullable JString o) = Some o) as Hn
    by (intros [i|]; reflexivity).
  unfold asAppStateData, stateToJson.
  cbn [getProp fold_left fst snd String.eqb Ascii.eqb Bool.eqb].
  rewrite Hm, Hsm. cbn [bind].
  rewrite Hc, Ht, Hs, Hr, Hpe, asTowerType_name, !asNumber_numberToJson, !Hn.
  reflexivity.
Qed.

Lemma load_saved (now fresh : string) (st target : AppState) :
  initLoad fresh (loadFromDataFolder (BodyJson (saveOf now st))) target
  = Some (dispatch fresh
            (LOAD_STATE
               (with_roads (roads (deepClone (state st)))
                  (with_settlements (settlements (deepClone (state st)))
                     (with_towers (towers (deepClone (state st)))
                        (with_coastline (coastline (deepClone (state st)))
                           (state target))))))
            target).
Proof.
  destruct (parse_stringify_collections (state st)) as [Hc [Ht [Hs Hr]]].
  unfold initLoad, saveOf, downloadJson, createSaveData, getState.
  cbn [loadFromDataFolder jsTruthy sv_version sv_coastline sv_towers
       sv_settlements sv_roads savedAt].
  cbn [getProp fold_left fst snd String.eqb Ascii.eqb Bool.eqb orDefault].
  unfold towersToJson at 1, settlementsToJson at 1, roadsToJson at 1.
  cbn [orDefault jsTruthy bind].
  fold (towersToJson (towers (state st))).
  fold (settlementsToJson (settlements (state st))).
  fold (roadsToJson (roads (state st))).
  rewrite Hc, Ht, Hs, Hr. reflexivity.
Qed.

(** X17.  Saving and loading.  When the file [loadFromDataFolder] fetches
    is the one the save button wrote, the load succeeds and puts the JSON
    round trip of the saved coastline, towers, settlements and roads
    (their deep copy: ids, names, order and flags as saved, [null] where a
    number was [NaN] or infinite) into the current state, keeping every
    other field of it; the load is a dispatch like any other, so one
    [undo] after it gives back the deep copy of the state from before the
    load.  Loaded back into the store it was saved from, a state that
    holds no [NaN], infinity or [-0] comes back as it was, whatever the
    time of saving.  A file that has no [towers] member loads, if it
    loads, with no towers.  A fetch that fails, a body that is not JSON
    and a body that is [null], [false], [0] or the empty string leave the
    store alone. *)
Theorem save_load_round_trip (now fresh : string) (st target : AppState) :
  (exists loaded : AppState,
      initLoad fresh (loadFromDataFolder (BodyJson (saveOf now st))) target
      = Some loaded
      /\ coastline (state loaded) = coastline (deepClone (state st))
      /\ towers (state loaded) = towers (deepClone (state st))
      /\ settlements (state loaded) = settlements (deepClone (state st))
      /\ roads (state loaded) = roads (deepClone (state st))
      /\ sameSettings (state target) (state loaded)
      /\ fst (undo loaded) = true
      /\ state (snd (undo loaded)) = deepClone (state target))
  /\ (jsonStable (state st) = true ->
      exists loaded : AppState,
        initLoad fresh (loadFromDataFolder (BodyJson (saveOf now st))) st
        = Some loaded
        /\ state loaded = state st)
  /\ (forall (data : Json) (loaded : AppState),
         jsTruthy data = true ->
         getProp "towers" data = None ->
         initLoad fresh (loadFromDataFolder (BodyJson data)) target
         = Some loaded ->
         towers (state loaded) = mkTowerData []
         /\ sameSettings (state target) (state loaded))
  /\ (forall r : FetchResult,
         (forall data, r = BodyJson data -> jsTruthy data = false) ->
         initLoad fresh (loadFromDataFolder r) target = Some target).
Proof.
  split; [|split; [|split]].
  - eexists. split; [apply load_saved|].
    assert (forall s, history (dispatch fresh (LOAD_STATE s) target)
            = (if (List.length (history target) <? maxHistory)%nat
               then history target else tl (history target))
              ++ [deepClone (state target)]) as Hh.
    { intros s. rewrite dispatch_history by (simpl; discriminate).
      apply pushHistory_cases. }
    rewrite (undo_snoc _ _ _ (Hh _)). cbn [fst snd state].
    rewrite dispatch_state. unfold sameSettings. cbn. repeat split.
  - intros Hst. eexists. split; [apply load_saved|].
    rewrite dispatch_state. cbn [reduce].
    rewrite (deepClone_stable _ Hst).
    destruct (state st). reflexivity.
  - intros data loaded Htruthy Hnone.
    assert (loadFromDataFolder (BodyJson data) = Some data) as ->
      by (destruct data; [discriminate Htruthy | reflexivity ..]).
    unfold initLoad. rewrite Htruthy, Hnone. cbn [orDefault].
    destruct (bind (getProp "coastline" data) asCoastlineData) as [c|];
      cbn [bind]; [|discriminate].
    change (asTowerData (JObject [("towers", JArray [])]))
      with (Some (mkTowerData [])). cbn [bind].
    destruct (asSettlementData _) as [sd|]; cbn [bind]; [|discriminate].
    destruct (asRoadData _) as [rd|]; cbn [bind]; [|discriminate].
    intros E. injection E as <-. rewrite dispatch_state.
    unfold sameSettings. cbn. repeat split.
  - intros r Hr. destruct r as [| | |data]; try reflexivity.
    specialize (Hr data eq_refl).
    destruct data; try reflexivity; cbn [loadFromDataFolder initLoad];
      rewrite Hr; reflexivity.
Qed.

Lemma save_load_round_trip_witness :
  (exists loaded : AppState,
      initLoad "" (loadFromDataFolder
                     (BodyJson (saveOf "2024-01-01T00:00:00.000Z" onePointStore)))
        onePointStore
      = Some loaded
      /\ state loaded = state onePointStore)
  /\ (towers
        (state (dispatch ""
                  (LOAD_STATE
                     (with_towers (mkTowerData [])
                        (with_coastline (mkCoastline boundary3 true)
                           (state towerStore))))
                  towerStore))
      = mkTowerData []
      /\ sameSettings (state towerStore)
           (state (dispatch ""
                     (LOAD_STATE
                        (with_towers (mkTowerData [])
                           (with_coastline (mkCoastline boundary3 true)
                              (state towerStore))))
                     towerStore)))
  /\ initLoad "" (loadFromDataFolder (BodyJson (JBool false))) onePointStore
     = Some onePointStore.
Proof.
  destruct (save_load_round_trip "2024-01-01T00:00:00.000Z" ""
              onePointStore onePointStore) as [_ [H2 [_ H4]]].
  destruct (save_load_round_trip "2024-01-01T00:00:00.000Z" ""
              onePointStore towerStore) as [_ [_ [H3 _]]].
  split; [apply H2; reflexivity|]. split.
  - apply (H3 coastlineOnlyFile); reflexivity.
  - apply (H4 (BodyJson (JBool false))).
    intros data E. injection E as <-. reflexivity.
Defined.
